(** * Native-to-web design property remediation: rule catalog, resolver,
      element processor, spacing aggregator and commit flow.

    Shallow embedding of [src/clean-native-props.ts].  Mutable SDK objects
    are modelled by explicit state passing: a widget's design properties are
    a store of property objects ([list DesignPropertyValue], an object's
    identity is its index) together with the list of references that the
    SDK list [appearance.designProperties] currently holds.

    Of the console output only the trace of the spacing aggregation is
    modelled.  SDK calls are taken to succeed; the one exception that the
    script raises itself, in [applyWidgetPropertyMapping], is modelled.
    The report writer is an external collaborator: [main] records the rows
    handed to it. *)

From Stdlib Require Import Ascii.
From stdpp Require Import base option list strings gmap.

(* ===================================================================== *)
(** * The program *)
(* ===================================================================== *)

(* ===================================================================== *)
(** ** Type definitions *)
(* ===================================================================== *)

(** [action: "map" | "remove" | "mapToWidgetProperty"] *)
Inductive MappingAction := ActMap | ActRemove | ActMapToWidgetProperty.

#[global] Instance MappingAction_eq_dec : EqDecision MappingAction.
Proof. solve_decision. Defined.

(** [interface PropertyMappingV2].  Optional fields ([mappedProperty?] ...)
    are [option string]; [property] and [value] are declared [string], an
    entry of the JSON file that lacks one of them is read as the empty
    string, which is falsy like [undefined]. *)
Record PropertyMappingV2 := {
  property : string;
  value : string;
  elementTypes : list string;
  action : MappingAction;
  mappedProperty : option string;
  mappedValue : option string;
  mappedDirection : option string;
  mappedType : option string;
  widgetProperty : option string;
  widgetValue : option string;
  _reason : option string;
  _comment : option string
}.

#[global] Instance PropertyMappingV2_eq_dec : EqDecision PropertyMappingV2.
Proof. solve_decision. Defined.

(** JavaScript truthiness of a string ([""] is falsy) and of an optional
    string ([undefined] and [""] are falsy). *)
Definition truthy (s : string) : bool := negb (String.eqb s "").
Definition truthyO (o : option string) : bool :=
  match o with Some s => truthy s | None => false end.

(** [o || d] for an optional string. *)
Definition orElse (o : option string) (d : string) : string :=
  match o with
  | Some s => if truthy s then s else d
  | None => d
  end.

(* ===================================================================== *)
(** ** Rule catalog *)
(* ===================================================================== *)

(** [`${property}|${value}|${elementType}`] *)
Definition lookupKey (property value elementType : string) : string :=
  property +:+ "|" +:+ value +:+ "|" +:+ elementType.

(** The two global lookup structures built by [loadMappings]. *)
Record Catalog := {
  MAPPINGS_DATA : list PropertyMappingV2;
  MAPPINGS_LOOKUP : gmap string PropertyMappingV2;
  MAPPED_PROPERTY_NAMES : gset string
}.

(** [mappingsFile.mappings.filter(m => m.property && m.value)] *)
Definition isRuleEntry (m : PropertyMappingV2) : bool :=
  truthy (property m) && truthy (value m).

(** Inner loop: one [MAPPINGS_LOOKUP.set(key, mapping)] per element type. *)
Definition indexMapping (lk : gmap string PropertyMappingV2)
    (m : PropertyMappingV2) : gmap string PropertyMappingV2 :=
  foldl (fun acc elementType =>
           <[lookupKey (property m) (value m) elementType := m]> acc)
        lk (elementTypes m).

(** Outer loop over [MAPPINGS_DATA]. *)
Definition buildLookup (data : list PropertyMappingV2)
  : gmap string PropertyMappingV2 := foldl indexMapping ∅ data.

Definition buildNames (data : list PropertyMappingV2) : gset string :=
  foldl (fun acc m => {[property m]} ∪ acc) ∅ data.

(** The structures that a readable mappings file yields. *)
Definition buildCatalog (mappings : list PropertyMappingV2) : Catalog :=
  let data := List.filter isRuleEntry mappings in
  {| MAPPINGS_DATA := data;
     MAPPINGS_LOOKUP := buildLookup data;
     MAPPED_PROPERTY_NAMES := buildNames data |}.

(** [loadMappings]: [None] stands for a missing or unparsable
    [property-mappings.json] (the function returns [false]); the global
    structures start empty and are filled once. *)
Definition loadMappings (file : option (list PropertyMappingV2))
  : option Catalog :=
  match file with
  | None => None
  | Some mappings => Some (buildCatalog mappings)
  end.

(* ===================================================================== *)
(** ** Rule resolver *)
(* ===================================================================== *)

(** [findMapping]: specific element type first, then the wildcard. *)
Definition findMapping (C : Catalog) (property value elementType : string)
  : option PropertyMappingV2 :=
  match MAPPINGS_LOOKUP C !! lookupKey property value elementType with
  | Some mapping => Some mapping
  | None => MAPPINGS_LOOKUP C !! lookupKey property value "*"
  end.

(* ===================================================================== *)
(** ** Design properties *)
(* ===================================================================== *)

(** The value slot of a design property.  [VAbsent] is [undefined]/[null];
    [VScalar s] is a primitive (boolean, number, string) or an object of an
    unknown class, carried as its rendering [String(value)].  The entries
    of a compound value are design properties themselves, here pairs of a
    key and a value. *)
#[warnings="-register-all"]
Inductive PropValue :=
| VAbsent
| VOption (option_ : string)
| VCompound (properties : list (string * PropValue))
| VToggle
| VScalar (rendered : string).

(** [pages.DesignPropertyValue]: a key and a value. *)
Record DesignPropertyValue := {
  key : string;
  pvalue : PropValue
}.

(** [extractPropertyValue] *)
Definition extractPropertyValue (prop : DesignPropertyValue) : string :=
  match pvalue prop with
  | VAbsent => ""
  | VOption o => orElse (Some o) ""
  | VCompound _ => "[Compound]"
  | VToggle => "true"
  | VScalar s => s
  end.

(** [s.split(sep)] for a one-character separator. *)
Fixpoint splitOn (sep : ascii) (s : string) : list string :=
  match s with
  | EmptyString => [""]
  | String c rest =>
      if Ascii.eqb c sep then "" :: splitOn sep rest
      else match splitOn sep rest with
           | [] => [String c ""]
           | h :: t => String c h :: t
           end
  end.

(* ===================================================================== *)
(** ** Spacing state and spacing aggregation *)
(* ===================================================================== *)

(** [interface SpacingState].  Each layer is a plain JavaScript object
    indexed by a direction string ([baseState[type][dir]]); the finite map
    holds the properties of the object itself. *)
Record SpacingState := {
  margin : gmap string string;
  padding : gmap string string
}.

(** [{ top: "None", right: "None", bottom: "None", left: "None" }] *)
Definition noneLayer : gmap string string :=
  <["top" := "None"]> (<["right" := "None"]>
    (<["bottom" := "None"]> (<["left" := "None"]> ∅))).

Definition emptyState : SpacingState :=
  {| margin := noneLayer; padding := noneLayer |}.

Inductive SpacingKind := KMargin | KPadding.

#[global] Instance SpacingKind_eq_dec : EqDecision SpacingKind.
Proof. solve_decision. Defined.

Definition kindName (k : SpacingKind) : string :=
  match k with KMargin => "margin" | KPadding => "padding" end.

(** [state[type]] and [state[type][dir] = val] *)
Definition layer (k : SpacingKind) (st : SpacingState) : gmap string string :=
  match k with KMargin => margin st | KPadding => padding st end.

Definition setSlot (k : SpacingKind) (dir val : string) (st : SpacingState)
  : SpacingState :=
  match k with
  | KMargin => {| margin := <[dir := val]> (margin st); padding := padding st |}
  | KPadding => {| margin := margin st; padding := <[dir := val]> (padding st) |}
  end.

Definition isSide (d : string) : bool :=
  String.eqb d "top" || String.eqb d "right"
  || String.eqb d "bottom" || String.eqb d "left".

(** Body of the loop of [parseSpacingState] over [val.properties]. *)
Definition parseEntry (st : SpacingState) (e : string * PropValue)
  : SpacingState :=
  let '(k, propValue) := e in
  if negb (truthy k) then st
  else match propValue with
       | VOption o =>
           if negb (truthy o) then st
           else match splitOn "-"%char k with
                | [type; direction] =>
                    if (String.eqb type "margin" || String.eqb type "padding")
                       && isSide direction
                    then if String.eqb type "margin"
                         then setSlot KMargin direction o st
                         else setSlot KPadding direction o st
                    else st
                | _ => st
                end
       | _ => st
       end.

(** [parseSpacingState]: [None] is [undefined]. *)
Definition parseSpacingState (prop : option DesignPropertyValue)
  : option SpacingState :=
  match prop with
  | None => None
  | Some p =>
      match pvalue p with
      | VCompound properties => Some (foldl parseEntry emptyState properties)
      | _ => None
      end
  end.

(** A queued spacing contribution
    ([{ prop, mapping, direction, spacingType }]); [prop] is a reference
    (index into the object store) together with the object it denotes. *)
Record SpacingItem := {
  si_prop : nat * DesignPropertyValue;
  si_mapping : PropertyMappingV2;
  si_direction : string;
  si_spacingType : SpacingKind
}.

(** Step 1 of the aggregation: the base state, seeded from the existing
    [Spacing] property ([Object.assign(baseState.margin, parsed.margin)]). *)
Definition seedState (existingSpacingProp : option DesignPropertyValue)
  : SpacingState :=
  match existingSpacingProp with
  | None => emptyState
  | Some p =>
      match parseSpacingState (Some p) with
      | Some parsed =>
          {| margin := margin parsed ∪ margin emptyState;
             padding := padding parsed ∪ padding emptyState |}
      | None => emptyState
      end
  end.

Definition itemDir (item : SpacingItem) : string :=
  orElse (Some (si_direction item)) "top".
Definition itemVal (item : SpacingItem) : string :=
  orElse (mappedValue (si_mapping item)) "None".

(** Rendering of a possibly undefined string inside a template literal. *)
Definition jsShow (o : option string) : string :=
  match o with Some s => s | None => "undefined" end.

(** The layers are plain JavaScript objects.  These are the names under
    which every such object inherits a member of [Object.prototype]. *)
Definition protoMembers : list string :=
  [ "constructor"; "__proto__"; "hasOwnProperty"; "isPrototypeOf";
    "propertyIsEnumerable"; "toLocaleString"; "toString"; "valueOf";
    "__defineGetter__"; "__defineSetter__"; "__lookupGetter__";
    "__lookupSetter__" ].

(** What [baseState[type][dir]] reads: the property that the layer has
    under that name, else the member that it inherits under it, else
    [undefined]. *)
Inductive SlotRead :=
| ReadOwn (v : string)
| ReadInherited (name : string)
| ReadUndefined.

Definition readSlot (k : SpacingKind) (dir : string) (st : SpacingState)
  : SlotRead :=
  match layer k st !! dir with
  | Some v => ReadOwn v
  | None =>
      if bool_decide (dir ∈ protoMembers) then ReadInherited dir
      else ReadUndefined
  end.

(** [baseState[type][dir] = val] for a string [val]: the layer gets the
    property, except under ["__proto__"], where the assignment reaches the
    accessor of [Object.prototype], which ignores a string. *)
Definition writeSlot (k : SpacingKind) (dir val : string) (st : SpacingState)
  : SpacingState :=
  if String.eqb dir "__proto__" then st else setSlot k dir val st.

(** An inherited member inside a template literal, as Node prints it. *)
Definition inheritedText (name : string) : string :=
  if String.eqb name "__proto__" then "[object Object]"
  else if String.eqb name "constructor"
  then "function Object() { [native code] }"
  else "function " +:+ name +:+ "() { [native code] }".

(** [oldVal !== val ? ` (was: ${oldVal})` : ''] for a previous value that
    is a string or [undefined], and for any value that was read (an
    inherited member is never identical to the new string). *)
Definition wasSuffix (oldVal : option string) (val : string) : string :=
  if bool_decide (oldVal = Some val) then ""
  else " (was: " +:+ jsShow oldVal +:+ ")".

Definition readSuffix (oldVal : SlotRead) (val : string) : string :=
  match oldVal with
  | ReadOwn v => wasSuffix (Some v) val
  | ReadInherited name => " (was: " +:+ inheritedText name +:+ ")"
  | ReadUndefined => wasSuffix None val
  end.

Definition dquote : string := String (ascii_of_nat 34) EmptyString.

(** The trace line written for one contribution: the mapping, then the
    previous value of the slot when it differs from the new one. *)
Definition spacingLogBase (item : SpacingItem) : string :=
  "       → Mapping: " +:+ dquote +:+ key (snd (si_prop item)) +:+ dquote
  +:+ "=" +:+ dquote +:+ extractPropertyValue (snd (si_prop item)) +:+ dquote
  +:+ " → Spacing " +:+ kindName (si_spacingType item) +:+ "."
  +:+ itemDir item +:+ "=" +:+ dquote +:+ itemVal item +:+ dquote.

Definition spacingLogLine (item : SpacingItem) (oldVal : SlotRead)
  : string := spacingLogBase item +:+ readSuffix oldVal (itemVal item).

(** Body of the loop "Overwrite with mapped Native values": the state and
    the console trace. *)
Definition applyContribution (acc : SpacingState * list string)
    (item : SpacingItem) : SpacingState * list string :=
  let '(baseState, out) := acc in
  let dir := itemDir item in
  let type := si_spacingType item in
  let val := itemVal item in
  let oldVal := readSlot type dir baseState in
  (writeSlot type dir val baseState, out ++ [spacingLogLine item oldVal]).

Definition mergeSpacing (existingSpacingProp : option DesignPropertyValue)
    (spacingPropertiesToMap : list SpacingItem) : SpacingState * list string :=
  foldl applyContribution (seedState existingSpacingProp, [])
        spacingPropertiesToMap.

(** [addInnerProp]: nothing for ["None"], else one option-valued entry.
    A slot that is not set reads as [undefined]; the four sides are always
    set (lemma [sidesPresent_merge]). *)
Definition addInnerProp (k : string) (val : option string)
  : list (string * PropValue) :=
  match val with
  | Some v => if String.eqb v "None" then [] else [(k, VOption v)]
  | None => [(k, VOption "")]
  end.

(** The eight calls of [addInnerProp], in source order. *)
Definition materialize (st : SpacingState) : list (string * PropValue) :=
  addInnerProp "margin-top" (margin st !! "top")
  ++ addInnerProp "margin-right" (margin st !! "right")
  ++ addInnerProp "margin-bottom" (margin st !! "bottom")
  ++ addInnerProp "margin-left" (margin st !! "left")
  ++ addInnerProp "padding-top" (padding st !! "top")
  ++ addInnerProp "padding-right" (padding st !! "right")
  ++ addInnerProp "padding-bottom" (padding st !! "bottom")
  ++ addInnerProp "padding-left" (padding st !! "left").

(** The new [Spacing] design property. *)
Definition newSpacingProp (st : SpacingState) : DesignPropertyValue :=
  {| key := "Spacing"; pvalue := VCompound (materialize st) |}.

(* ===================================================================== *)
(** ** Widgets, audit rows and counters *)
(* ===================================================================== *)

(** What [widget.buttonStyle] holds: one of the seven members of
    [pages.ButtonStyle], or, once the script has assigned it and the SDK
    has taken it, the member that a plain object inherits under [name]. *)
Inductive ButtonStyle :=
| BSDefault | BSInverse | BSPrimary | BSInfo | BSSuccess | BSWarning | BSDanger
| BSInherited (name : string).

(** What the script hands to a setter of the SDK: the string of a rule,
    or the member that a plain object inherits under [name]. *)
Inductive Assigned :=
| AString (v : string)
| AInherited (name : string).

(** A [pages.Widget].  [attrs] holds the attributes the script reaches by
    name ([name], [structureTypeName], [widgetId], and whatever the generic
    branch of [applyWidgetPropertyMapping] assigns); [isActionButton] is
    [widget instanceof pages.ActionButton]; [designProperties] is
    [widget.appearance.designProperties], empty when absent.

    The widget is an object of the model SDK, which is not part of the
    script: [accepts k v] is the SDK's answer to the assignment
    [widget[k] = v].  It is [true] when the setter stores [v], so that
    the attribute [k] then reads [v] and the rest of the widget is as
    before, and [false] when the setter throws.  The setter of a typed
    attribute (an enumeration such as the render mode of a text, a
    number, a reference) refuses a string and throws; a string attribute
    takes it.  The answer belongs to the class of the widget: no step of
    the script changes it. *)
Record Widget := {
  attrs : gmap string string;
  constructorName : string;
  isActionButton : bool;
  buttonStyle : ButtonStyle;
  designProperties : list DesignPropertyValue;
  accepts : string -> Assigned -> bool
}.

(** Target element types to process. *)
Definition TARGET_ELEMENT_TYPES : list string :=
  [ "DynamicText"; "DivContainer"; "StaticImageViewer"; "ListView";
    "ActionButton"; "ReferenceSelector"; "DropDown";
    "InputReferenceSetSelector"; "CheckBox";
    "com.mendix.widget.native.badge.Badge"; "TextArea"; "ImageViewer";
    "Text" ].

(** [getWidgetTypeName] *)
Definition getWidgetTypeName (widget : Widget) : string :=
  let structTypeName := attrs widget !! "structureTypeName" in
  if truthyO structTypeName then
    match splitOn "$"%char (jsShow structTypeName) with
    | _ :: part1 :: _ => part1
    | _ => jsShow structTypeName
    end
  else
    let widgetId := attrs widget !! "widgetId" in
    if truthyO widgetId then jsShow widgetId else constructorName widget.

Inductive CsvAction := Mapped | Removed | Skipped | WidgetPropertySet.

#[global] Instance CsvAction_eq_dec : EqDecision CsvAction.
Proof. solve_decision. Defined.

(** [interface CsvDataRow] *)
Record CsvDataRow := {
  csv_element : string;
  csv_elementType : string;
  csv_document : string;
  csv_module : string;
  csv_property : string;
  csv_value : string;
  csv_action : CsvAction;
  csv_mappedProperty : option string;
  csv_mappedValue : option string;
  csv_reason : option string
}.

(** [interface ProcessingResult] *)
Record ProcessingResult := {
  widgets : nat;
  props : nat;
  mapped : nat;
  removed : nat;
  widgetPropsMapped : nat;
  skipped : nat;
  skippedNativeLayouts : nat
}.

Definition zeroResult : ProcessingResult :=
  {| widgets := 0; props := 0; mapped := 0; removed := 0;
     widgetPropsMapped := 0; skipped := 0; skippedNativeLayouts := 0 |}.

Definition addProps (n : nat) (r : ProcessingResult) : ProcessingResult :=
  {| widgets := widgets r; props := props r + n; mapped := mapped r;
     removed := removed r; widgetPropsMapped := widgetPropsMapped r;
     skipped := skipped r; skippedNativeLayouts := skippedNativeLayouts r |}.
Definition addMapped (n : nat) (r : ProcessingResult) : ProcessingResult :=
  {| widgets := widgets r; props := props r; mapped := mapped r + n;
     removed := removed r; widgetPropsMapped := widgetPropsMapped r;
     skipped := skipped r; skippedNativeLayouts := skippedNativeLayouts r |}.
Definition addRemoved (n : nat) (r : ProcessingResult) : ProcessingResult :=
  {| widgets := widgets r; props := props r; mapped := mapped r;
     removed := removed r + n; widgetPropsMapped := widgetPropsMapped r;
     skipped := skipped r; skippedNativeLayouts := skippedNativeLayouts r |}.
Definition addWidgetPropsMapped (n : nat) (r : ProcessingResult)
  : ProcessingResult :=
  {| widgets := widgets r; props := props r; mapped := mapped r;
     removed := removed r; widgetPropsMapped := widgetPropsMapped r + n;
     skipped := skipped r; skippedNativeLayouts := skippedNativeLayouts r |}.
Definition addSkipped (n : nat) (r : ProcessingResult) : ProcessingResult :=
  {| widgets := widgets r; props := props r; mapped := mapped r;
     removed := removed r; widgetPropsMapped := widgetPropsMapped r;
     skipped := skipped r + n; skippedNativeLayouts := skippedNativeLayouts r |}.
Definition addWidgets (n : nat) (r : ProcessingResult) : ProcessingResult :=
  {| widgets := widgets r + n; props := props r; mapped := mapped r;
     removed := removed r; widgetPropsMapped := widgetPropsMapped r;
     skipped := skipped r; skippedNativeLayouts := skippedNativeLayouts r |}.
Definition addSkippedNativeLayouts (n : nat) (r : ProcessingResult)
  : ProcessingResult :=
  {| widgets := widgets r; props := props r; mapped := mapped r;
     removed := removed r; widgetPropsMapped := widgetPropsMapped r;
     skipped := skipped r; skippedNativeLayouts := skippedNativeLayouts r + n |}.

(* ===================================================================== *)
(** ** Element processor: analysis pass *)
(* ===================================================================== *)

(** A reference to a property object (its index in the widget's object
    store) together with the object it denotes; no step before the
    execution phase of [processWidget] writes to a property object. *)
Abbreviation PropRef := (nat * DesignPropertyValue)%type.

(** The local variables of [processWidget] that the first loop updates,
    with the shared [csvData]. *)
Record Analysis := {
  result : ProcessingResult;
  csvData : list CsvDataRow;
  toModify : list (PropRef * PropertyMappingV2);
  toRemove : list PropRef;
  toSetWidgetProp : list (PropRef * PropertyMappingV2);
  skippedProps : list (string * string * string);
  mappedTargetProperties : gset string;
  spacingPropertiesToMap : list SpacingItem
}.

Definition initAnalysis (csv : list CsvDataRow) : Analysis :=
  {| result := zeroResult; csvData := csv; toModify := []; toRemove := [];
     toSetWidgetProp := []; skippedProps := [];
     mappedTargetProperties := ∅; spacingPropertiesToMap := [] |}.

(** The names and locations that every audit row of one widget shares. *)
Record WidgetCtx := {
  widgetName : string;
  widgetType : string;
  docName : string;
  moduleName : string
}.

Definition mkRow (cx : WidgetCtx) (propKey propValue : string)
    (a : CsvAction) (mp mv rs : option string) : CsvDataRow :=
  {| csv_element := widgetName cx; csv_elementType := widgetType cx;
     csv_document := docName cx; csv_module := moduleName cx;
     csv_property := propKey; csv_value := propValue; csv_action := a;
     csv_mappedProperty := mp; csv_mappedValue := mv; csv_reason := rs |}.

Definition noMappingReason : string :=
  "No mapping defined for this property/value/element combination".

(** [`Duplicate target '${targetProp}' - collision with prioritized mapping`] *)
Definition collisionReason (targetProp : string) : string :=
  "Duplicate target '" +:+ targetProp
  +:+ "' - collision with prioritized mapping".

(** [mapping.mappedProperty === "Spacing" && mapping.mappedDirection] *)
Definition isSpacingMapping (mapping : PropertyMappingV2) : bool :=
  bool_decide (mappedProperty mapping = Some "Spacing")
  && truthyO (mappedDirection mapping).

(** Branch [mapping.action === "remove"]. *)
Definition doRemove (cx : WidgetCtx) (st : Analysis) (prop : PropRef)
    (propKey propValue : string) (mapping : PropertyMappingV2) : Analysis :=
  {| result := addRemoved 1 (result st);
     csvData := csvData st ++
       [mkRow cx propKey propValue Removed None None
              (Some (orElse (_reason mapping) "No Web equivalent"))];
     toModify := toModify st; toRemove := toRemove st ++ [prop];
     toSetWidgetProp := toSetWidgetProp st; skippedProps := skippedProps st;
     mappedTargetProperties := mappedTargetProperties st;
     spacingPropertiesToMap := spacingPropertiesToMap st |}.

(** Spacing branch: collect for aggregation, no counter, no row. *)
Definition doCollectSpacing (st : Analysis) (prop : PropRef)
    (mapping : PropertyMappingV2) : Analysis :=
  let spacingType :=
    if bool_decide (mappedType mapping = Some "padding")
    then KPadding else KMargin in
  {| result := result st; csvData := csvData st; toModify := toModify st;
     toRemove := toRemove st; toSetWidgetProp := toSetWidgetProp st;
     skippedProps := skippedProps st;
     mappedTargetProperties := mappedTargetProperties st;
     spacingPropertiesToMap := spacingPropertiesToMap st ++
       [{| si_prop := prop; si_mapping := mapping;
           si_direction := jsShow (mappedDirection mapping);
           si_spacingType := spacingType |}] |}.

(** Duplicate target: the current property is removed. *)
Definition doCollision (cx : WidgetCtx) (st : Analysis) (prop : PropRef)
    (propKey propValue targetProp : string) : Analysis :=
  {| result := addRemoved 1 (result st);
     csvData := csvData st ++
       [mkRow cx propKey propValue Removed None None
              (Some (collisionReason targetProp))];
     toModify := toModify st; toRemove := toRemove st ++ [prop];
     toSetWidgetProp := toSetWidgetProp st; skippedProps := skippedProps st;
     mappedTargetProperties := mappedTargetProperties st;
     spacingPropertiesToMap := spacingPropertiesToMap st |}.

(** Normal mapping: claim the target, queue the rewrite. *)
Definition doMap (cx : WidgetCtx) (st : Analysis) (prop : PropRef)
    (propKey propValue targetProp : string) (mapping : PropertyMappingV2)
  : Analysis :=
  {| result := addMapped 1 (result st);
     csvData := csvData st ++
       [mkRow cx propKey propValue Mapped
              (Some (orElse (mappedProperty mapping) ""))
              (Some (orElse (mappedValue mapping) "")) None];
     toModify := toModify st ++ [(prop, mapping)]; toRemove := toRemove st;
     toSetWidgetProp := toSetWidgetProp st; skippedProps := skippedProps st;
     mappedTargetProperties :=
       (if truthy targetProp then {[targetProp]} ∪ mappedTargetProperties st
        else mappedTargetProperties st);
     spacingPropertiesToMap := spacingPropertiesToMap st |}.

(** Branch [mapping.action === "mapToWidgetProperty"]. *)
Definition doWidgetProp (cx : WidgetCtx) (st : Analysis) (prop : PropRef)
    (propKey propValue : string) (mapping : PropertyMappingV2) : Analysis :=
  {| result := addWidgetPropsMapped 1 (result st);
     csvData := csvData st ++
       [mkRow cx propKey propValue WidgetPropertySet
              (Some (orElse (widgetProperty mapping) ""))
              (Some (orElse (widgetValue mapping) ""))
              (Some (orElse (_reason mapping) "Mapped to widget property"))];
     toModify := toModify st; toRemove := toRemove st;
     toSetWidgetProp := toSetWidgetProp st ++ [(prop, mapping)];
     skippedProps := skippedProps st;
     mappedTargetProperties := mappedTargetProperties st;
     spacingPropertiesToMap := spacingPropertiesToMap st |}.

(** No mapping found: counted, remembered in the local [skippedProps]. *)
Definition doSkip (st : Analysis) (propKey propValue : string) : Analysis :=
  {| result := addSkipped 1 (result st); csvData := csvData st;
     toModify := toModify st; toRemove := toRemove st;
     toSetWidgetProp := toSetWidgetProp st;
     skippedProps := skippedProps st ++ [(propKey, propValue, noMappingReason)];
     mappedTargetProperties := mappedTargetProperties st;
     spacingPropertiesToMap := spacingPropertiesToMap st |}.

Definition countProp (st : Analysis) : Analysis :=
  {| result := addProps 1 (result st); csvData := csvData st;
     toModify := toModify st; toRemove := toRemove st;
     toSetWidgetProp := toSetWidgetProp st; skippedProps := skippedProps st;
     mappedTargetProperties := mappedTargetProperties st;
     spacingPropertiesToMap := spacingPropertiesToMap st |}.

(** Body of the loop [for (const prop of propertiesList)]. *)
Definition analyseProp (C : Catalog) (cx : WidgetCtx) (st : Analysis)
    (prop : PropRef) : Analysis :=
  let propKey := key (snd prop) in
  if negb (truthy propKey) then st
  else if negb (bool_decide (propKey ∈ MAPPED_PROPERTY_NAMES C)) then st
  else
    let propValue := extractPropertyValue (snd prop) in
    if negb (truthy propValue) then st
    else
      let st := countProp st in
      match findMapping C propKey propValue (widgetType cx) with
      | None => doSkip st propKey propValue
      | Some mapping =>
          match action mapping with
          | ActRemove => doRemove cx st prop propKey propValue mapping
          | ActMap =>
              if isSpacingMapping mapping
              then doCollectSpacing st prop mapping
              else
                let targetProp := orElse (mappedProperty mapping) "" in
                if truthy targetProp
                   && bool_decide (targetProp ∈ mappedTargetProperties st)
                then doCollision cx st prop propKey propValue targetProp
                else doMap cx st prop propKey propValue targetProp mapping
          | ActMapToWidgetProperty =>
              doWidgetProp cx st prop propKey propValue mapping
          end
      end.

(** The property list with the identity of each object. *)
Definition withRefs (ps : list DesignPropertyValue) : list PropRef :=
  zip (seq 0 (length ps)) ps.

(** The whole first pass. *)
Definition analyse (C : Catalog) (cx : WidgetCtx) (csv : list CsvDataRow)
    (refs : list PropRef) : Analysis :=
  foldl (analyseProp C cx) (initAnalysis csv) refs.

(* ===================================================================== *)
(** ** Element processor: aggregation and execution *)
(* ===================================================================== *)

(** [propertiesList.remove(prop)] on the list of references. *)
Definition listRemove (i : nat) (refs : list nat) : list nat :=
  filter (fun j => j ≠ i) refs.

(** [propertiesList.find((p) => p.key === "Spacing")] *)
Definition findExistingSpacing (ps : list DesignPropertyValue)
  : option PropRef := list_find (fun p => key p = "Spacing") ps.

(** The audit row of one spacing contribution. *)
Definition spacingRow (cx : WidgetCtx) (item : SpacingItem) : CsvDataRow :=
  mkRow cx (key (snd (si_prop item)))
        (extractPropertyValue (snd (si_prop item))) Mapped (Some "Spacing")
        (Some (kindName (si_spacingType item) +:+ "." +:+ si_direction item
               +:+ "=" +:+ orElse (mappedValue (si_mapping item)) ""))
        None.

(** State of one run of [processWidget]: the object store, the widget's
    property list (references into the store), the widget's own
    attributes, the counters, the shared audit rows and the aggregation
    trace written to the console. *)
Record WidgetRun := {
  run_objs : list DesignPropertyValue;
  run_refs : list nat;
  run_widget : Widget;
  run_result : ProcessingResult;
  run_csv : list CsvDataRow;
  run_log : list string
}.

(** Block [if (spacingPropertiesToMap.length > 0)]: the new [Spacing]
    property is created in the store and appended to the property list,
    the existing one is removed from the list, the contributions are
    counted and recorded. *)
Definition aggregateSpacing (cx : WidgetCtx) (widget : Widget)
    (st : Analysis) : WidgetRun :=
  let ps := designProperties widget in
  match spacingPropertiesToMap st with
  | [] =>
      {| run_objs := ps; run_refs := seq 0 (length ps);
         run_widget := widget; run_result := result st;
         run_csv := csvData st; run_log := [] |}
  | _ :: _ =>
      let items := spacingPropertiesToMap st in
      let existingSpacingProp := findExistingSpacing ps in
      let merged := mergeSpacing (snd <$> existingSpacingProp) items in
      let refs := seq 0 (length ps) ++ [length ps] in
      {| run_objs := ps ++ [newSpacingProp (fst merged)];
         run_refs := match existingSpacingProp with
                     | Some e => listRemove (fst e) refs
                     | None => refs
                     end;
         run_widget := widget;
         run_result := addMapped (length items) (result st);
         run_csv := csvData st ++ map (spacingRow cx) items;
         run_log := snd merged |}
  end.

(** [applyMapping]: rewrites key and value of the object in place. *)
Definition applyMapping (objs : list DesignPropertyValue) (prop : PropRef)
    (mapping : PropertyMappingV2) : list DesignPropertyValue :=
  if negb (truthyO (mappedProperty mapping))
     || negb (truthyO (mappedValue mapping))
  then objs
  else <[fst prop := {| key := jsShow (mappedProperty mapping);
                        pvalue := VOption (jsShow (mappedValue mapping)) |}]>
       objs.

(** [const buttonStyleMap] *)
Definition buttonStyleMap (v : string) : option ButtonStyle :=
  if bool_decide (v = "Default") then Some BSDefault
  else if bool_decide (v = "Inverse") then Some BSInverse
  else if bool_decide (v = "Primary") then Some BSPrimary
  else if bool_decide (v = "Info") then Some BSInfo
  else if bool_decide (v = "Success") then Some BSSuccess
  else if bool_decide (v = "Warning") then Some BSWarning
  else if bool_decide (v = "Danger") then Some BSDanger
  else None.

Definition setButtonStyle (s : ButtonStyle) (w : Widget) : Widget :=
  {| attrs := attrs w; constructorName := constructorName w;
     isActionButton := isActionButton w; buttonStyle := s;
     designProperties := designProperties w; accepts := accepts w |}.

Definition setAttr (k v : string) (w : Widget) : Widget :=
  {| attrs := <[k := v]> (attrs w); constructorName := constructorName w;
     isActionButton := isActionButton w; buttonStyle := buttonStyle w;
     designProperties := designProperties w; accepts := accepts w |}.

Definition setDesignProperties (ps : list DesignPropertyValue) (w : Widget)
  : Widget :=
  {| attrs := attrs w; constructorName := constructorName w;
     isActionButton := isActionButton w; buttonStyle := buttonStyle w;
     designProperties := ps; accepts := accepts w |}.

(** [applyWidgetPropertyMapping]; [None] when it throws: by one of its
    own two [throw]s, or when the SDK object refuses an assignment.  In
    the generic branch the assignment is [widget[mapping.widgetProperty]
    = mapping.widgetValue].  In the button branch [buttonStyleMap] is a
    plain object: a value that is none of its seven names reads
    [undefined], unless it names a member that the object inherits (such
    as ["constructor"]); that member is truthy, so the script assigns it
    to [widget.buttonStyle] and the SDK decides. *)
Definition applyWidgetPropertyMapping (widget : Widget)
    (mapping : PropertyMappingV2) : option Widget :=
  if negb (truthyO (widgetProperty mapping))
     || negb (truthyO (widgetValue mapping))
  then None
  else if bool_decide (widgetProperty mapping = Some "buttonStyle")
          && isActionButton widget
  then match buttonStyleMap (jsShow (widgetValue mapping)) with
       | Some newStyle => Some (setButtonStyle newStyle widget)
       | None =>
           if bool_decide (jsShow (widgetValue mapping) ∈ protoMembers)
              && accepts widget "buttonStyle"
                   (AInherited (jsShow (widgetValue mapping)))
           then Some (setButtonStyle
                        (BSInherited (jsShow (widgetValue mapping))) widget)
           else None
       end
  else if accepts widget (jsShow (widgetProperty mapping))
                  (AString (jsShow (widgetValue mapping)))
  then Some (setAttr (jsShow (widgetProperty mapping))
                     (jsShow (widgetValue mapping)) widget)
  else None.

(** [allPropsToRemove]: the removals, then every spacing source that is
    not yet included. *)
Definition allPropsToRemove (st : Analysis) : list nat :=
  foldl (fun acc item =>
           if bool_decide (fst (si_prop item) ∈ acc) then acc
           else acc ++ [fst (si_prop item)])
        (map fst (toRemove st)) (spacingPropertiesToMap st).

Definition execModify (st : Analysis) (r : WidgetRun) : WidgetRun :=
  {| run_objs := foldl (fun objs it => applyMapping objs (fst it) (snd it))
                       (run_objs r) (toModify st);
     run_refs := run_refs r; run_widget := run_widget r;
     run_result := run_result r; run_csv := run_csv r;
     run_log := run_log r |}.

Definition execRemove (st : Analysis) (r : WidgetRun) : WidgetRun :=
  {| run_objs := run_objs r;
     run_refs := foldl (fun refs i => listRemove i refs)
                       (run_refs r) (allPropsToRemove st);
     run_widget := run_widget r; run_result := run_result r;
     run_csv := run_csv r; run_log := run_log r |}.

(** One iteration of the last loop: on success the attribute is set and
    the design property removed; an exception leaves both as they are. *)
Definition execSetWidgetProp (r : WidgetRun)
    (it : PropRef * PropertyMappingV2) : WidgetRun :=
  match applyWidgetPropertyMapping (run_widget r) (snd it) with
  | Some w =>
      {| run_objs := run_objs r;
         run_refs := listRemove (fst (fst it)) (run_refs r);
         run_widget := w; run_result := run_result r;
         run_csv := run_csv r; run_log := run_log r |}
  | None => r
  end.

(** The property list as the widget finally carries it. *)
Definition derefs (objs : list DesignPropertyValue) (refs : list nat)
  : list DesignPropertyValue := omap (fun i => objs !! i) refs.

Definition widgetCtx (widget : Widget) (docName moduleName : string)
  : WidgetCtx :=
  {| widgetName := orElse (attrs widget !! "name") "Unnamed";
     widgetType := getWidgetTypeName widget;
     docName := docName; moduleName := moduleName |}.

(** The widget is processed when it has design properties and its type is
    a target type. *)
Definition processed (widget : Widget) : bool :=
  negb (bool_decide (designProperties widget = []))
  && bool_decide (getWidgetTypeName widget ∈ TARGET_ELEMENT_TYPES).

(** The first pass of [processWidget] on a widget. *)
Definition analyseWidget (C : Catalog) (widget : Widget)
    (docName moduleName : string) (csv : list CsvDataRow) : Analysis :=
  analyse C (widgetCtx widget docName moduleName) csv
          (withRefs (designProperties widget)).

(** [processWidget], with its whole final state. *)
Definition processWidgetRun (C : Catalog) (widget : Widget)
    (docName docType moduleName : string) (csv : list CsvDataRow)
  : WidgetRun :=
  let ps := designProperties widget in
  if negb (processed widget)
  then {| run_objs := ps; run_refs := seq 0 (length ps);
          run_widget := widget; run_result := zeroResult;
          run_csv := csv; run_log := [] |}
  else
    let cx := widgetCtx widget docName moduleName in
    let st := analyseWidget C widget docName moduleName csv in
    let r := aggregateSpacing cx widget st in
    let r := execModify st r in
    let r := execRemove st r in
    foldl execSetWidgetProp r (toSetWidgetProp st).

(** The widget after the run. *)
Definition finalWidget (r : WidgetRun) : Widget :=
  setDesignProperties (derefs (run_objs r) (run_refs r)) (run_widget r).

(** [processWidget]: the mutated widget, the extended [csvData] and the
    returned counters. *)
Definition processWidget (C : Catalog) (widget : Widget)
    (docName docType moduleName : string) (csv : list CsvDataRow)
  : Widget * list CsvDataRow * ProcessingResult :=
  let r := processWidgetRun C widget docName docType moduleName csv in
  (finalWidget r, run_csv r, run_result r).

(* ===================================================================== *)
(** ** Document processing *)
(* ===================================================================== *)

(** ASCII part of [toLowerCase]. *)
Definition lowerChar (c : ascii) : ascii :=
  let n := nat_of_ascii c in
  if (65 <=? n)%nat && (n <=? 90)%nat then ascii_of_nat (n + 32) else c.

Fixpoint toLowerCase (s : string) : string :=
  match s with
  | EmptyString => EmptyString
  | String c rest => String (lowerChar c) (toLowerCase rest)
  end.

(** [s.startsWith(p)] and [s.includes(needle)] *)
Definition startsWith (s p : string) : bool := String.prefix p s.

Fixpoint includes (s needle : string) : bool :=
  String.prefix needle s
  || match s with
     | EmptyString => false
     | String _ rest => includes rest needle
     end.

(** A unit of the model: the document information ([qualifiedName],
    [name], whether [load()] succeeds) and the loaded document.
    [isPage] is [document instanceof pages.Page]; [layoutName] is
    [page.layoutCall?.layout?.qualifiedName]; [pageDesignProperties] is
    [page.appearance?.designProperties]; [docWidgets] are the widgets that
    [document.traverse] visits, in visiting order. *)
Record Document := {
  qualifiedName : option string;
  docInfoName : option string;
  loadable : bool;
  isPage : bool;
  layoutName : option string;
  pageDesignProperties : list DesignPropertyValue;
  docWidgets : list Widget
}.

Inductive DocType := TPage | TSnippet | TLayout.

Definition typeNameOf (t : DocType) : string :=
  match t with TPage => "Page" | TSnippet => "Snippet" | TLayout => "Layout" end.

Definition pagePropRow (docName moduleName : string)
    (prop : DesignPropertyValue) : CsvDataRow :=
  {| csv_element := docName; csv_elementType := "Page";
     csv_document := docName; csv_module := moduleName;
     csv_property := orElse (Some (key prop)) "Unknown";
     csv_value := extractPropertyValue prop; csv_action := Removed;
     csv_mappedProperty := None; csv_mappedValue := None;
     csv_reason :=
       Some "Pages do not support design properties in Web profile" |}.

(** The callback of [document.traverse] on one widget. *)
Definition visitWidget (C : Catalog) (docName : string) (typeName : DocType)
    (moduleName : string)
    (acc : list Widget * list CsvDataRow * ProcessingResult) (w : Widget)
  : list Widget * list CsvDataRow * ProcessingResult :=
  let '(done, csv, result) := acc in
  let '(w', csv', widgetResult) :=
    processWidget C w docName (typeNameOf typeName) moduleName csv in
  (done ++ [w'], csv',
   if (0 <? props widgetResult)%nat
   then addSkipped (skipped widgetResult)
          (addRemoved (removed widgetResult)
             (addMapped (mapped widgetResult)
                (addProps (props widgetResult) (addWidgets 1 result))))
   else result).

Definition setDocContent (pageProps : list DesignPropertyValue)
    (ws : list Widget) (d : Document) : Document :=
  {| qualifiedName := qualifiedName d; docInfoName := docInfoName d;
     loadable := loadable d; isPage := isPage d; layoutName := layoutName d;
     pageDesignProperties := pageProps; docWidgets := ws |}.

(** Body of the loop of [processDocumentCollection] for one document. *)
Definition processDocument (C : Catalog) (typeName : DocType)
    (moduleName : string) (d : Document) (csv : list CsvDataRow)
    (result : ProcessingResult)
  : Document * list CsvDataRow * ProcessingResult :=
  if negb (loadable d) then (d, csv, result)
  else
    let docName :=
      orElse (qualifiedName d) (orElse (docInfoName d) "Unknown") in
    let isPageDoc :=
      match typeName with TPage => isPage d | _ => false end in
    if isPageDoc
       && includes (toLowerCase (orElse (layoutName d) "")) "native"
    then (d, csv, addSkippedNativeLayouts 1 result)
    else
      let propsToRemove :=
        if isPageDoc then pageDesignProperties d else [] in
      let csv1 := csv ++ map (pagePropRow docName moduleName) propsToRemove in
      let result1 :=
        addRemoved (length propsToRemove)
          (addProps (length propsToRemove) result) in
      let pageProps :=
        if isPageDoc then [] else pageDesignProperties d in
      let '(ws, csv2, result2) :=
        foldl (visitWidget C docName typeName moduleName)
              ([], csv1, result1) (docWidgets d) in
      (setDocContent pageProps ws d, csv2, result2).

(** [processDocumentCollection] on the documents of the store that the
    caller's filter [sel] selects; the others are not touched. *)
Definition processDocumentCollection (C : Catalog) (sel : Document -> bool)
    (store : list Document) (typeName : DocType) (moduleName : string)
    (csvData : list CsvDataRow)
  : list Document * list CsvDataRow * ProcessingResult :=
  foldl (fun acc d =>
           let '(done, csv, result) := acc in
           if sel d
           then let '(d', csv', result') :=
                  processDocument C typeName moduleName d csv result in
                (done ++ [d'], csv', result')
           else (done ++ [d], csv, result))
        ([], csvData, zeroResult) store.

(* ===================================================================== *)
(** ** Main execution flow *)
(* ===================================================================== *)

Record Model := {
  allModules : list string;
  allPages : list Document;
  allSnippets : list Document;
  allLayouts : list Document
}.

(** [(p) => p.qualifiedName?.startsWith(module.name) ?? false] *)
Definition inModule (moduleName : string) (d : Document) : bool :=
  match qualifiedName d with
  | Some q => startsWith q moduleName
  | None => false
  end.

(** State of the analysis loop of [main]: the working-copy model, the
    audit rows and the totals. *)
Record RunState := {
  rs_model : Model;
  rs_csv : list CsvDataRow;
  rs_totals : ProcessingResult
}.

(** Body of [for (const module of allModules)]. *)
Definition processModule (C : Catalog) (rs : RunState) (moduleName : string)
  : RunState :=
  if bool_decide (moduleName = "System") then rs
  else
    let m := rs_model rs in
    let '(pages', csv1, pagesResult) :=
      processDocumentCollection C (inModule moduleName) (allPages m)
                                TPage moduleName (rs_csv rs) in
    let '(snippets', csv2, snippetsResult) :=
      processDocumentCollection C (inModule moduleName) (allSnippets m)
                                TSnippet moduleName csv1 in
    let '(layouts', csv3, layoutsResult) :=
      processDocumentCollection C (inModule moduleName) (allLayouts m)
                                TLayout moduleName csv2 in
    let t := rs_totals rs in
    {| rs_model := {| allModules := allModules m; allPages := pages';
                      allSnippets := snippets'; allLayouts := layouts' |};
       rs_csv := csv3;
       rs_totals :=
         {| widgets := widgets t + (widgets pagesResult
                         + widgets snippetsResult + widgets layoutsResult);
            props := props t + (props pagesResult
                         + props snippetsResult + props layoutsResult);
            mapped := mapped t + (mapped pagesResult
                         + mapped snippetsResult + mapped layoutsResult);
            removed := removed t + (removed pagesResult
                         + removed snippetsResult + removed layoutsResult);
            widgetPropsMapped := widgetPropsMapped t
                         + (widgetPropsMapped pagesResult
                            + widgetPropsMapped snippetsResult
                            + widgetPropsMapped layoutsResult);
            skipped := skipped t + (skipped pagesResult
                         + skipped snippetsResult + skipped layoutsResult);
            skippedNativeLayouts :=
              skippedNativeLayouts t + skippedNativeLayouts pagesResult |} |}.

(** Everything [main] does on the model before it looks at the totals. *)
Definition analyseModel (C : Catalog) (model : Model) : RunState :=
  foldl (processModule C)
        {| rs_model := model; rs_csv := []; rs_totals := zeroResult |}
        (allModules model).

Definition totalModified (t : ProcessingResult) : nat :=
  mapped t + removed t + widgetPropsMapped t.

(** Calls received by the persistence backend. *)
Inductive BackendCall :=
| FlushChanges
| CommitToRepository (branch : string)
    (totalModified mapped widgetPropsMapped removed : nat).

(** What a run of [main] leaves behind: the in-memory working copy, the
    audit rows handed to the report writer ([None]: no report written),
    the totals, whether the operator was asked, and the backend calls. *)
Record Outcome := {
  out_model : Model;
  out_report : option (list CsvDataRow);
  out_totals : ProcessingResult;
  out_asked : bool;
  out_backend : list BackendCall
}.

Definition untouched (model : Model) : Outcome :=
  {| out_model := model; out_report := None; out_totals := zeroResult;
     out_asked := false; out_backend := [] |}.

(** [main].  [file] is the content of [property-mappings.json] ([None]
    when missing or unparsable), [token] and [appId] the environment
    configuration, [answer] the operator's reply to the confirmation
    prompt (used only if the prompt is reached). *)
Definition main (file : option (list PropertyMappingV2))
    (token appId branch : string) (answer : bool) (model : Model) : Outcome :=
  match loadMappings file with
  | None => untouched model
  | Some C =>
      if negb (truthy token) || negb (truthy appId) then untouched model
      else
        let rs := analyseModel C model in
        let totals := rs_totals rs in
        let report :=
          if (0 <? length (rs_csv rs))%nat then Some (rs_csv rs) else None in
        if (0 <? totalModified totals)%nat then
          {| out_model := rs_model rs; out_report := report;
             out_totals := totals; out_asked := true;
             out_backend :=
               if answer
               then [FlushChanges;
                     CommitToRepository branch (totalModified totals)
                       (mapped totals) (widgetPropsMapped totals)
                       (removed totals)]
               else [] |}
        else
          {| out_model := rs_model rs; out_report := report;
             out_totals := totals; out_asked := false; out_backend := [] |}
  end.

(* ===================================================================== *)
(** ** Report writer *)
(* ===================================================================== *)

(** The part of the summary sheet of [writeExcelReport] that is computed
    from the audit rows: ['Total Properties'] and the rows per action
    (['Mapped'], ['Removed'], ['Skipped']), as numbers.  The timestamp and
    the file name depend on the clock and are left out. *)
Definition countAction (a : CsvAction) (csvData : list CsvDataRow) : nat :=
  length (filter (fun r => csv_action r = a) csvData).

Record ReportSummary := {
  sum_total : nat;
  sum_mapped : nat;
  sum_removed : nat;
  sum_skipped : nat
}.

Definition summaryData (csvData : list CsvDataRow) : ReportSummary :=
  {| sum_total := length csvData;
     sum_mapped := countAction Mapped csvData;
     sum_removed := countAction Removed csvData;
     sum_skipped := countAction Skipped csvData |}.

(* ===================================================================== *)
(** * Vocabulary of the properties *)
(* ===================================================================== *)

(** ** Rule resolution, stated as a relation

    The lookup order in the words of the design: (1) the rule indexed
    under the exact key, (2) else the rule indexed under the wildcard key,
    (3) else none. *)
Inductive Resolves (C : Catalog) (p v t : string)
  : option PropertyMappingV2 -> Prop :=
| ResolvesExact m :
    MAPPINGS_LOOKUP C !! lookupKey p v t = Some m ->
    Resolves C p v t (Some m)
| ResolvesWildcard m :
    MAPPINGS_LOOKUP C !! lookupKey p v t = None ->
    MAPPINGS_LOOKUP C !! lookupKey p v "*" = Some m ->
    Resolves C p v t (Some m)
| ResolvesNone :
    MAPPINGS_LOOKUP C !! lookupKey p v t = None ->
    MAPPINGS_LOOKUP C !! lookupKey p v "*" = None ->
    Resolves C p v t None.

(** A property that reaches the lookup: named, with a rule for its name,
    with a non-empty value. *)
Definition reachesLookup (C : Catalog) (p : DesignPropertyValue) : bool :=
  truthy (key p) && bool_decide (key p ∈ MAPPED_PROPERTY_NAMES C)
  && truthy (extractPropertyValue p).

(** The rule that resolves for a property of the widget. *)
Definition resolved (C : Catalog) (cx : WidgetCtx) (r : PropRef)
  : option PropertyMappingV2 :=
  findMapping C (key (snd r)) (extractPropertyValue (snd r)) (widgetType cx).

(** The string has no ["|"]. *)
Fixpoint barFree (s : string) : bool :=
  match s with
  | EmptyString => true
  | String c rest => negb (Ascii.eqb c "|"%char) && barFree rest
  end.

(** ** Slots of the box model *)

(** The four sides and the key of the compound entry of a slot. *)
Definition sides : list string := ["top"; "right"; "bottom"; "left"].

Definition slotKey (k : SpacingKind) (d : string) : string :=
  kindName k +:+ "-" +:+ d.

(** The value of a slot. *)
Definition slot (k : SpacingKind) (d : string) (st : SpacingState)
  : option string := layer k st !! d.

(** The contribution writes to slot [(k, d)]. *)
Definition targets (k : SpacingKind) (d : string) (item : SpacingItem)
  : Prop := si_spacingType item = k /\ itemDir item = d.

#[global] Instance targets_dec k d item : Decision (targets k d item).
Proof. unfold targets. apply _. Defined.

(** All four sides of both layers hold a value. *)
Definition sidesPresent (st : SpacingState) : Prop :=
  forall k d, d ∈ sides -> is_Some (slot k d st).

(** The line mentions a previous value. *)
Definition logsPrevious (line : string) : bool := includes line "(was: ".

(** ** The analysis pass *)

(** Every reference that the analysis has put in one of its queues. *)
Definition queuedRefs (st : Analysis) : list PropRef :=
  map fst (toModify st) ++ toRemove st
  ++ map si_prop (spacingPropertiesToMap st)
  ++ map fst (toSetWidgetProp st).

(** The property resolves to a non-spacing "map" rule whose destination
    property name is [t]. *)
Definition claimsTarget (C : Catalog) (cx : WidgetCtx) (t : string)
    (r : PropRef) : Prop :=
  reachesLookup C (snd r) = true
  /\ exists m, resolved C cx r = Some m /\ action m = ActMap
               /\ isSpacingMapping m = false
               /\ orElse (mappedProperty m) "" = t.

#[global] Instance claimsTarget_dec C cx t r : Decision (claimsTarget C cx t r).
Proof.
  unfold claimsTarget. destruct (resolved C cx r) as [m|].
  - destruct (decide (reachesLookup C (snd r) = true
                      /\ action m = ActMap /\ isSpacingMapping m = false
                      /\ orElse (mappedProperty m) "" = t)) as [H|H].
    + left. destruct H as (? & ? & ? & ?). split; [done|]. by exists m.
    + right. intros (? & m' & [= <-] & ? & ? & ?). by apply H.
  - right. intros (_ & m' & [=] & _).
Defined.

(** The property resolves to a spacing rule. *)
Definition isContribution (C : Catalog) (cx : WidgetCtx) (r : PropRef)
  : Prop :=
  reachesLookup C (snd r) = true
  /\ exists m, resolved C cx r = Some m /\ action m = ActMap
               /\ isSpacingMapping m = true.

#[global] Instance isContribution_dec C cx r : Decision (isContribution C cx r).
Proof.
  unfold isContribution. destruct (resolved C cx r) as [m|].
  - destruct (decide (reachesLookup C (snd r) = true
                      /\ action m = ActMap /\ isSpacingMapping m = true))
      as [H|H].
    + left. destruct H as (? & ? & ?). split; [done|]. by exists m.
    + right. intros (? & m' & [= <-] & ? & ?). by apply H.
  - right. intros (_ & m' & [=] & _).
Defined.

(** The analysis state after the first [i] properties of the widget. *)
Definition analyseUpTo (C : Catalog) (w : Widget) (dn mn : string)
    (csv : list CsvDataRow) (i : nat) : Analysis :=
  analyse C (widgetCtx w dn mn) csv (take i (withRefs (designProperties w))).

(** The seven outcomes of one iteration. *)
Inductive StepCase (C : Catalog) (cx : WidgetCtx) (st : Analysis)
    (r : PropRef) : Analysis -> Prop :=
| StepIgnored :
    reachesLookup C (snd r) = false -> StepCase C cx st r st
| StepSkip :
    reachesLookup C (snd r) = true -> resolved C cx r = None ->
    StepCase C cx st r
      (doSkip (countProp st) (key (snd r)) (extractPropertyValue (snd r)))
| StepRemove m :
    reachesLookup C (snd r) = true -> resolved C cx r = Some m ->
    action m = ActRemove ->
    StepCase C cx st r
      (doRemove cx (countProp st) r (key (snd r))
                (extractPropertyValue (snd r)) m)
| StepSpacing m :
    reachesLookup C (snd r) = true -> resolved C cx r = Some m ->
    action m = ActMap -> isSpacingMapping m = true ->
    StepCase C cx st r (doCollectSpacing (countProp st) r m)
| StepCollision m :
    reachesLookup C (snd r) = true -> resolved C cx r = Some m ->
    action m = ActMap -> isSpacingMapping m = false ->
    truthy (orElse (mappedProperty m) "") = true ->
    orElse (mappedProperty m) "" ∈ mappedTargetProperties st ->
    StepCase C cx st r
      (doCollision cx (countProp st) r (key (snd r))
                   (extractPropertyValue (snd r))
                   (orElse (mappedProperty m) ""))
| StepMap m :
    reachesLookup C (snd r) = true -> resolved C cx r = Some m ->
    action m = ActMap -> isSpacingMapping m = false ->
    (truthy (orElse (mappedProperty m) "") = true ->
     orElse (mappedProperty m) "" ∉ mappedTargetProperties st) ->
    StepCase C cx st r
      (doMap cx (countProp st) r (key (snd r))
             (extractPropertyValue (snd r))
             (orElse (mappedProperty m) "") m)
| StepWidgetProp m :
    reachesLookup C (snd r) = true -> resolved C cx r = Some m ->
    action m = ActMapToWidgetProperty ->
    StepCase C cx st r
      (doWidgetProp cx (countProp st) r (key (snd r))
                    (extractPropertyValue (snd r)) m).

(** The design properties of the widgets of the pages of a model. *)
Definition pageWidgetProps (m : Model) : list (list DesignPropertyValue) :=
  flat_map (fun d => map designProperties (docWidgets d)) (allPages m).

(* ===================================================================== *)
(** * Sample data *)
(* ===================================================================== *)

(** Rules: native margins and paddings that go to the compound
    "Spacing" property (one of them without a value), two native
    properties that both become "Align content", an earlier and a later
    entry for one key, and two removals. *)
Definition ruleMarginTop : PropertyMappingV2 :=
  {| property := "Margin top"; value := "Small"; elementTypes := ["*"];
     action := ActMap; mappedProperty := Some "Spacing";
     mappedValue := Some "S"; mappedDirection := Some "top";
     mappedType := Some "margin"; widgetProperty := None;
     widgetValue := None; _reason := None; _comment := None |}.

Definition ruleMarginVertical : PropertyMappingV2 :=
  {| property := "Margin vertical"; value := "Small"; elementTypes := ["*"];
     action := ActMap; mappedProperty := Some "Spacing";
     mappedValue := Some "S"; mappedDirection := Some "top";
     mappedType := Some "margin"; widgetProperty := None;
     widgetValue := None; _reason := None; _comment := None |}.

Definition rulePaddingLeft : PropertyMappingV2 :=
  {| property := "Padding left"; value := "Large"; elementTypes := ["*"];
     action := ActMap; mappedProperty := Some "Spacing";
     mappedValue := Some "L"; mappedDirection := Some "left";
     mappedType := Some "padding"; widgetProperty := None;
     widgetValue := None; _reason := None; _comment := None |}.

Definition ruleMarginReset : PropertyMappingV2 :=
  {| property := "Margin top"; value := "Reset"; elementTypes := ["*"];
     action := ActMap; mappedProperty := Some "Spacing";
     mappedValue := None; mappedDirection := Some "top";
     mappedType := Some "margin"; widgetProperty := None;
     widgetValue := None; _reason := None; _comment := None |}.

Definition ruleJustify : PropertyMappingV2 :=
  {| property := "Justify content"; value := "Center";
     elementTypes := ["DivContainer"]; action := ActMap;
     mappedProperty := Some "Align content"; mappedValue := Some "Center";
     mappedDirection := None; mappedType := None; widgetProperty := None;
     widgetValue := None; _reason := None; _comment := None |}.

Definition ruleJustifyLate : PropertyMappingV2 :=
  {| property := "Justify content"; value := "Center";
     elementTypes := ["DivContainer"]; action := ActMap;
     mappedProperty := Some "Align content"; mappedValue := Some "Middle";
     mappedDirection := None; mappedType := None; widgetProperty := None;
     widgetValue := None; _reason := None; _comment := None |}.

Definition ruleHorizontal : PropertyMappingV2 :=
  {| property := "Render children horizontal"; value := "true";
     elementTypes := ["*"]; action := ActMap;
     mappedProperty := Some "Align content"; mappedValue := Some "Row";
     mappedDirection := None; mappedType := None; widgetProperty := None;
     widgetValue := None; _reason := None; _comment := None |}.

Definition ruleShadow : PropertyMappingV2 :=
  {| property := "Shadow"; value := "On"; elementTypes := ["*"];
     action := ActRemove; mappedProperty := None; mappedValue := None;
     mappedDirection := None; mappedType := None; widgetProperty := None;
     widgetValue := None; _reason := None; _comment := None |}.

Definition ruleSpacingLegacy : PropertyMappingV2 :=
  {| property := "Spacing"; value := "Legacy"; elementTypes := ["*"];
     action := ActRemove; mappedProperty := None; mappedValue := None;
     mappedDirection := None; mappedType := None; widgetProperty := None;
     widgetValue := None; _reason := None; _comment := None |}.



Definition sampleRules : list PropertyMappingV2 :=
  [ruleMarginTop; ruleMarginVertical; ruleSpacingLegacy; ruleJustify;
   ruleHorizontal; ruleShadow].

Definition sampleCatalog : Catalog := buildCatalog sampleRules.

(** Contributions as the analysis queues them, and an existing
    "Spacing" property with a small top margin. *)
Definition contribMarginTop : SpacingItem :=
  {| si_prop := (0, {| key := "Margin top"; pvalue := VOption "Small" |});
     si_mapping := ruleMarginTop; si_direction := "top";
     si_spacingType := KMargin |}.

Definition contribMarginVertical : SpacingItem :=
  {| si_prop := (1, {| key := "Margin vertical"; pvalue := VOption "Small" |});
     si_mapping := ruleMarginVertical; si_direction := "top";
     si_spacingType := KMargin |}.

Definition contribPaddingLeft : SpacingItem :=
  {| si_prop := (1, {| key := "Padding left"; pvalue := VOption "Large" |});
     si_mapping := rulePaddingLeft; si_direction := "left";
     si_spacingType := KPadding |}.

Definition contribMarginReset : SpacingItem :=
  {| si_prop := (0, {| key := "Margin top"; pvalue := VOption "Reset" |});
     si_mapping := ruleMarginReset; si_direction := "top";
     si_spacingType := KMargin |}.

Definition existingMarginTop : DesignPropertyValue :=
  {| key := "Spacing";
     pvalue := VCompound [("margin-top", VOption "Small")] |}.

(** Widgets.  Of the attributes of the sample widgets only the name, a
    string attribute, takes a string; the others are typed. *)
Definition onlyName (k : string) (v : Assigned) : bool :=
  match v with
  | AString _ => bool_decide (k = "name")
  | AInherited _ => false
  end.

Definition divContainer (ps : list DesignPropertyValue) : Widget :=
  {| attrs := <["structureTypeName" := "Pages$DivContainer"]>
                (<["name" := "container1"]> ∅);
     constructorName := "DivContainer"; isActionButton := false;
     buttonStyle := BSDefault; designProperties := ps;
     accepts := onlyName |}.

(** A container whose [Spacing] property has an empty option value, next
    to a native top margin. *)
Definition widgetEmptySpacing : Widget :=
  divContainer [ {| key := "Spacing"; pvalue := VOption "" |};
                 {| key := "Margin top"; pvalue := VOption "Small" |} ].

(** A container with an existing compound [Spacing], a native top margin
    and a property that no rule mentions. *)
Definition widgetUnknownProp : Widget :=
  divContainer
    [ {| key := "Spacing";
         pvalue := VCompound [("padding-left", VOption "Large")] |};
      {| key := "Margin top"; pvalue := VOption "Small" |};
      {| key := "Other"; pvalue := VOption "On" |} ].

(** A container with two properties that both map to "Align content". *)
Definition widgetTwoAlign : Widget :=
  divContainer [ {| key := "Render children horizontal"; pvalue := VToggle |};
                 {| key := "Justify content"; pvalue := VOption "Center" |} ].

(** A container with an existing compound [Spacing] and a native margin. *)
Definition widgetSpacing : Widget :=
  divContainer
    [ {| key := "Spacing";
         pvalue := VCompound [("padding-left", VOption "Large")] |};
      {| key := "Margin top"; pvalue := VOption "Small" |};
      {| key := "Shadow"; pvalue := VOption "On" |} ].

(** A container with an existing [Spacing] that sets the top margin, and
    a native left padding; the rules that cover it. *)
Definition widgetMarginPadding : Widget :=
  divContainer [ existingMarginTop;
                 {| key := "Padding left"; pvalue := VOption "Large" |} ].

Definition paddingCatalog : Catalog := buildCatalog [rulePaddingLeft].

(** A container with two native properties for the top margin. *)
Definition widgetTwoMargins : Widget :=
  divContainer [ {| key := "Margin top"; pvalue := VOption "Small" |};
                 {| key := "Margin vertical"; pvalue := VOption "Small" |} ].

(** A model with one module and one page that holds [widgetTwoAlign]. *)
Definition samplePage : Document :=
  {| qualifiedName := Some "App.Home"; docInfoName := Some "Home";
     loadable := true; isPage := true; layoutName := Some "Atlas.Default";
     pageDesignProperties := []; docWidgets := [widgetTwoAlign] |}.

Definition sampleModel : Model :=
  {| allModules := ["App"]; allPages := [samplePage];
     allSnippets := []; allLayouts := [] |}.

(** A list view with the property of [ruleJustify], which names
    [DivContainer] only. *)
Definition listViewJustify : Widget :=
  {| attrs := <["structureTypeName" := "Pages$ListView"]>
                (<["name" := "listView1"]> ∅);
     constructorName := "ListView"; isActionButton := false;
     buttonStyle := BSDefault;
     designProperties :=
       [ {| key := "Justify content"; pvalue := VOption "Center" |} ];
     accepts := onlyName |}.

(* ===================================================================== *)
(** * Further vocabulary *)
(* ===================================================================== *)

(** ** The rule catalog *)

(** One of the element types of the entry produces the key. *)
Definition listsKey (k : string) (m : PropertyMappingV2) : Prop :=
  k ∈ map (lookupKey (property m) (value m)) (elementTypes m).

#[global] Instance listsKey_dec k m : Decision (listsKey k m).
Proof. unfold listsKey. apply _. Defined.

#[global] Typeclasses Opaque listsKey.

(** ** The compound spacing value *)

(** The value that [parseSpacingState] reads from an entry of a compound:
    none for an empty option and for a value that is not an option. *)
Definition entryValue (e : string * PropValue) : option string :=
  match snd e with
  | VOption v => if truthy v then Some v else None
  | _ => None
  end.

(** The entry is read into slot [(k, d)]. *)
Definition readsSlot (k : SpacingKind) (d : string)
    (e : string * PropValue) : Prop :=
  fst e = slotKey k d /\ is_Some (entryValue e).

#[global] Instance readsSlot_dec k d e : Decision (readsSlot k d e).
Proof. unfold readsSlot. apply _. Defined.

#[global] Typeclasses Opaque readsSlot.

(** ** Element types and documents *)

(** The string has no ["$"]. *)
Fixpoint dollarFree (s : string) : bool :=
  match s with
  | EmptyString => true
  | String c rest => negb (Ascii.eqb c "$"%char) && dollarFree rest
  end.

(** [typeName === "Page" && document instanceof pages.Page], and the test
    for a page on a native layout. *)
Definition isPageDoc (typeName : DocType) (d : Document) : bool :=
  match typeName with TPage => isPage d | _ => false end.

Definition nativePage (typeName : DocType) (d : Document) : bool :=
  isPageDoc typeName d
  && includes (toLowerCase (orElse (layoutName d) "")) "native".

(** [docInfo.qualifiedName || docInfo.name || 'Unknown'] *)
Definition docNameOf (d : Document) : string :=
  orElse (qualifiedName d) (orElse (docInfoName d) "Unknown").

(** The counters [r] and the audit rows [csv] have moved together from
    [r0] and [csv0]: rows were only appended, the "mapped" and "removed"
    counters grew by the number of new rows of their action, no "skipped"
    row was added, the property counter grew by the other counters and
    the new "widgetPropertySet" rows, and the widget-property counter
    stood still. *)
Definition accounted (csv0 csv : list CsvDataRow)
    (r0 r : ProcessingResult) : Prop :=
  csv0 `prefix_of` csv
  /\ countAction Mapped csv + mapped r0 = countAction Mapped csv0 + mapped r
  /\ countAction Removed csv + removed r0
     = countAction Removed csv0 + removed r
  /\ countAction Skipped csv = countAction Skipped csv0
  /\ props r + mapped r0 + removed r0 + skipped r0
       + countAction WidgetPropertySet csv0
     = props r0 + mapped r + removed r + skipped r
       + countAction WidgetPropertySet csv
  /\ widgetPropsMapped r = widgetPropsMapped r0.

(** The widget is processed and one of its properties reaches the rule
    lookup. *)
Definition hasCoveredProperty (C : Catalog) (w : Widget) : Prop :=
  processed w = true
  /\ Exists (fun p => reachesLookup C p = true) (designProperties w).

#[global] Instance hasCoveredProperty_dec C w :
  Decision (hasCoveredProperty C w).
Proof. unfold hasCoveredProperty. apply _. Defined.

#[global] Typeclasses Opaque hasCoveredProperty.

(** The object that [applyMapping] leaves for a rule that carries a
    destination name and value. *)
Definition rewritten (m : PropertyMappingV2) : DesignPropertyValue :=
  {| key := jsShow (mappedProperty m);
     pvalue := VOption (jsShow (mappedValue m)) |}.

(* ===================================================================== *)
(** * Further sample data *)
(* ===================================================================== *)

(** Rules that set a widget attribute: a button style that the button
    style table knows, and one that it does not know. *)
Definition ruleButtonPrimary : PropertyMappingV2 :=
  {| property := "Button style"; value := "Primary";
     elementTypes := ["ActionButton"]; action := ActMapToWidgetProperty;
     mappedProperty := None; mappedValue := None; mappedDirection := None;
     mappedType := None; widgetProperty := Some "buttonStyle";
     widgetValue := Some "Primary"; _reason := None; _comment := None |}.

Definition ruleButtonFancy : PropertyMappingV2 :=
  {| property := "Button style"; value := "Fancy";
     elementTypes := ["ActionButton"]; action := ActMapToWidgetProperty;
     mappedProperty := None; mappedValue := None; mappedDirection := None;
     mappedType := None; widgetProperty := Some "buttonStyle";
     widgetValue := Some "Fancy"; _reason := None; _comment := None |}.

Definition buttonRules : list PropertyMappingV2 :=
  sampleRules ++ [ruleButtonPrimary; ruleButtonFancy].

Definition buttonCatalog : Catalog := buildCatalog buttonRules.

Definition actionButton (ps : list DesignPropertyValue) : Widget :=
  {| attrs := <["structureTypeName" := "Pages$ActionButton"]>
                (<["name" := "button1"]> ∅);
     constructorName := "ActionButton"; isActionButton := true;
     buttonStyle := BSDefault; designProperties := ps;
     accepts := onlyName |}.

Definition widgetPrimaryButton : Widget :=
  actionButton [ {| key := "Button style"; pvalue := VOption "Primary" |} ].

Definition widgetFancyButton : Widget :=
  actionButton [ {| key := "Button style"; pvalue := VOption "Fancy" |} ].

(** A rule that sets the render mode of a text, a typed attribute, and a
    text widget with the property of that rule. *)
Definition ruleHeading : PropertyMappingV2 :=
  {| property := "Text style"; value := "Heading 1";
     elementTypes := ["DynamicText"; "Text"];
     action := ActMapToWidgetProperty;
     mappedProperty := None; mappedValue := None; mappedDirection := None;
     mappedType := None; widgetProperty := Some "renderMode";
     widgetValue := Some "H1"; _reason := None; _comment := None |}.

Definition headingCatalog : Catalog := buildCatalog [ruleHeading].

Definition widgetHeading : Widget :=
  {| attrs := <["structureTypeName" := "Pages$DynamicText"]>
                (<["name" := "text1"]> ∅);
     constructorName := "DynamicText"; isActionButton := false;
     buttonStyle := BSDefault;
     designProperties :=
       [ {| key := "Text style"; pvalue := VOption "Heading 1" |} ];
     accepts := onlyName |}.

(** A pluggable widget whose structure type name has no ["$"]. *)
Definition widgetBadge : Widget :=
  {| attrs := <["structureTypeName" := "com.mendix.widget.native.badge.Badge"]>
                (<["name" := "badge1"]> ∅);
     constructorName := "CustomWidget"; isActionButton := false;
     buttonStyle := BSDefault; designProperties := [];
     accepts := onlyName |}.

(** A page of module "AppStore" in a model whose modules are "App" and
    "AppStore". *)
Definition storePage : Document :=
  {| qualifiedName := Some "AppStore.Home"; docInfoName := Some "Home";
     loadable := true; isPage := true; layoutName := Some "Atlas.Default";
     pageDesignProperties :=
       [ {| key := "Background"; pvalue := VOption "Dark" |} ];
     docWidgets := [] |}.

Definition storeModel : Model :=
  {| allModules := ["App"; "AppStore"]; allPages := [storePage];
     allSnippets := []; allLayouts := [] |}.

(** A model whose only rule-covered property sets a widget attribute. *)
Definition buttonPage : Document :=
  {| qualifiedName := Some "App.Home"; docInfoName := Some "Home";
     loadable := true; isPage := true; layoutName := Some "Atlas.Default";
     pageDesignProperties := []; docWidgets := [widgetPrimaryButton] |}.

Definition buttonModel : Model :=
  {| allModules := ["App"]; allPages := [buttonPage];
     allSnippets := []; allLayouts := [] |}.

(** A page on a native layout. *)
Definition nativeHome : Document :=
  {| qualifiedName := Some "App.NativeHome"; docInfoName := Some "NativeHome";
     loadable := true; isPage := true;
     layoutName := Some "NativeNavigation.Phone_Default";
     pageDesignProperties :=
       [ {| key := "Background"; pvalue := VOption "Dark" |} ];
     docWidgets := [widgetTwoAlign] |}.

(* ===================================================================== *)
(** * Properties *)
(* ===================================================================== *)

(** ** Rule resolution *)

Lemma analyseProp_reaches C cx st prop :
  reachesLookup C (snd prop) = true ->
  analyseProp C cx st prop =
    match findMapping C (key (snd prop)) (extractPropertyValue (snd prop))
                      (widgetType cx) with
    | None => doSkip (countProp st) (key (snd prop))
                     (extractPropertyValue (snd prop))
    | Some mapping =>
        match action mapping with
        | ActRemove =>
            doRemove cx (countProp st) prop (key (snd prop))
                     (extractPropertyValue (snd prop)) mapping
        | ActMap =>
            if isSpacingMapping mapping
            then doCollectSpacing (countProp st) prop mapping
            else if truthy (orElse (mappedProperty mapping) "")
                    && bool_decide (orElse (mappedProperty mapping) ""
                                    ∈ mappedTargetProperties st)
                 then doCollision cx (countProp st) prop (key (snd prop))
                        (extractPropertyValue (snd prop))
                        (orElse (mappedProperty mapping) "")
                 else doMap cx (countProp st) prop (key (snd prop))
                        (extractPropertyValue (snd prop))
                        (orElse (mappedProperty mapping) "") mapping
        | ActMapToWidgetProperty =>
            doWidgetProp cx (countProp st) prop (key (snd prop))
                         (extractPropertyValue (snd prop)) mapping
        end
    end.
Proof.
  unfold reachesLookup, analyseProp. intros H.
  apply andb_true_iff in H as [H H3]. apply andb_true_iff in H as [H1 H2].
  rewrite H1, H2, H3. reflexivity.
Qed.

Lemma analyseProp_ignored C cx st prop :
  reachesLookup C (snd prop) = false -> analyseProp C cx st prop = st.
Proof.
  unfold reachesLookup, analyseProp. intros H.
  destruct (truthy (key (snd prop))); [|done].
  destruct (bool_decide (key (snd prop) ∈ MAPPED_PROPERTY_NAMES C)); [|done].
  simpl in *. by rewrite H.
Qed.

Lemma append_bar_inj a a' x x' :
  barFree a = true -> barFree a' = true ->
  a +:+ String "|" x = a' +:+ String "|" x' -> a = a' /\ x = x'.
Proof.
  revert a'. induction a as [|c a IH]; intros [|c' a']; simpl.
  - intros _ _ [= ->]. done.
  - intros _ Hb [= <- _]. done.
  - intros Hb _ [= -> _]. done.
  - intros [_ Ha]%andb_true_iff [_ Ha']%andb_true_iff [= -> Heq].
    destruct (IH a' Ha Ha' Heq) as [-> ->]. done.
Qed.

(** Names and values without ["|"] make the composite key determine the
    triple it was built from. *)
Lemma lookupKey_inj p v t p' v' t' :
  barFree p = true -> barFree v = true ->
  barFree p' = true -> barFree v' = true ->
  lookupKey p v t = lookupKey p' v' t' -> p = p' /\ v = v' /\ t = t'.
Proof.
  intros Hp Hv Hp' Hv' Heq. unfold lookupKey in Heq.
  change (p +:+ String "|" (v +:+ String "|" t)
          = p' +:+ String "|" (v' +:+ String "|" t')) in Heq.
  apply append_bar_inj in Heq as [-> Heq]; [|done..].
  apply append_bar_inj in Heq as [-> ->]; done.
Qed.

(** C4. Rule resolution returns the rule indexed under the exact key
    (propertyName, value, elementType) when there is one, otherwise the
    rule indexed under the wildcard key (propertyName, value, "*") when
    there is one, otherwise none, and nothing else is tried; the element
    processor takes a none result for a property that reached the lookup
    as "no applicable rule": the property is counted as skipped and the
    analysis goes on.  The key is the text "name|value|type", which names
    one triple only as long as names and values hold no "|". *)
Theorem findMapping_exact_then_wildcard (C : Catalog) (p v t : string) :
  (forall r, findMapping C p v t = r <-> Resolves C p v t r)
  /\ (forall cx st prop,
        reachesLookup C (snd prop) = true ->
        key (snd prop) = p -> extractPropertyValue (snd prop) = v ->
        widgetType cx = t ->
        findMapping C p v t = None ->
        analyseProp C cx st prop = doSkip (countProp st) p v)
  /\ (forall p' v' t',
        barFree p = true -> barFree v = true ->
        barFree p' = true -> barFree v' = true ->
        lookupKey p v t = lookupKey p' v' t' ->
        p = p' /\ v = v' /\ t = t').
Proof.
  split; [|split].
  - intros r. unfold findMapping. split.
    + intros <-.
      destruct (MAPPINGS_LOOKUP C !! lookupKey p v t) as [m|] eqn:He.
      * by constructor.
      * destruct (MAPPINGS_LOOKUP C !! lookupKey p v "*") as [m|] eqn:Hw.
        -- by apply ResolvesWildcard.
        -- by apply ResolvesNone.
    + intros [m He|m He Hw|He Hw]; rewrite He; congruence.
  - intros cx st prop Hr <- <- <- Hn.
    rewrite analyseProp_reaches by done. by rewrite Hn.
  - intros p' v' t'. apply lookupKey_inj.
Qed.

Lemma findMapping_exact_then_wildcard_witness :
  let cx := widgetCtx widgetSpacing "App.Home" "App" in
  let prop := (0, {| key := "Spacing";
                     pvalue := VCompound [("padding-left", VOption "Large")] |}) in
  reachesLookup sampleCatalog (snd prop) = true
  /\ findMapping sampleCatalog "Spacing" "[Compound]" "DivContainer" = None
  /\ analyseProp sampleCatalog cx (initAnalysis []) prop
     = doSkip (countProp (initAnalysis [])) "Spacing" "[Compound]".
Proof.
  intros cx prop.
  assert (H1 : reachesLookup sampleCatalog (snd prop) = true) by by vm_compute.
  assert (H2 : findMapping sampleCatalog "Spacing" "[Compound]" "DivContainer"
               = None) by by vm_compute.
  split; [exact H1|]. split; [exact H2|].
  exact (proj1 (proj2 (findMapping_exact_then_wildcard sampleCatalog
                         "Spacing" "[Compound]" "DivContainer"))
               cx (initAnalysis []) prop H1 eq_refl eq_refl eq_refl H2).
Defined.

(** The rule of [ruleJustify] on a container: one "mapped" row and the
    property rewritten; on a list view, which the rule does not name and
    for which no wildcard rule exists: counted as skipped, nothing
    rewritten, no row. *)
Example justify_on_container :
  let out := processWidget (buildCatalog [ruleJustify])
               (divContainer
                  [ {| key := "Justify content"; pvalue := VOption "Center" |} ])
               "App.Home" "Page" "App" [] in
  designProperties (fst (fst out))
  = [ {| key := "Align content"; pvalue := VOption "Center" |} ]
  /\ map csv_action (snd (fst out)) = [Mapped]
  /\ mapped (snd out) = 1 /\ skipped (snd out) = 0.
Proof. by vm_compute. Qed.

Example justify_on_list_view :
  let out := processWidget (buildCatalog [ruleJustify]) listViewJustify
                           "App.Home" "Page" "App" [] in
  designProperties (fst (fst out)) = designProperties listViewJustify
  /\ snd (fst out) = []
  /\ mapped (snd out) = 0 /\ skipped (snd out) = 1.
Proof. by vm_compute. Qed.

(** ** The rule index *)

(** The keys under which one entry is indexed. *)
Lemma indexMapping_lookup lk m k :
  indexMapping lk m !! k =
    if bool_decide (k ∈ map (lookupKey (property m) (value m)) (elementTypes m))
    then Some m else lk !! k.
Proof.
  unfold indexMapping. revert lk.
  induction (elementTypes m) as [|t ts IH]; intros lk; cbn [foldl map].
  - rewrite bool_decide_eq_false_2; [done|]. apply not_elem_of_nil.
  - rewrite IH. case_bool_decide as Hin.
    + rewrite bool_decide_eq_true_2; [done|]. by apply elem_of_cons; right.
    + destruct (decide (k = lookupKey (property m) (value m) t)) as [->|Hne].
      * rewrite lookup_insert_eq.
        rewrite bool_decide_eq_true_2; [done|]. apply elem_of_cons; by left.
      * rewrite lookup_insert_ne by done.
        rewrite bool_decide_eq_false_2; [done|].
        intros [?|?]%elem_of_cons; done.
Qed.

Lemma foldl_indexMapping_skip data lk k :
  (forall m, m ∈ data ->
     k ∉ map (lookupKey (property m) (value m)) (elementTypes m)) ->
  foldl indexMapping lk data !! k = lk !! k.
Proof.
  revert lk. induction data as [|m data IH]; intros lk H; simpl; [done|].
  rewrite IH.
  - rewrite indexMapping_lookup. rewrite bool_decide_eq_false_2; [done|].
    apply H. by left.
  - intros m' Hm'. apply H. by right.
Qed.

Lemma buildLookup_last pre m post k :
  k ∈ map (lookupKey (property m) (value m)) (elementTypes m) ->
  (forall m', m' ∈ post ->
     k ∉ map (lookupKey (property m') (value m')) (elementTypes m')) ->
  buildLookup (pre ++ m :: post) !! k = Some m.
Proof.
  intros Hk Hpost. unfold buildLookup. rewrite foldl_app. simpl.
  rewrite foldl_indexMapping_skip by done.
  rewrite indexMapping_lookup. by rewrite bool_decide_eq_true_2.
Qed.

(** C10. When two rule entries of the mappings file (entries that carry a
    property name and a match value, that is, are not comments) produce
    the same composite lookup key, and no later rule entry produces it,
    the index holds the later of the two under that key and not the
    earlier one, and resolution of that key returns the later entry. *)
Theorem loadMappings_later_entry_wins
    (pre mid post : list PropertyMappingV2) (m1 m2 : PropertyMappingV2)
    (t1 t2 : string) (C : Catalog) :
  isRuleEntry m1 = true -> isRuleEntry m2 = true ->
  t1 ∈ elementTypes m1 -> t2 ∈ elementTypes m2 ->
  lookupKey (property m1) (value m1) t1
    = lookupKey (property m2) (value m2) t2 ->
  (forall m t, m ∈ post -> isRuleEntry m = true -> t ∈ elementTypes m ->
     lookupKey (property m) (value m) t
       ≠ lookupKey (property m2) (value m2) t2) ->
  loadMappings (Some (pre ++ m1 :: mid ++ m2 :: post)) = Some C ->
  MAPPINGS_LOOKUP C !! lookupKey (property m1) (value m1) t1 = Some m2
  /\ (m1 ≠ m2 ->
      MAPPINGS_LOOKUP C !! lookupKey (property m1) (value m1) t1 ≠ Some m1)
  /\ findMapping C (property m2) (value m2) t2 = Some m2.
Proof.
  intros H1 H2 Ht1 Ht2 Hk Hpost Hload.
  injection Hload as <-. unfold buildCatalog. simpl.
  assert (Hl : buildLookup
            (List.filter isRuleEntry (pre ++ m1 :: mid ++ m2 :: post))
            !! lookupKey (property m2) (value m2) t2 = Some m2).
  { rewrite List.filter_app. simpl. rewrite H1.
    rewrite List.filter_app. simpl. rewrite H2.
    replace (List.filter isRuleEntry pre ++
             m1 :: List.filter isRuleEntry mid ++
             m2 :: List.filter isRuleEntry post)
      with ((List.filter isRuleEntry pre ++
             m1 :: List.filter isRuleEntry mid) ++
             m2 :: List.filter isRuleEntry post)
      by (by rewrite <- app_assoc).
    apply buildLookup_last.
    - apply list_elem_of_fmap. eauto.
    - intros m' Hm' Hin.
      apply list_elem_of_In, List.filter_In in Hm' as [Hm' Hr].
      apply list_elem_of_fmap in Hin as (t & Heq & Ht).
      apply (Hpost m' t); [by apply list_elem_of_In|done|done|done]. }
  split; [|split].
  - by rewrite Hk.
  - intros Hne. rewrite Hk, Hl. congruence.
  - unfold findMapping. simpl. by rewrite Hl.
Qed.

Lemma loadMappings_later_entry_wins_witness :
  isRuleEntry ruleJustify = true /\ isRuleEntry ruleJustifyLate = true
  /\ MAPPINGS_LOOKUP (buildCatalog [ruleJustify; ruleJustifyLate; ruleShadow])
       !! lookupKey "Justify content" "Center" "DivContainer"
     = Some ruleJustifyLate
  /\ findMapping (buildCatalog [ruleJustify; ruleJustifyLate; ruleShadow])
       "Justify content" "Center" "DivContainer" = Some ruleJustifyLate.
Proof.
  assert (H1 : isRuleEntry ruleJustify = true) by by vm_compute.
  assert (H2 : isRuleEntry ruleJustifyLate = true) by by vm_compute.
  split; [exact H1|]. split; [exact H2|].
  assert (Ht1 : "DivContainer" ∈ elementTypes ruleJustify)
    by (simpl; apply list_elem_of_here).
  assert (Ht2 : "DivContainer" ∈ elementTypes ruleJustifyLate)
    by (simpl; apply list_elem_of_here).
  assert (Hpost : forall m t, m ∈ [ruleShadow] -> isRuleEntry m = true ->
            t ∈ elementTypes m ->
            lookupKey (property m) (value m) t
            ≠ lookupKey (property ruleJustifyLate) (value ruleJustifyLate)
                        "DivContainer").
  { intros m t Hm _ Ht. apply list_elem_of_singleton in Hm. subst m.
    simpl in Ht. apply list_elem_of_singleton in Ht. subst t.
    by vm_compute. }
  destruct (loadMappings_later_entry_wins [] [] [ruleShadow]
              ruleJustify ruleJustifyLate "DivContainer" "DivContainer"
              (buildCatalog [ruleJustify; ruleJustifyLate; ruleShadow])
              H1 H2 Ht1 Ht2 eq_refl Hpost eq_refl) as (R1 & _ & R3).
  split; [exact R1|exact R3].
Defined.

(** ** Slots, parsing and merging *)

Lemma isSide_sides d : isSide d = true <-> d ∈ sides.
Proof.
  unfold isSide, sides. rewrite !orb_true_iff, !String.eqb_eq.
  rewrite !elem_of_cons, elem_of_nil. tauto.
Qed.

Lemma slot_setSlot k d v st k' d' :
  slot k' d' (setSlot k d v st) =
    if decide (k = k' /\ d = d') then Some v else slot k' d' st.
Proof.
  destruct (decide (k = k' /\ d = d')) as [[<- <-]|Hn].
  - unfold slot, setSlot, layer. destruct k; simpl; by rewrite lookup_insert_eq.
  - unfold slot, setSlot, layer. destruct k, k'; simpl; try done;
      (destruct (decide (d = d')) as [->|Hd];
       [exfalso; by apply Hn|by rewrite lookup_insert_ne]).
Qed.

Lemma sidesPresent_setSlot k d v st :
  sidesPresent st -> sidesPresent (setSlot k d v st).
Proof.
  intros H k' d' Hd'. rewrite slot_setSlot. case_decide; [by eexists|auto].
Qed.

Lemma sidesPresent_empty : sidesPresent emptyState.
Proof.
  intros k d Hd. unfold sides in Hd.
  repeat (apply elem_of_cons in Hd as [->|Hd]); [..|by apply elem_of_nil in Hd];
    destruct k; by eexists.
Qed.

Lemma splitOn_nonempty sep s : splitOn sep s ≠ [].
Proof.
  destruct s as [|c s]; simpl; [done|].
  destruct (Ascii.eqb c sep); [done|]. by destruct (splitOn sep s).
Qed.

Lemma splitOn_one sep s b : splitOn sep s = [b] -> s = b.
Proof.
  revert b. induction s as [|c s IH]; intros b; simpl.
  - by intros [= <-].
  - destruct (Ascii.eqb c sep).
    + intros [= _ H]. by apply splitOn_nonempty in H.
    + destruct (splitOn sep s) as [|h t] eqn:E;
        [by apply splitOn_nonempty in E|].
      intros [= <- ->]. f_equal. by apply IH.
Qed.

Lemma splitOn_two sep s a b :
  splitOn sep s = [a; b] -> s = a +:+ String sep b.
Proof.
  revert a b. induction s as [|c s IH]; intros a b; simpl; [done|].
  destruct (Ascii.eqb c sep) eqn:Ec.
  - intros [= <- H]. apply Stdlib.Strings.Ascii.eqb_eq in Ec as ->.
    apply splitOn_one in H as ->. reflexivity.
  - destruct (splitOn sep s) as [|h t] eqn:E;
      [by apply splitOn_nonempty in E|].
    intros [= <- ->]. by rewrite (IH _ _ eq_refl).
Qed.

(** A well-formed entry sets its own slot. *)
Lemma parseEntry_hit st k d v :
  d ∈ sides -> truthy v = true ->
  parseEntry st (slotKey k d, VOption v) = setSlot k d v st.
Proof.
  intros Hd Hv. unfold sides in Hd.
  repeat (apply elem_of_cons in Hd as [->|Hd]); [..|by apply elem_of_nil in Hd];
    destruct k; unfold parseEntry; simpl; by rewrite Hv.
Qed.

(** What [parseEntry] does when it changes the state. *)
Lemma parseEntry_cases st e :
  parseEntry st e = st
  \/ exists k d v, d ∈ sides /\ truthy v = true
       /\ e = (slotKey k d, VOption v)
       /\ parseEntry st e = setSlot k d v st.
Proof.
  destruct e as [key0 pv]. unfold parseEntry.
  destruct (truthy key0); simpl; [|by left].
  destruct pv as [|o| | |]; try by left.
  destruct (truthy o) eqn:Ho; simpl; [|by left].
  destruct (splitOn "-" key0) as [|type [|direction [|? ?]]] eqn:Es;
    try by left.
  apply splitOn_two in Es.
  destruct ((String.eqb type "margin" || String.eqb type "padding")
            && isSide direction) eqn:Ec; [|by left].
  apply andb_true_iff in Ec as [Ht Hd]. apply isSide_sides in Hd.
  right. destruct (String.eqb type "margin") eqn:Em.
  - apply String.eqb_eq in Em as ->.
    exists KMargin, direction, o. by subst.
  - simpl in Ht. apply String.eqb_eq in Ht as ->.
    exists KPadding, direction, o. by subst.
Qed.

Lemma slotKey_inj k d k' d' : slotKey k d = slotKey k' d' -> k = k' /\ d = d'.
Proof.
  unfold slotKey. destruct k, k'; simpl; intros [= H]; by subst.
Qed.

Lemma sidesPresent_parse st l :
  sidesPresent st -> sidesPresent (foldl parseEntry st l).
Proof.
  revert st. induction l as [|e l IH]; intros st H; simpl; [done|].
  apply IH. destruct (parseEntry_cases st e) as [->|(k&d&v&_&_&_&->)];
    [done|by apply sidesPresent_setSlot].
Qed.

(** Entries with another key leave the slot alone. *)
Lemma slot_parse_other st l k d :
  slotKey k d ∉ map fst l ->
  slot k d (foldl parseEntry st l) = slot k d st.
Proof.
  revert st. induction l as [|e l IH]; intros st Hn; simpl; [done|].
  rewrite IH by (intros ?; apply Hn; by right).
  destruct (parseEntry_cases st e) as [->|(k'&d'&v&_&_&->&->)]; [done|].
  rewrite slot_setSlot. case_decide as Hd; [|done].
  destruct Hd as [-> ->]. exfalso. apply Hn. by left.
Qed.

(** The seed: the parsed sides of an existing compound [Spacing], else
    the empty box model. *)
Lemma seedState_compound p l k d :
  pvalue p = VCompound l -> d ∈ sides ->
  slot k d (seedState (Some p)) = slot k d (foldl parseEntry emptyState l).
Proof.
  intros Hp Hd. unfold seedState, parseSpacingState. rewrite Hp.
  pose proof (sidesPresent_parse emptyState l sidesPresent_empty k d Hd)
    as [v Hv].
  rewrite Hv. unfold slot in *. destruct k; simpl in *;
    by apply lookup_union_Some_l.
Qed.

Lemma seedState_not_compound e :
  (forall p l, e = Some p -> pvalue p ≠ VCompound l) ->
  seedState e = emptyState.
Proof.
  intros H. destruct e as [p|]; [|done]. unfold seedState, parseSpacingState.
  destruct (pvalue p) eqn:E; try done. by destruct (H p properties).
Qed.

Lemma sidesPresent_seed e : sidesPresent (seedState e).
Proof.
  destruct e as [p|]; [|apply sidesPresent_empty].
  destruct (pvalue p) as [| |l| |] eqn:E;
    try (rewrite seedState_not_compound;
         [apply sidesPresent_empty|by intros ?? [= <-]; rewrite E]).
  intros k d Hd. rewrite (seedState_compound p l) by done.
  by apply sidesPresent_parse; [apply sidesPresent_empty|].
Qed.

Lemma mergeSpacing_snoc e items item :
  mergeSpacing e (items ++ [item])
  = applyContribution (mergeSpacing e items) item.
Proof. unfold mergeSpacing. by rewrite foldl_app. Qed.

Lemma mergeSpacing_snoc_fst e items item :
  fst (mergeSpacing e (items ++ [item]))
  = writeSlot (si_spacingType item) (itemDir item) (itemVal item)
              (fst (mergeSpacing e items)).
Proof.
  rewrite mergeSpacing_snoc. unfold applyContribution.
  by destruct (mergeSpacing e items).
Qed.

Lemma mergeSpacing_snoc_snd e items item :
  snd (mergeSpacing e (items ++ [item]))
  = snd (mergeSpacing e items)
    ++ [spacingLogLine item
          (readSlot (si_spacingType item) (itemDir item)
                    (fst (mergeSpacing e items)))].
Proof.
  rewrite mergeSpacing_snoc. unfold applyContribution.
  by destruct (mergeSpacing e items).
Qed.

(** The sides are no members of [Object.prototype]: a side is written and
    read as the layer's own property. *)
Lemma side_not_proto d : d ∈ sides -> String.eqb d "__proto__" = false.
Proof.
  intros Hd. unfold sides in Hd.
  repeat (apply elem_of_cons in Hd as [->|Hd]); [..|by apply elem_of_nil in Hd];
    reflexivity.
Qed.

Lemma slot_writeSlot k d v st k' d' :
  d' ∈ sides ->
  slot k' d' (writeSlot k d v st) =
    if decide (k = k' /\ d = d') then Some v else slot k' d' st.
Proof.
  intros Hd'. unfold writeSlot. destruct (String.eqb d "__proto__") eqn:E.
  - apply String.eqb_eq in E as ->. rewrite decide_False; [done|].
    intros [_ <-]. by apply side_not_proto in Hd'.
  - apply slot_setSlot.
Qed.

Lemma readSlot_side k d st v :
  slot k d st = Some v -> readSlot k d st = ReadOwn v.
Proof. unfold slot, readSlot. by intros ->. Qed.

Lemma sidesPresent_writeSlot k d v st :
  sidesPresent st -> sidesPresent (writeSlot k d v st).
Proof.
  intros H k' d' Hd'. rewrite slot_writeSlot by done.
  case_decide; [by eexists|auto].
Qed.

Lemma sidesPresent_merge e items : sidesPresent (fst (mergeSpacing e items)).
Proof.
  induction items as [|item items IH] using rev_ind.
  - apply sidesPresent_seed.
  - rewrite mergeSpacing_snoc_fst. by apply sidesPresent_writeSlot.
Qed.

(** A side holds the value of the last contribution that targets it, or
    its seed when none does. *)
Lemma slot_merge e items k d :
  d ∈ sides ->
  slot k d (fst (mergeSpacing e items)) =
    match last (filter (targets k d) items) with
    | Some item => Some (itemVal item)
    | None => slot k d (seedState e)
    end.
Proof.
  intros Hd. induction items as [|item items IH] using rev_ind; [done|].
  rewrite mergeSpacing_snoc_fst, slot_writeSlot, filter_app by done.
  rewrite filter_cons, filter_nil.
  case_decide as Ht.
  - rewrite decide_True by done. by rewrite last_snoc.
  - rewrite decide_False by done. by rewrite app_nil_r.
Qed.

Lemma slot_merge_untargeted e items k d :
  d ∈ sides ->
  (forall item, item ∈ items -> ~ targets k d item) ->
  slot k d (fst (mergeSpacing e items)) = slot k d (seedState e).
Proof.
  intros Hd H. rewrite slot_merge by done.
  replace (filter (targets k d) items) with (@nil SpacingItem); [done|].
  symmetry. induction items as [|i l IH]; [done|].
  rewrite filter_cons, decide_False by (apply H; by left).
  apply IH. intros ? ?. apply H. by right.
Qed.

Lemma mergeSpacing_trace_length e items :
  length (snd (mergeSpacing e items)) = length items.
Proof.
  induction items as [|item items IH] using rev_ind; [done|].
  rewrite mergeSpacing_snoc_snd, !length_app, IH. done.
Qed.

Lemma mergeSpacing_trace_prefix e l1 l2 :
  exists tail, snd (mergeSpacing e (l1 ++ l2)) = snd (mergeSpacing e l1) ++ tail.
Proof.
  induction l2 as [|x l2 IH] using rev_ind.
  - exists []. by rewrite !app_nil_r.
  - destruct IH as [tail IH]. rewrite app_assoc, mergeSpacing_snoc_snd, IH.
    eexists. by rewrite <- app_assoc.
Qed.

(** The trace line of a contribution shows the slot as the earlier
    contributions left it. *)
Lemma mergeSpacing_trace_lookup e l1 item l2 :
  snd (mergeSpacing e (l1 ++ item :: l2)) !! length l1
  = Some (spacingLogLine item
            (readSlot (si_spacingType item) (itemDir item)
                      (fst (mergeSpacing e l1)))).
Proof.
  destruct (mergeSpacing_trace_prefix e (l1 ++ [item]) l2) as [tail Ht].
  rewrite <- app_assoc in Ht. simpl in Ht. rewrite Ht.
  rewrite mergeSpacing_snoc_snd, <- app_assoc.
  rewrite lookup_app_r by (by rewrite mergeSpacing_trace_length).
  by rewrite mergeSpacing_trace_length, Nat.sub_diag.
Qed.

(** ** Materialisation *)

Lemma elem_of_addInnerProp e k v :
  e ∈ addInnerProp k (Some v) <-> e = (k, VOption v) /\ v ≠ "None".
Proof.
  unfold addInnerProp. destruct (String.eqb v "None") eqn:E.
  - apply String.eqb_eq in E. rewrite elem_of_nil. tauto.
  - apply String.eqb_neq in E. rewrite list_elem_of_singleton. tauto.
Qed.

Lemma elem_of_materialize st e :
  sidesPresent st ->
  e ∈ materialize st <->
  exists k d v, d ∈ sides /\ slot k d st = Some v /\ v ≠ "None"
                /\ e = (slotKey k d, VOption v).
Proof.
  intros Hp.
  destruct (Hp KMargin "top") as [m1 H1]; [set_solver|].
  destruct (Hp KMargin "right") as [m2 H2]; [set_solver|].
  destruct (Hp KMargin "bottom") as [m3 H3]; [set_solver|].
  destruct (Hp KMargin "left") as [m4 H4]; [set_solver|].
  destruct (Hp KPadding "top") as [p1 G1]; [set_solver|].
  destruct (Hp KPadding "right") as [p2 G2]; [set_solver|].
  destruct (Hp KPadding "bottom") as [p3 G3]; [set_solver|].
  destruct (Hp KPadding "left") as [p4 G4]; [set_solver|].
  unfold materialize. unfold slot, layer in *.
  rewrite H1, H2, H3, H4, G1, G2, G3, G4.
  rewrite !elem_of_app, !elem_of_addInnerProp. split.
  - intros [H|[H|[H|[H|[H|[H|[H|H]]]]]]]; destruct H as [-> Hn].
    + exists KMargin, "top", m1. set_solver.
    + exists KMargin, "right", m2. set_solver.
    + exists KMargin, "bottom", m3. set_solver.
    + exists KMargin, "left", m4. set_solver.
    + exists KPadding, "top", p1. set_solver.
    + exists KPadding, "right", p2. set_solver.
    + exists KPadding, "bottom", p3. set_solver.
    + exists KPadding, "left", p4. set_solver.
  - intros (k & d & v & Hd & Hs & Hn & ->). unfold sides in Hd.
    repeat (apply elem_of_cons in Hd as [->|Hd]);
      [..|by apply elem_of_nil in Hd];
      destruct k; cbn [kindName slotKey] in *; simplify_eq; naive_solver.
Qed.

Lemma materialize_all_none st :
  (forall k d, d ∈ sides -> slot k d st = Some "None") ->
  materialize st = [].
Proof.
  intros H. unfold materialize.
  pose proof (H KMargin) as Hm. pose proof (H KPadding) as Hq.
  unfold slot, layer in Hm, Hq.
  rewrite !Hm, !Hq by set_solver. reflexivity.
Qed.

Lemma slot_parse_origin l k d v :
  slot k d (foldl parseEntry emptyState l) = Some v ->
  v = "None" \/ (slotKey k d, VOption v) ∈ l.
Proof.
  induction l as [|e l IH] using rev_ind.
  - intros H. left. unfold slot in H. destruct k; simpl in H.
    + unfold noneLayer in H.
      repeat (apply lookup_insert_Some in H as [[_ H]|[_ H]]; [congruence|]).
      done.
    + unfold noneLayer in H.
      repeat (apply lookup_insert_Some in H as [[_ H]|[_ H]]; [congruence|]).
      done.
  - rewrite foldl_app. simpl.
    destruct (parseEntry_cases (foldl parseEntry emptyState l) e)
      as [->|(k'&d'&v'&_&_&->&->)].
    + intros H. destruct (IH H) as [?|?]; [by left|right].
      apply elem_of_app. by left.
    + rewrite slot_setSlot. case_decide as Hd.
      * destruct Hd as [-> ->]. intros [= ->]. right.
        apply elem_of_app. right. by apply list_elem_of_singleton.
      * intros H. destruct (IH H) as [?|?]; [by left|right].
        apply elem_of_app. by left.
Qed.

Lemma materialize_slots st :
  materialize st =
    addInnerProp "margin-top" (slot KMargin "top" st)
    ++ addInnerProp "margin-right" (slot KMargin "right" st)
    ++ addInnerProp "margin-bottom" (slot KMargin "bottom" st)
    ++ addInnerProp "margin-left" (slot KMargin "left" st)
    ++ addInnerProp "padding-top" (slot KPadding "top" st)
    ++ addInnerProp "padding-right" (slot KPadding "right" st)
    ++ addInnerProp "padding-bottom" (slot KPadding "bottom" st)
    ++ addInnerProp "padding-left" (slot KPadding "left" st).
Proof. reflexivity. Qed.

(** C5. For every aggregated spacing result, the materialised compound
    value holds an entry exactly for the slots whose final value is not
    "None": no "None" entry is written, and a box model whose eight slots
    are all "None" materialises as the empty compound. *)
Theorem materialized_spacing_omits_none
    (existing : option DesignPropertyValue) (items : list SpacingItem) :
  let st := fst (mergeSpacing existing items) in
  (forall e, e ∈ materialize st <->
     exists k d v, d ∈ sides /\ slot k d st = Some v /\ v ≠ "None"
                   /\ e = (slotKey k d, VOption v))
  /\ (forall k, (k, VOption "None") ∉ materialize st)
  /\ ((forall k d, d ∈ sides -> slot k d st = Some "None") ->
      materialize st = []).
Proof.
  intros st. split; [|split].
  - intros e. apply elem_of_materialize, sidesPresent_merge.
  - intros k Hin.
    apply elem_of_materialize in Hin as (k' & d & v & _ & _ & Hn & Heq);
      [|apply sidesPresent_merge].
    by injection Heq as _ <-.
  - apply materialize_all_none.
Qed.

Lemma materialized_spacing_omits_none_witness :
  let st := fst (mergeSpacing None [contribMarginReset]) in
  (forall k d, d ∈ sides -> slot k d st = Some "None")
  /\ materialize st = [].
Proof.
  intros st.
  assert (H : forall k d, d ∈ sides -> slot k d st = Some "None").
  { intros k d Hd. unfold sides in Hd.
    repeat (apply elem_of_cons in Hd as [->|Hd]);
      [..|by apply elem_of_nil in Hd]; destruct k; by vm_compute. }
  split; [exact H|].
  exact (proj2 (proj2 (materialized_spacing_omits_none None
                         [contribMarginReset])) H).
Defined.

(** ** The analysis pass *)

Lemma analyse_snoc C cx csv l r :
  analyse C cx csv (l ++ [r]) = analyseProp C cx (analyse C cx csv l) r.
Proof. unfold analyse. by rewrite foldl_app. Qed.

Lemma analyseProp_case C cx st r :
  StepCase C cx st r (analyseProp C cx st r).
Proof.
  destruct (reachesLookup C (snd r)) eqn:Hr.
  - rewrite analyseProp_reaches by done.
    destruct (findMapping C (key (snd r)) (extractPropertyValue (snd r))
                (widgetType cx)) as [m|] eqn:Hf.
    + destruct (action m) eqn:Ha.
      * destruct (isSpacingMapping m) eqn:Hs.
        -- by eapply StepSpacing.
        -- destruct (truthy (orElse (mappedProperty m) "")) eqn:Ht; simpl.
           ++ case_bool_decide as Hin.
              ** by eapply StepCollision.
              ** eapply StepMap; eauto.
           ++ eapply StepMap; eauto. congruence.
      * by eapply StepRemove.
      * by eapply StepWidgetProp.
    + by eapply StepSkip.
  - rewrite analyseProp_ignored by done. by constructor.
Qed.

Lemma queuedRefs_step C cx st r :
  queuedRefs (analyseProp C cx st r) ≡ₚ queuedRefs st
  \/ queuedRefs (analyseProp C cx st r) ≡ₚ r :: queuedRefs st.
Proof.
  destruct (analyseProp_case C cx st r); unfold queuedRefs; cbn;
    [by left|by left|right..];
    rewrite ?map_app; cbn.
  all: solve_Permutation.
Qed.

Lemma analyse_queued C cx csv l :
  NoDup l ->
  NoDup (queuedRefs (analyse C cx csv l))
  /\ (forall r, r ∈ queuedRefs (analyse C cx csv l) -> r ∈ l).
Proof.
  induction l as [|r l IH] using rev_ind; intros Hnd.
  - split; [constructor|]. intros r Hr. by apply elem_of_nil in Hr.
  - apply NoDup_app in Hnd as (Hl & Hr & _).
    destruct (IH Hl) as [IH1 IH2]. rewrite analyse_snoc.
    destruct (queuedRefs_step C cx (analyse C cx csv l) r) as [Hp|Hp].
    + split; [by rewrite Hp|]. intros x Hx. rewrite Hp in Hx.
      apply elem_of_app. left. by apply IH2.
    + split.
      * rewrite Hp. apply NoDup_cons. split; [|done]. intros Hin.
        apply IH2 in Hin. apply (Hr r Hin). by apply list_elem_of_singleton.
      * intros x Hx. rewrite Hp in Hx.
        apply elem_of_cons in Hx as [->|Hx]; apply elem_of_app;
          [right; by apply list_elem_of_singleton|left; by apply IH2].
Qed.

(** What the queues hold. *)
Lemma analyse_queues C cx csv l :
  let st := analyse C cx csv l in
  (forall r m, (r, m) ∈ toModify st ->
     r ∈ l /\ reachesLookup C (snd r) = true /\ resolved C cx r = Some m
     /\ action m = ActMap /\ isSpacingMapping m = false)
  /\ (forall r, r ∈ toRemove st ->
     r ∈ l /\ reachesLookup C (snd r) = true
     /\ exists m, resolved C cx r = Some m
          /\ (action m = ActRemove
              \/ (action m = ActMap /\ isSpacingMapping m = false)))
  /\ (forall item, item ∈ spacingPropertiesToMap st ->
     si_prop item ∈ l /\ reachesLookup C (snd (si_prop item)) = true
     /\ resolved C cx (si_prop item) = Some (si_mapping item)
     /\ action (si_mapping item) = ActMap
     /\ isSpacingMapping (si_mapping item) = true
     /\ si_direction item = jsShow (mappedDirection (si_mapping item)))
  /\ (forall r m, (r, m) ∈ toSetWidgetProp st ->
     r ∈ l /\ reachesLookup C (snd r) = true /\ resolved C cx r = Some m
     /\ action m = ActMapToWidgetProperty).
Proof.
  induction l as [|x l IH] using rev_ind.
  - simpl. repeat split; intros; exfalso; by eapply elem_of_nil.
  - destruct IH as (IH1 & IH2 & IH3 & IH4). simpl.
    rewrite analyse_snoc.
    assert (Hw : forall r : PropRef, r ∈ l -> r ∈ l ++ [x])
      by (intros; apply elem_of_app; by left).
    assert (Hx : x ∈ l ++ [x])
      by (apply elem_of_app; right; by apply list_elem_of_singleton).
    destruct (analyseProp_case C cx (analyse C cx csv l) x); simpl;
      (split; [|split; [|split]]).
    all: try (intros r m' Hin;
              try (apply elem_of_app in Hin as [Hin|Hin];
                   [|apply list_elem_of_singleton in Hin;
                     injection Hin as -> ->; by eauto 10]);
              first [ destruct (IH1 _ _ Hin) as (? & ?)
                    | destruct (IH4 _ _ Hin) as (? & ?) ];
              by eauto).
    all: try (intros r Hin;
              try (apply elem_of_app in Hin as [Hin|Hin];
                   [|apply list_elem_of_singleton in Hin; subst r;
                     split; [done|]; split; [done|]; eexists; by eauto]);
              destruct (IH2 _ Hin) as (? & ?); by eauto).
    all: intros item Hin;
         try (apply elem_of_app in Hin as [Hin|Hin];
              [|apply list_elem_of_singleton in Hin; subst item; simpl;
                by eauto 10]);
         destruct (IH3 _ Hin) as (? & ?); by eauto.
Qed.

(** The counters count the queues. *)
Lemma analyse_counts C cx csv l :
  let st := analyse C cx csv l in
  mapped (result st) = length (toModify st)
  /\ removed (result st) = length (toRemove st)
  /\ widgetPropsMapped (result st) = length (toSetWidgetProp st)
  /\ skipped (result st) = length (skippedProps st)
  /\ props (result st)
     = length (queuedRefs st) + length (skippedProps st)
  /\ widgets (result st) = 0 /\ skippedNativeLayouts (result st) = 0.
Proof.
  induction l as [|x l IH] using rev_ind; [by vm_compute|].
  simpl in *. rewrite analyse_snoc.
  destruct IH as (I1 & I2 & I3 & I4 & I5 & I6 & I7).
  unfold queuedRefs in *.
  destruct (analyseProp_case C cx (analyse C cx csv l) x); simpl;
    rewrite ?length_app, ?length_map in *; simpl;
    rewrite ?length_app, ?length_map; simpl; repeat split; lia.
Qed.

(** Queues, rows and claimed targets only grow. *)
Lemma analyseProp_grows C cx st r :
  let st' := analyseProp C cx st r in
  toModify st `prefix_of` toModify st'
  /\ toRemove st `prefix_of` toRemove st'
  /\ toSetWidgetProp st `prefix_of` toSetWidgetProp st'
  /\ spacingPropertiesToMap st `prefix_of` spacingPropertiesToMap st'
  /\ csvData st `prefix_of` csvData st'
  /\ mappedTargetProperties st ⊆ mappedTargetProperties st'.
Proof.
  destruct (analyseProp_case C cx st r); simpl;
    repeat split; try done; try (by apply prefix_app_r).
  destruct (truthy _); set_solver.
Qed.

Lemma analyse_grows C cx csv l1 l2 :
  let st := analyse C cx csv l1 in
  let st' := analyse C cx csv (l1 ++ l2) in
  toModify st `prefix_of` toModify st'
  /\ toRemove st `prefix_of` toRemove st'
  /\ toSetWidgetProp st `prefix_of` toSetWidgetProp st'
  /\ spacingPropertiesToMap st `prefix_of` spacingPropertiesToMap st'
  /\ csvData st `prefix_of` csvData st'
  /\ mappedTargetProperties st ⊆ mappedTargetProperties st'.
Proof.
  induction l2 as [|x l2 IH] using rev_ind.
  - rewrite app_nil_r. simpl. repeat split; done.
  - simpl in *. rewrite app_assoc, analyse_snoc.
    destruct IH as (I1 & I2 & I3 & I4 & I5 & I6).
    destruct (analyseProp_grows C cx (analyse C cx csv (l1 ++ l2)) x)
      as (G1 & G2 & G3 & G4 & G5 & G6).
    repeat split; try (etrans; eassumption).
Qed.

(** Every row that the first pass appends comes from a property that
    resolved to a rule other than a spacing rule. *)
Lemma analyse_rows C cx csv l :
  exists rows,
    csvData (analyse C cx csv l) = csv ++ rows
    /\ forall row, row ∈ rows ->
         csv_action row ≠ Skipped
         /\ exists r m, r ∈ l /\ reachesLookup C (snd r) = true
              /\ resolved C cx r = Some m
              /\ ~ (action m = ActMap /\ isSpacingMapping m = true)
              /\ csv_property row = key (snd r)
              /\ csv_value row = extractPropertyValue (snd r).
Proof.
  induction l as [|x l IH] using rev_ind.
  - exists []. split; [by rewrite app_nil_r|].
    intros row Hin. by apply elem_of_nil in Hin.
  - destruct IH as (rows & Heq & Hrows). rewrite analyse_snoc.
    assert (Hold : forall row, row ∈ rows ->
              csv_action row ≠ Skipped
              /\ exists r m, r ∈ l ++ [x] /\ reachesLookup C (snd r) = true
                   /\ resolved C cx r = Some m
                   /\ ~ (action m = ActMap /\ isSpacingMapping m = true)
                   /\ csv_property row = key (snd r)
                   /\ csv_value row = extractPropertyValue (snd r)).
    { intros row Hin. destruct (Hrows row Hin) as (Ha & r & m & Hr & Hrest).
      split; [done|]. exists r, m. split; [|done].
      apply elem_of_app. by left. }
    assert (Hx : x ∈ l ++ [x])
      by (apply elem_of_app; right; by apply list_elem_of_singleton).
    destruct (analyseProp_case C cx (analyse C cx csv l) x) as
      [Hr|Hr Hf|m Hr Hf Ha|m Hr Hf Ha Hs|m Hr Hf Ha Hs Ht Hc|m Hr Hf Ha Hs Hc
      |m Hr Hf Ha]; simpl; rewrite ?Heq.
    1, 2, 4: by exists rows.
    all: eexists (rows ++ [_]); (split; [by rewrite app_assoc|]);
      intros row [Hin|Hin]%elem_of_app; [by apply Hold|];
      apply list_elem_of_singleton in Hin; subst row; simpl;
      (split; [done|]); exists x, m; repeat split; try done;
      intros [? ?]; congruence.
Qed.


(** The queue of contributions lists, in the order of the property list,
    the properties that resolve to a spacing rule. *)
Lemma spacing_queue_order C cx csv l :
  map si_prop (spacingPropertiesToMap (analyse C cx csv l))
  = filter (isContribution C cx) l.
Proof.
  induction l as [|x l IH] using rev_ind; [done|].
  rewrite analyse_snoc, filter_app, filter_cons, filter_nil.
  destruct (analyseProp_case C cx (analyse C cx csv l) x) as
    [Hr|Hr Hf|m Hr Hf Ha|m Hr Hf Ha Hs|m Hr Hf Ha Hs Ht Hc|m Hr Hf Ha Hs Hc
    |m Hr Hf Ha]; simpl; rewrite ?map_app; simpl.
  1: rewrite decide_False by (intros (? & _); congruence).
  2: rewrite decide_False by (intros (_ & m' & ? & _); congruence).
  3: rewrite decide_False by (intros (_ & m' & ? & ? & _); congruence).
  4: rewrite decide_True by (split; [done|]; by exists m).
  5-6: rewrite decide_False by (intros (_ & m' & ? & _ & ?); congruence).
  7: rewrite decide_False by (intros (_ & m' & ? & ? & _); congruence).
  all: by rewrite IH, ?app_nil_r.
Qed.

(** ** References and the execution phase *)

Lemma withRefs_lookup ps i :
  withRefs ps !! i = (fun p => (i, p)) <$> ps !! i.
Proof.
  unfold withRefs. rewrite lookup_zip_with.
  destruct (decide (i < length ps)) as [Hlt|Hge].
  - rewrite lookup_seq_lt by done. simpl.
    by destruct (ps !! i).
  - rewrite (lookup_ge_None_2 ps i) by lia.
    by destruct (seq 0 (length ps) !! i).
Qed.

Lemma elem_of_withRefs ps i p :
  (i, p) ∈ withRefs ps <-> ps !! i = Some p.
Proof.
  split.
  - intros (j & Hj)%list_elem_of_lookup. rewrite withRefs_lookup in Hj.
    destruct (ps !! j) eqn:E; simpl in Hj; [|done]. by injection Hj as <- <-.
  - intros H. apply list_elem_of_lookup. exists i.
    by rewrite withRefs_lookup, H.
Qed.

Lemma withRefs_NoDup ps : NoDup (withRefs ps).
Proof.
  apply NoDup_alt. intros i j [a p] Hi Hj.
  rewrite withRefs_lookup in Hi, Hj.
  destruct (ps !! i); simpl in Hi; [|done].
  destruct (ps !! j); simpl in Hj; [|done]. congruence.
Qed.

Lemma withRefs_take ps i p :
  ps !! i = Some p ->
  take (S i) (withRefs ps) = take i (withRefs ps) ++ [(i, p)].
Proof.
  intros H. apply take_S_r. by rewrite withRefs_lookup, H.
Qed.

(** Two queued references with one index are one reference. *)
Lemma withRefs_functional ps i p q :
  (i, p) ∈ withRefs ps -> (i, q) ∈ withRefs ps -> p = q.
Proof. rewrite !elem_of_withRefs. congruence. Qed.

Lemma elem_of_listRemove i j refs :
  i ∈ listRemove j refs <-> i ∈ refs /\ i ≠ j.
Proof. unfold listRemove. rewrite list_elem_of_filter. tauto. Qed.

Lemma elem_of_foldl_listRemove refs l i :
  i ∈ foldl (fun refs i => listRemove i refs) refs l <-> i ∈ refs /\ i ∉ l.
Proof.
  revert refs. induction l as [|x l IH]; intros refs; simpl.
  - split; [intros H; split; [done|apply not_elem_of_nil]|tauto].
  - rewrite IH, elem_of_listRemove, not_elem_of_cons. tauto.
Qed.

Lemma elem_of_allPropsToRemove st i :
  i ∈ allPropsToRemove st
  <-> i ∈ map fst (toRemove st)
      \/ i ∈ map (fun item => fst (si_prop item)) (spacingPropertiesToMap st).
Proof.
  unfold allPropsToRemove.
  generalize (map fst (toRemove st)) as acc.
  induction (spacingPropertiesToMap st) as [|item items IH]; intros acc; simpl.
  - rewrite elem_of_nil. tauto.
  - rewrite IH, elem_of_cons. case_bool_decide as Hin.
    + split; [tauto|]. intros [?|[->|?]]; tauto.
    + rewrite elem_of_app, list_elem_of_singleton. tauto.
Qed.



Lemma foldl_applyMapping_other objs (l : list (PropRef * PropertyMappingV2)) i :
  i ∉ map (fun it => fst (fst it)) l ->
  foldl (fun objs it => applyMapping objs (fst it) (snd it)) objs l !! i
  = objs !! i.
Proof.
  revert objs. induction l as [|x l IH]; intros objs Hn; simpl; [done|].
  apply not_elem_of_cons in Hn as [Hx Hl]. rewrite IH by done.
  unfold applyMapping. destruct (_ || _); [done|].
  by rewrite list_lookup_insert_ne.
Qed.


Lemma foldl_execSetWidgetProp r l :
  let r' := foldl execSetWidgetProp r l in
  run_objs r' = run_objs r /\ run_result r' = run_result r
  /\ run_csv r' = run_csv r /\ run_log r' = run_log r
  /\ (forall i, i ∈ run_refs r' -> i ∈ run_refs r)
  /\ (forall i, i ∈ run_refs r ->
        i ∉ map (fun it : PropRef * PropertyMappingV2 => fst (fst it)) l ->
        i ∈ run_refs r').
Proof.
  revert r. induction l as [|x l IH]; intros r; simpl.
  - repeat split; auto.
  - destruct (IH (execSetWidgetProp r x)) as (I1 & I2 & I3 & I4 & I5 & I6).
    unfold execSetWidgetProp in *.
    destruct (applyWidgetPropertyMapping (run_widget r) (snd x)); simpl in *.
    + repeat split; try done.
      * intros i Hi. apply I5 in Hi. by apply elem_of_listRemove in Hi as [? _].
      * intros i Hi [Hx Hl]%not_elem_of_cons. apply I6; [|done].
        by apply elem_of_listRemove.
    + repeat split; try done.
      intros i Hi [Hx Hl]%not_elem_of_cons. by apply I6.
Qed.

Lemma addMapped_0 r : addMapped 0 r = r.
Proof. destruct r. unfold addMapped. simpl. by rewrite Nat.add_0_r. Qed.

(** ** The run of [processWidget] on a processed widget *)

Lemma aggregate_refs cx w st i :
  i ∈ run_refs (aggregateSpacing cx w st) <->
    match spacingPropertiesToMap st with
    | [] => i < length (designProperties w)
    | _ :: _ =>
        i <= length (designProperties w)
        /\ (forall e, findExistingSpacing (designProperties w) = Some e ->
              i ≠ fst e)
    end.
Proof.
  unfold aggregateSpacing.
  destruct (spacingPropertiesToMap st) as [|it its]; simpl.
  - rewrite elem_of_seq. lia.
  - destruct (findExistingSpacing (designProperties w)) as [e|].
    + rewrite elem_of_listRemove, elem_of_app, elem_of_seq,
        list_elem_of_singleton.
      split.
      * intros [H Hne]. split; [lia|]. by intros e' [= <-].
      * intros [H Hne]. split; [lia|]. by apply Hne.
    + rewrite elem_of_app, elem_of_seq, list_elem_of_singleton.
      split; [intros H; split; [lia|done]|intros [H _]; lia].
Qed.

Lemma aggregate_objs_lookup cx w st i :
  i < length (designProperties w) ->
  run_objs (aggregateSpacing cx w st) !! i = designProperties w !! i.
Proof.
  intros Hlt. unfold aggregateSpacing.
  destruct (spacingPropertiesToMap st); simpl; [done|].
  by rewrite lookup_app_l.
Qed.


Lemma aggregate_csv cx w st :
  run_csv (aggregateSpacing cx w st)
  = csvData st ++ map (spacingRow cx) (spacingPropertiesToMap st).
Proof.
  unfold aggregateSpacing.
  destruct (spacingPropertiesToMap st); simpl; [by rewrite app_nil_r|done].
Qed.

Lemma aggregate_result cx w st :
  run_result (aggregateSpacing cx w st)
  = addMapped (length (spacingPropertiesToMap st)) (result st).
Proof.
  unfold aggregateSpacing.
  destruct (spacingPropertiesToMap st); simpl; [by rewrite addMapped_0|done].
Qed.

Lemma processWidgetRun_processed C w dn dt mn csv :
  processed w = true ->
  processWidgetRun C w dn dt mn csv
  = foldl execSetWidgetProp
      (execRemove (analyseWidget C w dn mn csv)
         (execModify (analyseWidget C w dn mn csv)
            (aggregateSpacing (widgetCtx w dn mn) w
               (analyseWidget C w dn mn csv))))
      (toSetWidgetProp (analyseWidget C w dn mn csv)).
Proof. intros H. unfold processWidgetRun. by rewrite H. Qed.

Lemma derefs_app_l l l' refs :
  (forall i, i ∈ refs -> i < length l) ->
  derefs (l ++ l') refs = derefs l refs.
Proof.
  intros H. unfold derefs. apply list_omap_ext.
  apply Forall2_same_length_lookup_2; [done|].
  intros j i i' Hi Hi'. assert (i' = i) as -> by congruence.
  apply lookup_app_l, H. by eapply list_elem_of_lookup_2.
Qed.

Lemma derefs_seq l : derefs l (seq 0 (length l)) = l.
Proof.
  induction l as [|x l IH] using rev_ind; [done|].
  rewrite length_app. simpl. rewrite seq_app. simpl.
  unfold derefs. rewrite omap_app. fold (derefs (l ++ [x]) (seq 0 (length l))).
  rewrite derefs_app_l by (intros i Hi; apply elem_of_seq in Hi; lia).
  rewrite IH. simpl. rewrite lookup_app_r by lia.
  by rewrite Nat.sub_diag.
Qed.

Lemma processWidgetRun_skipped C w dn dt mn csv :
  processed w = false ->
  processWidget C w dn dt mn csv = (w, csv, zeroResult).
Proof.
  intros H. unfold processWidget, processWidgetRun. rewrite H. simpl.
  unfold finalWidget. simpl. rewrite derefs_seq. by destruct w.
Qed.

(** Counters, rows, store and property list at the end of the run. *)
Lemma processWidgetRun_final C w dn dt mn csv :
  processed w = true ->
  let cx := widgetCtx w dn mn in
  let st := analyseWidget C w dn mn csv in
  let run := processWidgetRun C w dn dt mn csv in
  run_csv run = csvData st ++ map (spacingRow cx) (spacingPropertiesToMap st)
  /\ run_result run
     = addMapped (length (spacingPropertiesToMap st)) (result st)
  /\ run_objs run
     = foldl (fun objs it => applyMapping objs (fst it) (snd it))
             (run_objs (aggregateSpacing cx w st)) (toModify st)
  /\ (forall i, i ∈ run_refs run ->
        i ∈ run_refs (aggregateSpacing cx w st)
        /\ (i ∉ map fst (toRemove st))
        /\ (i ∉ map (fun item => fst (si_prop item))
                    (spacingPropertiesToMap st)))
  /\ (forall i, i ∈ run_refs (aggregateSpacing cx w st) ->
        i ∉ map fst (toRemove st) ->
        i ∉ map (fun item => fst (si_prop item))
                (spacingPropertiesToMap st) ->
        i ∉ map (fun it : PropRef * PropertyMappingV2 => fst (fst it))
                (toSetWidgetProp st) ->
        i ∈ run_refs run).
Proof.
  intros Hp cx st run. unfold run. rewrite processWidgetRun_processed by done.
  fold cx. fold st.
  destruct (foldl_execSetWidgetProp
              (execRemove st (execModify st (aggregateSpacing cx w st)))
              (toSetWidgetProp st)) as (F1 & F2 & F3 & F4 & F5 & F6).
  rewrite F1, F2, F3. simpl.
  split; [apply aggregate_csv|]. split; [apply aggregate_result|].
  split; [done|]. split.
  - intros i Hi. apply F5 in Hi. simpl in Hi.
    apply elem_of_foldl_listRemove in Hi as [Hi Hn]. split; [done|].
    rewrite elem_of_allPropsToRemove in Hn. tauto.
  - intros i Hi N2 N3 N4. apply F6; [|done].
    simpl. apply elem_of_foldl_listRemove. split; [done|].
    rewrite elem_of_allPropsToRemove. tauto.
Qed.

(** No property object sits in two queues, nor twice in one. *)
Lemma analyseWidget_queued C w dn mn csv :
  let st := analyseWidget C w dn mn csv in
  NoDup (map fst (queuedRefs st))
  /\ (forall i p, (i, p) ∈ queuedRefs st -> designProperties w !! i = Some p).
Proof.
  simpl. unfold analyseWidget.
  destruct (analyse_queued C (widgetCtx w dn mn) csv
              (withRefs (designProperties w)) (withRefs_NoDup _)) as [Hnd Hsub].
  split.
  - apply NoDup_fmap_2_strong; [|done].
    intros [i p] [j q] Hi Hj Heq. simpl in Heq. subst j.
    apply Hsub in Hi, Hj. f_equal. by eapply withRefs_functional.
  - intros i p Hin. by apply elem_of_withRefs, Hsub.
Qed.

Lemma queued_indices st :
  map fst (queuedRefs st)
  = map (fun it : PropRef * PropertyMappingV2 => fst (fst it)) (toModify st)
    ++ map fst (toRemove st)
    ++ map (fun item => fst (si_prop item)) (spacingPropertiesToMap st)
    ++ map (fun it : PropRef * PropertyMappingV2 => fst (fst it))
           (toSetWidgetProp st).
Proof. unfold queuedRefs. by rewrite !map_app, !map_map. Qed.

(** A property that is in no queue keeps its object, and stays in the
    property list unless it is the existing [Spacing] property that the
    aggregation replaces. *)
Lemma unqueued_property_final C w dn dt mn csv i p :
  processed w = true ->
  designProperties w !! i = Some p ->
  let st := analyseWidget C w dn mn csv in
  let run := processWidgetRun C w dn dt mn csv in
  i ∉ map fst (queuedRefs st) ->
  run_objs run !! i = Some p
  /\ (i ∈ run_refs run <->
      ~ (spacingPropertiesToMap st ≠ []
         /\ exists e, findExistingSpacing (designProperties w) = Some e
                      /\ fst e = i)).
Proof.
  intros Hp Hi st run Hn.
  destruct (processWidgetRun_final C w dn dt mn csv Hp)
    as (_ & _ & Hobjs & Hsub & Hkeep).
  fold st in Hobjs, Hsub, Hkeep. fold run in Hobjs, Hsub, Hkeep.
  rewrite queued_indices, !not_elem_of_app in Hn.
  destruct Hn as (N1 & N2 & N3 & N4).
  assert (Hlt : i < length (designProperties w)) by by eapply lookup_lt_Some.
  split.
  - rewrite Hobjs, foldl_applyMapping_other by done.
    by rewrite aggregate_objs_lookup.
  - split.
    + intros Hin [Hne (e & He & Hei)].
      apply Hsub in Hin as [Hin _]. apply aggregate_refs in Hin.
      destruct (spacingPropertiesToMap st); [done|].
      destruct Hin as [_ Hin]. by apply (Hin e).
    + intros Hno. apply Hkeep; try done.
      apply aggregate_refs.
      destruct (spacingPropertiesToMap st) as [|it its] eqn:E; [done|].
      split; [lia|]. intros e He Heq. apply Hno. split; [done|].
      exists e. done.
Qed.

Lemma queued_index_lt C w dn mn csv i :
  i ∈ map fst (queuedRefs (analyseWidget C w dn mn csv)) ->
  i < length (designProperties w).
Proof.
  intros ([j p] & -> & Hin)%list_elem_of_fmap.
  destruct (analyseWidget_queued C w dn mn csv) as [_ Hq].
  apply Hq in Hin. by eapply lookup_lt_Some.
Qed.

(** After a run that aggregated contributions, the new [Spacing] property
    is the last object of the store and is in the widget's property list,
    and the existing [Spacing] property is no longer in the list. *)
Lemma aggregated_spacing_in_widget C w dn dt mn csv :
  processed w = true ->
  let st := analyseWidget C w dn mn csv in
  let run := processWidgetRun C w dn dt mn csv in
  let ps := designProperties w in
  spacingPropertiesToMap st ≠ [] ->
  run_objs run !! length ps
  = Some (newSpacingProp
            (fst (mergeSpacing (snd <$> findExistingSpacing ps)
                               (spacingPropertiesToMap st))))
  /\ length ps ∈ run_refs run
  /\ (forall e, findExistingSpacing ps = Some e -> fst e ∉ run_refs run).
Proof.
  intros Hp st run ps Hne.
  destruct (processWidgetRun_final C w dn dt mn csv Hp)
    as (_ & _ & Hobjs & Hsub & Hkeep).
  fold st in Hobjs, Hsub, Hkeep. fold run in Hobjs, Hsub, Hkeep.
  assert (Hq : length ps ∉ map fst (queuedRefs st)).
  { intros Hin. apply queued_index_lt in Hin. unfold ps in Hin. lia. }
  rewrite queued_indices, !not_elem_of_app in Hq.
  destruct Hq as (N1 & N2 & N3 & N4).
  assert (Hfind : forall e, findExistingSpacing ps = Some e -> fst e < length ps).
  { intros [i p] He. apply list_find_Some in He as (He & _).
    by eapply lookup_lt_Some. }
  split; [|split].
  - rewrite Hobjs, foldl_applyMapping_other by done.
    unfold aggregateSpacing. fold ps.
    destruct (spacingPropertiesToMap st) as [|it its] eqn:E; [done|]. simpl.
    rewrite lookup_app_r by lia. by rewrite Nat.sub_diag.
  - apply Hkeep; try done. apply aggregate_refs. fold ps.
    destruct (spacingPropertiesToMap st) as [|it its] eqn:E; [done|].
    split; [lia|]. intros e He. apply Hfind in He. lia.
  - intros e He Hin. apply Hsub in Hin as (Hin & _).
    apply aggregate_refs in Hin. fold ps in Hin.
    destruct (spacingPropertiesToMap st) as [|it its] eqn:E; [done|].
    destruct Hin as [_ Hin]. by apply (Hin e).
Qed.

(** ** Spacing aggregation *)

(** C3. For a widget that carries a compound "Spacing" property and
    queued spacing contributions: the state is seeded from the parsed
    existing sides; a contribution writes its own (kind, side) slot and no
    other side; every side of the parsed state other than "None" that no
    contribution targets is in the final compound value with its value,
    in particular the side of an existing entry with a kind-side key and
    an option value; every entry of the final compound value is either
    such a preserved side or the value of a contribution (existing
    margin-top = Small with one padding.left contribution gives
    margin-top = Small and padding-left = the new value and nothing
    else); an existing entry whose key is not of the kind-side form is
    ignored.  In the widget, the existing property is the first one of
    the property list that is named "Spacing"; the new compound value is
    the value of the new "Spacing" property, which is in the property
    list after the run, while the existing one is not. *)
Theorem spacing_aggregation_preserves_existing
    (p : DesignPropertyValue) (entries : list (string * PropValue))
    (items : list SpacingItem) :
  pvalue p = VCompound entries ->
  let st := fst (mergeSpacing (Some p) items) in
  (forall k d, d ∈ sides ->
     slot k d (seedState (Some p))
     = slot k d (foldl parseEntry emptyState entries))
  /\ (forall l item k d,
        d ∈ sides ->
        slot k d (fst (mergeSpacing (Some p) (l ++ [item])))
        = if decide (targets k d item) then Some (itemVal item)
          else slot k d (fst (mergeSpacing (Some p) l)))
  /\ (forall k d v,
        d ∈ sides ->
        slot k d (foldl parseEntry emptyState entries) = Some v ->
        v ≠ "None" ->
        (forall item, item ∈ items -> ~ targets k d item) ->
        (slotKey k d, VOption v) ∈ materialize st)
  /\ (forall k d v l1 l2,
        d ∈ sides -> truthy v = true -> v ≠ "None" ->
        entries = l1 ++ (slotKey k d, VOption v) :: l2 ->
        slotKey k d ∉ map fst l2 ->
        (forall item, item ∈ items -> ~ targets k d item) ->
        (slotKey k d, VOption v) ∈ materialize st)
  /\ (forall e, e ∈ materialize st ->
        exists k d v, d ∈ sides /\ v ≠ "None"
          /\ e = (slotKey k d, VOption v)
          /\ ((exists item, item ∈ items /\ targets k d item
                            /\ itemVal item = v)
              \/ ((forall item, item ∈ items -> ~ targets k d item)
                  /\ (slotKey k d, VOption v) ∈ entries)))
  /\ (forall item v,
        p = {| key := "Spacing";
               pvalue := VCompound [("margin-top", VOption "Small")] |} ->
        items = [item] -> targets KPadding "left" item ->
        itemVal item = v -> v ≠ "None" ->
        materialize st
        = [("margin-top", VOption "Small"); ("padding-left", VOption v)])
  /\ (forall l1 e l2,
        entries = l1 ++ e :: l2 ->
        (forall k d, d ∈ sides -> fst e ≠ slotKey k d) ->
        parseSpacingState (Some p)
        = Some (foldl parseEntry emptyState (l1 ++ l2)))
  /\ (forall C w dn dt mn csv i,
        processed w = true ->
        designProperties w !! i = Some p ->
        key p = "Spacing" ->
        (forall j q, designProperties w !! j = Some q -> j < i ->
                     key q ≠ "Spacing") ->
        spacingPropertiesToMap (analyseWidget C w dn mn csv) = items ->
        items ≠ [] ->
        run_objs (processWidgetRun C w dn dt mn csv)
          !! length (designProperties w)
        = Some {| key := "Spacing"; pvalue := VCompound (materialize st) |}
        /\ length (designProperties w)
           ∈ run_refs (processWidgetRun C w dn dt mn csv)
        /\ (i ∉ run_refs (processWidgetRun C w dn dt mn csv))
        /\ {| key := "Spacing"; pvalue := VCompound (materialize st) |}
           ∈ designProperties (fst (fst (processWidget C w dn dt mn csv)))).
Proof.
  intros Hp st.
  split; [|split; [|split; [|split; [|split; [|split; [|split]]]]]].
  - intros k d Hd. by apply seedState_compound.
  - intros l item k d Hd. rewrite mergeSpacing_snoc_fst, slot_writeSlot by done.
    unfold targets. by repeat case_decide.
  - intros k d v Hd Hs Hn Hitems.
    apply elem_of_materialize; [apply sidesPresent_merge|].
    exists k, d, v. split; [done|]. split; [|done].
    unfold st. rewrite slot_merge_untargeted by done.
    by rewrite (seedState_compound p _ k d Hp Hd).
  - intros k d v l1 l2 Hd Hv Hn -> Hl2 Hitems.
    apply elem_of_materialize; [apply sidesPresent_merge|].
    exists k, d, v. split; [done|]. split; [|done].
    unfold st. rewrite slot_merge_untargeted by done.
    rewrite (seedState_compound p _ k d Hp Hd).
    rewrite foldl_app. cbn [foldl]. rewrite slot_parse_other by done.
    rewrite parseEntry_hit by done. rewrite slot_setSlot.
    by rewrite decide_True.
  - intros e He.
    apply elem_of_materialize in He as (k & d & v & Hd & Hs & Hn & ->);
      [|apply sidesPresent_merge].
    exists k, d, v. repeat split; try done.
    unfold st in Hs. rewrite slot_merge in Hs by done.
    destruct (last (filter (targets k d) items)) as [item|] eqn:El.
    + left. exists item. injection Hs as Hs.
      apply last_Some_elem_of, list_elem_of_filter in El as [Ht Hin].
      done.
    + right. apply last_None in El. split.
      * intros item Hin Ht.
        assert (item ∈ filter (targets k d) items) as Hf
          by by apply list_elem_of_filter.
        rewrite El in Hf. by apply elem_of_nil in Hf.
      * rewrite (seedState_compound p _ k d Hp Hd) in Hs.
        apply slot_parse_origin in Hs as [?|?]; done.
  - intros item v -> -> Ht Hv Hn. unfold st.
    rewrite materialize_slots.
    rewrite !slot_merge by (apply (bool_decide_unpack _); by vm_compute).
    rewrite !filter_cons, !filter_nil.
    rewrite (decide_True (P := targets KPadding "left" item)) by done.
    destruct Ht as [Ht1 Ht2].
    rewrite !decide_False by (unfold targets; rewrite Ht1, Ht2; by intros [??]).
    cbn [last]. rewrite Hv.
    repeat match goal with
           | |- context [slot ?k ?d (seedState ?e)] =>
               let r := eval vm_compute in (slot k d (seedState e)) in
               change (slot k d (seedState e)) with r
           end.
    apply String.eqb_neq in Hn. unfold addInnerProp. rewrite Hn.
    reflexivity.
  - intros l1 e l2 -> He. unfold parseSpacingState. rewrite Hp.
    rewrite !foldl_app. cbn [foldl].
    destruct (parseEntry_cases (foldl parseEntry emptyState l1) e)
      as [->|(k&d&v&Hd&_&->&_)]; [done|].
    exfalso. by apply (He k d).
  - intros C w dn dt mn csv i Hproc Hi Hkey Hfirst Hitems Hne.
    assert (Hfind : findExistingSpacing (designProperties w) = Some (i, p)).
    { unfold findExistingSpacing. apply list_find_Some.
      split; [done|]. split; [done|]. intros j q Hj Hlt.
      by apply (Hfirst j q). }
    destruct (aggregated_spacing_in_widget C w dn dt mn csv Hproc)
      as (R1 & R2 & R3); [by rewrite Hitems|].
    rewrite Hfind, Hitems in R1. split; [exact R1|]. split; [exact R2|].
    split; [exact (R3 _ Hfind)|].
    unfold processWidget. cbn [fst finalWidget setDesignProperties
                               designProperties].
    unfold derefs. apply list_elem_of_omap.
    exists (length (designProperties w)). split; [exact R2|exact R1].
Qed.

Lemma spacing_aggregation_preserves_existing_witness :
  let run := processWidgetRun paddingCatalog widgetMarginPadding
                              "App.Home" "Page" "App" [] in
  processed widgetMarginPadding = true
  /\ spacingPropertiesToMap
       (analyseWidget paddingCatalog widgetMarginPadding "App.Home" "App" [])
     = [contribPaddingLeft]
  /\ run_objs run !! 2
     = Some {| key := "Spacing";
               pvalue := VCompound [("margin-top", VOption "Small");
                                    ("padding-left", VOption "L")] |}
  /\ 2 ∈ run_refs run
  /\ (0 ∉ run_refs run)
  /\ {| key := "Spacing";
        pvalue := VCompound [("margin-top", VOption "Small");
                             ("padding-left", VOption "L")] |}
     ∈ designProperties
         (fst (fst (processWidget paddingCatalog widgetMarginPadding
                      "App.Home" "Page" "App" []))).
Proof.
  intros run.
  assert (H1 : pvalue existingMarginTop
               = VCompound [("margin-top", VOption "Small")]) by reflexivity.
  assert (H2 : targets KPadding "left" contribPaddingLeft) by by vm_compute.
  assert (H3 : itemVal contribPaddingLeft = "L") by by vm_compute.
  assert (H4 : "L" ≠ "None") by by vm_compute.
  assert (H5 : processed widgetMarginPadding = true) by by vm_compute.
  assert (H6 : spacingPropertiesToMap
                 (analyseWidget paddingCatalog widgetMarginPadding
                                "App.Home" "App" [])
               = [contribPaddingLeft]) by by vm_compute.
  assert (H7 : designProperties widgetMarginPadding !! 0
               = Some existingMarginTop) by reflexivity.
  assert (H8 : forall j q, designProperties widgetMarginPadding !! j = Some q ->
                 j < 0 -> key q ≠ "Spacing") by (intros j q _ Hlt; lia).
  assert (H9 : [contribPaddingLeft] ≠ []) by done.
  split; [exact H5|]. split; [exact H6|].
  destruct (spacing_aggregation_preserves_existing existingMarginTop
              [("margin-top", VOption "Small")] [contribPaddingLeft] H1)
    as (_ & _ & _ & _ & _ & Hex & _ & Hw).
  rewrite <- (Hex contribPaddingLeft "L" eq_refl eq_refl H2 H3 H4).
  exact (Hw paddingCatalog widgetMarginPadding "App.Home" "Page" "App" [] 0
            H5 H7 eq_refl H8 H6 H9).
Defined.

(** C8, as stated, fails: the two native properties of
    [widgetTwoMargins] both contribute the value "S" to the top margin;
    the second contribution overwrites "S" with "S", and its trace line
    does not show the previous value, while the line of the first, which
    overwrites "None", does. *)
Lemma spacing_trace_omits_identical_previous :
  let st := analyseWidget sampleCatalog widgetTwoMargins "App.Home" "App" [] in
  let run := processWidgetRun sampleCatalog widgetTwoMargins
                              "App.Home" "Page" "App" [] in
  spacingPropertiesToMap st = [contribMarginTop; contribMarginVertical]
  /\ slot KMargin "top" (fst (mergeSpacing None [contribMarginTop]))
     = Some "S"
  /\ targets KMargin "top" contribMarginVertical
  /\ itemVal contribMarginVertical = "S"
  /\ exists line1 line2,
       run_log run = [line1; line2]
       /\ snd (mergeSpacing None [contribMarginTop; contribMarginVertical])
          = [line1; line2]
       /\ logsPrevious line1 = true
       /\ logsPrevious line2 = false.
Proof.
  intros st run.
  split; [by vm_compute|]. split; [by vm_compute|]. split; [by vm_compute|].
  split; [by vm_compute|].
  eexists _, _. split; [by vm_compute|]. split; [by vm_compute|].
  split; by vm_compute.
Qed.

(** C8, amended. The queue holds the contributions in the order of the
    property list, and they are applied in the order of the queue: each
    writes its own slot, so a slot ends with the value of the last
    contribution that targets it; the trace line of a
    contribution shows the previous value of the slot exactly when that
    value differs from the new one, and nothing about it when the two are
    identical.  This is stated for the slots of the box model, that is,
    for a contribution whose direction is one of the four sides. *)
Theorem spacing_contributions_overwrite_in_order
    (e : option DesignPropertyValue) (l1 l2 : list SpacingItem)
    (item : SpacingItem) :
  let k := si_spacingType item in
  let d := itemDir item in
  let old := slot k d (fst (mergeSpacing e l1)) in
  d ∈ sides ->
  slot k d (fst (mergeSpacing e (l1 ++ [item]))) = Some (itemVal item)
  /\ ((forall later, later ∈ l2 -> ~ targets k d later) ->
      slot k d (fst (mergeSpacing e (l1 ++ item :: l2)))
      = Some (itemVal item))
  /\ (forall later l3 l4,
        l2 = l3 ++ later :: l4 -> targets k d later ->
        (forall x, x ∈ l4 -> ~ targets k d x) ->
        slot k d (fst (mergeSpacing e (l1 ++ item :: l2)))
        = Some (itemVal later))
  /\ snd (mergeSpacing e (l1 ++ item :: l2)) !! length l1
     = Some (spacingLogBase item +:+ wasSuffix old (itemVal item))
  /\ (old = Some (itemVal item) -> wasSuffix old (itemVal item) = "")
  /\ (old ≠ Some (itemVal item) ->
      wasSuffix old (itemVal item) = " (was: " +:+ jsShow old +:+ ")")
  /\ (forall C cx csv refs,
        map si_prop (spacingPropertiesToMap (analyse C cx csv refs))
        = filter (isContribution C cx) refs).
Proof.
  intros k d old Hd.
  assert (Hlast : forall pre x post,
            targets k d x -> (forall y, y ∈ post -> ~ targets k d y) ->
            slot k d (fst (mergeSpacing e (pre ++ x :: post)))
            = Some (itemVal x)).
  { intros pre x post Hx Hpost.
    rewrite slot_merge, filter_app, filter_cons by done.
    rewrite decide_True by done.
    replace (filter (targets k d) post) with (@nil SpacingItem).
    - by rewrite last_snoc.
    - symmetry. clear -Hpost. induction post as [|y post IH]; [done|].
      rewrite filter_cons, decide_False by (apply Hpost; by left).
      apply IH. intros ? ?. apply Hpost. by right. }
  split; [|split; [|split; [|split; [|split; [|split]]]]].
  - apply (Hlast l1 item []); [done|]. intros y Hy. by apply elem_of_nil in Hy.
  - intros Hl2. by apply Hlast.
  - intros later l3 l4 -> Hlater Hl4.
    replace (l1 ++ item :: l3 ++ later :: l4)
      with ((l1 ++ item :: l3) ++ later :: l4) by (by rewrite <- app_assoc).
    by apply Hlast.
  - rewrite mergeSpacing_trace_lookup. fold k. fold d.
    destruct (sidesPresent_merge e l1 k d Hd) as [v Hv].
    rewrite (readSlot_side k d _ v Hv). unfold old. rewrite Hv. reflexivity.
  - intros H. unfold wasSuffix. by rewrite bool_decide_eq_true_2.
  - intros H. unfold wasSuffix. by rewrite bool_decide_eq_false_2.
  - intros C cx csv refs. apply spacing_queue_order.
Qed.

Lemma spacing_contributions_overwrite_in_order_witness :
  itemDir contribMarginVertical ∈ sides
  /\ slot KMargin "top" (fst (mergeSpacing None [contribMarginTop])) = Some "S"
  /\ slot KMargin "top"
       (fst (mergeSpacing None [contribMarginTop; contribMarginVertical]))
     = Some "S"
  /\ wasSuffix (Some "S") "S" = "".
Proof.
  assert (H0 : itemDir contribMarginVertical ∈ sides)
    by (apply (bool_decide_unpack _); by vm_compute).
  assert (H1 : slot KMargin "top" (fst (mergeSpacing None [contribMarginTop]))
               = Some (itemVal contribMarginVertical)) by by vm_compute.
  split; [exact H0|]. split; [exact H1|].
  destruct (spacing_contributions_overwrite_in_order None
              [contribMarginTop] [] contribMarginVertical H0)
    as (_ & R2 & _ & _ & R5 & _ & _).
  split.
  - apply R2. intros later Hl. by apply elem_of_nil in Hl.
  - rewrite <- H1 at 1. exact (R5 H1).
Defined.

(** C7. Every spacing contribution that the analysis of a processed
    widget queues comes from a property of the widget; the run records
    that property, by its name and its value, in a row with decision
    "mapped", target "Spacing" and the slot and value of the
    contribution, and every row of the run
    about that property name and value has decision "mapped"; the
    property is not in the removal queue and its iteration leaves the
    counters [removed] and [mapped] alone (it is counted in [mapped] by the
    aggregation: [removed] is the length of the removal queue, [mapped]
    the number of rewrites plus the number of contributions); and at the
    end of the run the property is no longer in the widget's property
    list. *)
Theorem spacing_contribution_recorded_mapped
    (C : Catalog) (w : Widget) (dn dt mn : string) (csv : list CsvDataRow)
    (item : SpacingItem) :
  processed w = true ->
  let cx := widgetCtx w dn mn in
  let st := analyseWidget C w dn mn csv in
  let run := processWidgetRun C w dn dt mn csv in
  item ∈ spacingPropertiesToMap st ->
  designProperties w !! fst (si_prop item) = Some (snd (si_prop item))
  /\ (exists rows,
        run_csv run = csv ++ rows
        /\ {| csv_element := orElse (attrs w !! "name") "Unnamed";
              csv_elementType := getWidgetTypeName w;
              csv_document := dn; csv_module := mn;
              csv_property := key (snd (si_prop item));
              csv_value := extractPropertyValue (snd (si_prop item));
              csv_action := Mapped;
              csv_mappedProperty := Some "Spacing";
              csv_mappedValue :=
                Some (kindName (si_spacingType item) +:+ "."
                      +:+ si_direction item +:+ "="
                      +:+ orElse (mappedValue (si_mapping item)) "");
              csv_reason := None |} ∈ rows
        /\ forall row, row ∈ rows ->
             csv_property row = key (snd (si_prop item)) ->
             csv_value row = extractPropertyValue (snd (si_prop item)) ->
             csv_action row = Mapped)
  /\ (fst (si_prop item) ∉ map fst (toRemove st))
  /\ (forall s, analyseProp C cx s (si_prop item)
                = doCollectSpacing (countProp s) (si_prop item)
                                   (si_mapping item))
  /\ removed (run_result run) = length (toRemove st)
  /\ mapped (run_result run)
     = length (toModify st) + length (spacingPropertiesToMap st)
  /\ (fst (si_prop item) ∉ run_refs run).
Proof.
  intros Hp cx st run Hitem.
  destruct (analyse_queues C cx csv (withRefs (designProperties w)))
    as (_ & _ & Q3 & _).
  destruct (Q3 item Hitem) as (Hin & Hr & Hres & Ha & Hs & Hdir).
  destruct (processWidgetRun_final C w dn dt mn csv Hp)
    as (Hcsv & Hresult & _ & Hsub & _).
  fold cx in Hcsv. fold st in Hcsv, Hresult, Hsub. fold run in Hcsv, Hresult, Hsub.
  destruct (analyseWidget_queued C w dn mn csv) as [Hnd Hq]. fold st in Hnd, Hq.
  assert (Hidx : fst (si_prop item)
                 ∈ map (fun item => fst (si_prop item))
                       (spacingPropertiesToMap st)).
  { apply list_elem_of_fmap. by exists item. }
  split; [|split; [|split; [|split; [|split; [|split]]]]].
  - destruct (si_prop item) as [i p]. by apply elem_of_withRefs.
  - destruct (analyse_rows C cx csv (withRefs (designProperties w)))
      as (rows & Heq & Hrows).
    exists (rows ++ map (spacingRow cx) (spacingPropertiesToMap st)).
    split; [|split].
    + rewrite Hcsv. unfold st at 1, analyseWidget. fold cx. rewrite Heq.
      by rewrite app_assoc.
    + apply elem_of_app. right. apply list_elem_of_fmap. by exists item.
    + intros row [Hrow|Hrow]%elem_of_app Hk Hv.
      * destruct (Hrows row Hrow)
          as (_ & r & m & _ & _ & Hm & Hnot & Hk' & Hv').
        exfalso. apply Hnot.
        assert (m = si_mapping item) as ->; [|done].
        unfold resolved in Hm, Hres.
        rewrite <- Hk', <- Hv', Hk, Hv in Hm. congruence.
      * apply list_elem_of_fmap in Hrow as (item' & -> & _). done.
  - rewrite queued_indices in Hnd.
    apply NoDup_app in Hnd as (_ & _ & Hnd).
    apply NoDup_app in Hnd as (_ & Hdisj & _).
    intros Hrem. apply (Hdisj _ Hrem). apply elem_of_app. by left.
  - intros s. rewrite analyseProp_reaches by done.
    unfold resolved in Hres. by rewrite Hres, Ha, Hs.
  - rewrite Hresult. simpl.
    by destruct (analyse_counts C cx csv (withRefs (designProperties w)))
      as (_ & ? & _).
  - rewrite Hresult. simpl.
    destruct (analyse_counts C cx csv (withRefs (designProperties w)))
      as (Hm & _). unfold st, analyseWidget. fold cx. by rewrite Hm.
  - intros Hin'. by apply Hsub in Hin' as (_ & _ & Hn).
Qed.

Lemma spacing_contribution_recorded_mapped_witness :
  let cx := widgetCtx widgetSpacing "App.Home" "App" in
  let st := analyseWidget sampleCatalog widgetSpacing "App.Home" "App" [] in
  let run := processWidgetRun sampleCatalog widgetSpacing
                              "App.Home" "Page" "App" [] in
  let item :=
    {| si_prop := (1, {| key := "Margin top"; pvalue := VOption "Small" |});
       si_mapping := ruleMarginTop; si_direction := "top";
       si_spacingType := KMargin |} in
  processed widgetSpacing = true
  /\ item ∈ spacingPropertiesToMap st
  /\ {| csv_element := "container1"; csv_elementType := "DivContainer";
        csv_document := "App.Home"; csv_module := "App";
        csv_property := "Margin top"; csv_value := "Small";
        csv_action := Mapped; csv_mappedProperty := Some "Spacing";
        csv_mappedValue := Some "margin.top=S"; csv_reason := None |}
     ∈ run_csv run
  /\ (1 ∉ map fst (toRemove st))
  /\ removed (run_result run) = length (toRemove st)
  /\ (1 ∉ run_refs run).
Proof.
  intros cx st run item.
  assert (H1 : processed widgetSpacing = true) by by vm_compute.
  assert (H2 : item ∈ spacingPropertiesToMap st).
  { replace (spacingPropertiesToMap st) with [item] by by vm_compute.
    apply list_elem_of_here. }
  split; [exact H1|]. split; [exact H2|].
  destruct (spacing_contribution_recorded_mapped sampleCatalog widgetSpacing
              "App.Home" "Page" "App" [] item H1 H2)
    as (_ & (rows & Hrows & Hrow & _) & R3 & _ & R5 & _ & R7).
  split; [|split; [exact R3|split; [exact R5|exact R7]]].
  unfold run. rewrite Hrows. cbn [app]. exact Hrow.
Defined.

(** ** Properties that no rule applies to *)

Lemma queued_reaches C cx csv l r :
  r ∈ queuedRefs (analyse C cx csv l) ->
  reachesLookup C (snd r) = true /\ is_Some (resolved C cx r).
Proof.
  destruct (analyse_queues C cx csv l) as (Q1 & Q2 & Q3 & Q4).
  unfold queuedRefs. rewrite !elem_of_app.
  intros [H|[H|[H|H]]].
  - apply list_elem_of_fmap in H as ([r' m] & -> & H).
    destruct (Q1 _ _ H) as (_ & ? & ? & _). eauto.
  - destruct (Q2 _ H) as (_ & ? & m & ? & _). eauto.
  - apply list_elem_of_fmap in H as (item & -> & H).
    destruct (Q3 _ H) as (_ & ? & ? & _). eauto.
  - apply list_elem_of_fmap in H as ([r' m] & -> & H).
    destruct (Q4 _ _ H) as (_ & ? & ? & _). eauto.
Qed.

Lemma unresolved_not_queued C w dn mn csv i p :
  designProperties w !! i = Some p ->
  reachesLookup C p = false
  \/ resolved C (widgetCtx w dn mn) (i, p) = None ->
  i ∉ map fst (queuedRefs (analyseWidget C w dn mn csv)).
Proof.
  intros Hi Hno Hin. apply list_elem_of_fmap in Hin as ([j q] & Hj & Hin).
  simpl in Hj. subst j.
  destruct (analyseWidget_queued C w dn mn csv) as [_ Hq].
  pose proof (Hq _ _ Hin) as Hq'. assert (q = p) as -> by congruence.
  apply queued_reaches in Hin as [Hr [m Hm]]. simpl in *.
  destruct Hno; congruence.
Qed.

(** The counters [props] and [skipped] count the properties that reach
    the lookup, and those among them for which no rule resolves. *)
Lemma analyse_props_skipped C cx csv l :
  props (result (analyse C cx csv l))
  = length (filter (fun r => reachesLookup C (snd r) = true) l)
  /\ skipped (result (analyse C cx csv l))
     = length (filter (fun r => reachesLookup C (snd r) = true
                                /\ resolved C cx r = None) l).
Proof.
  induction l as [|x l [IH1 IH2]] using rev_ind; [done|].
  rewrite analyse_snoc, !filter_app, !length_app, !filter_cons, !filter_nil.
  destruct (analyseProp_case C cx (analyse C cx csv l) x) as
    [Hr|Hr Hf|m Hr Hf Ha|m Hr Hf Ha Hs|m Hr Hf Ha Hs Ht Hc|m Hr Hf Ha Hs Hc
    |m Hr Hf Ha]; simpl.
  - rewrite decide_False by congruence.
    rewrite decide_False by (intros [? ?]; congruence). simpl. split; lia.
  - rewrite !decide_True by done. simpl. split; lia.
  - rewrite decide_True by done.
    rewrite decide_False by (intros [? ?]; congruence). simpl. split; lia.
  - rewrite decide_True by done.
    rewrite decide_False by (intros [? ?]; congruence). simpl. split; lia.
  - rewrite decide_True by done.
    rewrite decide_False by (intros [? ?]; congruence). simpl. split; lia.
  - rewrite decide_True by done.
    rewrite decide_False by (intros [? ?]; congruence). simpl. split; lia.
  - rewrite decide_True by done.
    rewrite decide_False by (intros [? ?]; congruence). simpl. split; lia.
Qed.

Lemma reachesLookup_value C p :
  reachesLookup C p = true -> extractPropertyValue p ≠ "".
Proof.
  unfold reachesLookup, truthy. intros H Heq. rewrite Heq in H.
  by rewrite andb_false_r in H.
Qed.

(** No row of the run is about a property with an empty value, and no
    row has the decision "skipped". *)
Lemma run_rows C w dn dt mn csv :
  processed w = true ->
  exists rows,
    run_csv (processWidgetRun C w dn dt mn csv) = csv ++ rows
    /\ forall row, row ∈ rows ->
         csv_value row ≠ "" /\ csv_action row ≠ Skipped.
Proof.
  intros Hp.
  destruct (processWidgetRun_final C w dn dt mn csv Hp) as (Hcsv & _).
  destruct (analyse_rows C (widgetCtx w dn mn) csv
              (withRefs (designProperties w))) as (rows & Heq & Hrows).
  destruct (analyse_queues C (widgetCtx w dn mn) csv
              (withRefs (designProperties w))) as (_ & _ & Q3 & _).
  exists (rows ++ map (spacingRow (widgetCtx w dn mn))
            (spacingPropertiesToMap (analyseWidget C w dn mn csv))).
  split.
  - rewrite Hcsv. unfold analyseWidget at 1. rewrite Heq.
    by rewrite app_assoc.
  - intros row [Hin|Hin]%elem_of_app.
    + destruct (Hrows row Hin) as (Ha & r & m & _ & Hr & _ & _ & _ & Hv).
      split; [|done]. rewrite Hv. by apply (reachesLookup_value C).
    + apply list_elem_of_fmap in Hin as (item & -> & Hin). simpl.
      destruct (Q3 item Hin) as (_ & Hr & _).
      split; [|done]. by apply (reachesLookup_value C).
Qed.

(** C9, as stated, fails: the first property of [widgetEmptySpacing] is
    keyed "Spacing", a name that has a rule, and its option value is
    empty; the native top margin next to it is aggregated into a new
    [Spacing] property, and the empty-valued property is removed from the
    widget instead of being left unchanged. *)
Lemma empty_spacing_property_replaced :
  let p := {| key := "Spacing"; pvalue := VOption "" |} in
  let run := processWidgetRun sampleCatalog widgetEmptySpacing
                              "App.Home" "Page" "App" [] in
  processed widgetEmptySpacing = true
  /\ designProperties widgetEmptySpacing !! 0 = Some p
  /\ extractPropertyValue p = ""
  /\ key p ∈ MAPPED_PROPERTY_NAMES sampleCatalog
  /\ (0 ∉ run_refs run)
  /\ designProperties (finalWidget run)
     = [ {| key := "Spacing";
            pvalue := VCompound [("margin-top", VOption "S")] |} ].
Proof.
  intros p run.
  split; [by vm_compute|]. split; [by vm_compute|]. split; [by vm_compute|].
  split; [apply (bool_decide_unpack _); by vm_compute|].
  split; [apply (bool_decide_unpack _); by vm_compute|].
  by vm_compute.
Qed.

(** C9, amended. A design property of a processed widget whose extracted
    value is the empty string is passed over before any rule lookup,
    whatever rules exist for its name: the iteration leaves the whole
    analysis state as it is, so the property is not counted ([props]
    counts the properties that reach the lookup), is in no queue, and no
    audit row of the run is about it; its object is not written, and it
    stays in the widget's property list unless it is the widget's existing
    "Spacing" property and spacing contributions are aggregated, in which
    case the new "Spacing" property replaces it. *)
Theorem empty_value_property_passed_over
    (C : Catalog) (w : Widget) (dn dt mn : string) (csv : list CsvDataRow)
    (i : nat) (p : DesignPropertyValue) :
  processed w = true ->
  designProperties w !! i = Some p ->
  extractPropertyValue p = "" ->
  let cx := widgetCtx w dn mn in
  let st := analyseWidget C w dn mn csv in
  let run := processWidgetRun C w dn dt mn csv in
  (forall s, analyseProp C cx s (i, p) = s)
  /\ props (run_result run)
     = length (filter (fun r => reachesLookup C (snd r) = true)
                      (withRefs (designProperties w)))
  /\ reachesLookup C p = false
  /\ (i ∉ map fst (queuedRefs st))
  /\ (exists rows, run_csv run = csv ++ rows
        /\ forall row, row ∈ rows -> csv_value row ≠ extractPropertyValue p)
  /\ run_objs run !! i = Some p
  /\ (i ∈ run_refs run <->
      ~ (spacingPropertiesToMap st ≠ []
         /\ exists e, findExistingSpacing (designProperties w) = Some e
                      /\ fst e = i)).
Proof.
  intros Hp Hi Hv cx st run.
  assert (Hr : reachesLookup C p = false).
  { unfold reachesLookup. rewrite Hv. simpl. apply andb_false_r. }
  assert (Hq : i ∉ map fst (queuedRefs st))
    by (eapply unresolved_not_queued; eauto).
  split; [|split; [|split; [|split; [|split]]]].
  - intros s. by apply analyseProp_ignored.
  - unfold run.
    destruct (processWidgetRun_final C w dn dt mn csv Hp) as (_ & -> & _).
    destruct (analyse_props_skipped C cx csv (withRefs (designProperties w)))
      as [<- _].
    reflexivity.
  - done.
  - done.
  - destruct (run_rows C w dn dt mn csv Hp) as (rows & Heq & Hrows).
    exists rows. split; [done|]. intros row Hin. rewrite Hv.
    by apply Hrows.
  - by apply (unqueued_property_final C w dn dt mn csv i p).
Qed.

Lemma empty_value_property_passed_over_witness :
  let p := {| key := "Spacing"; pvalue := VOption "" |} in
  let cx := widgetCtx widgetEmptySpacing "App.Home" "App" in
  let run := processWidgetRun sampleCatalog widgetEmptySpacing
                              "App.Home" "Page" "App" [] in
  processed widgetEmptySpacing = true
  /\ designProperties widgetEmptySpacing !! 0 = Some p
  /\ extractPropertyValue p = ""
  /\ (forall s, analyseProp sampleCatalog cx s (0, p) = s)
  /\ run_objs run !! 0 = Some p.
Proof.
  intros p cx run.
  assert (H1 : processed widgetEmptySpacing = true) by by vm_compute.
  assert (H2 : designProperties widgetEmptySpacing !! 0 = Some p)
    by reflexivity.
  assert (H3 : extractPropertyValue p = "") by reflexivity.
  split; [exact H1|]. split; [exact H2|]. split; [exact H3|].
  destruct (empty_value_property_passed_over sampleCatalog widgetEmptySpacing
              "App.Home" "Page" "App" [] 0 p H1 H2 H3)
    as (R1 & _ & _ & _ & _ & R6 & _).
  split; [exact R1|exact R6].
Defined.

(** C6, as stated, fails: in [widgetUnknownProp] neither the existing
    "Spacing" property nor the property "Other" has an exact or a wildcard
    entry in the rule index.  "Other", whose name has no rule, is not
    counted: the skipped total is 1, not 2.  The only audit row of the run
    is the "mapped" row of the top margin.  And the existing "Spacing"
    property is not left unchanged: the aggregation replaces it. *)
Lemma unknown_property_not_recorded :
  let p0 := {| key := "Spacing";
               pvalue := VCompound [("padding-left", VOption "Large")] |} in
  let p2 := {| key := "Other"; pvalue := VOption "On" |} in
  let C := sampleCatalog in
  let t := getWidgetTypeName widgetUnknownProp in
  let run := processWidgetRun C widgetUnknownProp
                              "App.Home" "Page" "App" [] in
  processed widgetUnknownProp = true
  /\ designProperties widgetUnknownProp !! 0 = Some p0
  /\ designProperties widgetUnknownProp !! 2 = Some p2
  /\ MAPPINGS_LOOKUP C !! lookupKey (key p0) (extractPropertyValue p0) t = None
  /\ MAPPINGS_LOOKUP C !! lookupKey (key p0) (extractPropertyValue p0) "*"
     = None
  /\ MAPPINGS_LOOKUP C !! lookupKey (key p2) (extractPropertyValue p2) t = None
  /\ MAPPINGS_LOOKUP C !! lookupKey (key p2) (extractPropertyValue p2) "*"
     = None
  /\ skipped (run_result run) = 1
  /\ map csv_action (run_csv run) = [Mapped]
  /\ map csv_property (run_csv run) = ["Margin top"]
  /\ run_refs run = [2; 3]
  /\ designProperties (finalWidget run)
     = [ p2;
         {| key := "Spacing";
            pvalue := VCompound [("margin-top", VOption "S");
                                 ("padding-left", VOption "Large")] |} ].
Proof. intros p0 p2 C t run. repeat split; by vm_compute. Qed.

(** C6, amended. For a property of a processed widget for which neither
    the exact nor the wildcard key has an entry in the rule index: when
    its name has a rule and its extracted value is not empty, the
    iteration counts it in [props] and in [skipped] and touches nothing
    else ([skipped] counts exactly these properties); when its name has
    no rule at all, or it has no name, or its value is empty, the
    iteration does nothing at all.  Either way the property is in no
    queue, its object is not written, and it stays in the widget's
    property list unless it is the widget's existing "Spacing" property
    and spacing contributions are aggregated. *)
Theorem unmatched_property_counted_skipped
    (C : Catalog) (w : Widget) (dn dt mn : string) (csv : list CsvDataRow)
    (i : nat) (p : DesignPropertyValue) :
  processed w = true ->
  designProperties w !! i = Some p ->
  MAPPINGS_LOOKUP C
    !! lookupKey (key p) (extractPropertyValue p) (getWidgetTypeName w) = None ->
  MAPPINGS_LOOKUP C !! lookupKey (key p) (extractPropertyValue p) "*" = None ->
  let cx := widgetCtx w dn mn in
  let st := analyseWidget C w dn mn csv in
  let run := processWidgetRun C w dn dt mn csv in
  (reachesLookup C p = true ->
   forall s, analyseProp C cx s (i, p)
             = doSkip (countProp s) (key p) (extractPropertyValue p))
  /\ (reachesLookup C p = false -> forall s, analyseProp C cx s (i, p) = s)
  /\ skipped (run_result run)
     = length (filter (fun r => reachesLookup C (snd r) = true
                                /\ resolved C cx r = None)
                      (withRefs (designProperties w)))
  /\ (i ∉ map fst (queuedRefs st))
  /\ run_objs run !! i = Some p
  /\ (i ∈ run_refs run <->
      ~ (spacingPropertiesToMap st ≠ []
         /\ exists e, findExistingSpacing (designProperties w) = Some e
                      /\ fst e = i)).
Proof.
  intros Hp Hi He Hw cx st run.
  assert (Hres : resolved C cx (i, p) = None).
  { unfold resolved, findMapping. simpl. by rewrite He. }
  assert (Hq : i ∉ map fst (queuedRefs st))
    by (eapply unresolved_not_queued; eauto).
  split; [|split; [|split; [|split; [|split]]]].
  - intros Hr s. rewrite analyseProp_reaches by done.
    unfold resolved in Hres. simpl in *. by rewrite Hres.
  - intros Hr s. by apply analyseProp_ignored.
  - unfold run.
    destruct (processWidgetRun_final C w dn dt mn csv Hp) as (_ & -> & _).
    destruct (analyse_props_skipped C cx csv (withRefs (designProperties w)))
      as [_ <-].
    reflexivity.
  - done.
  - by apply (unqueued_property_final C w dn dt mn csv i p).
  - by apply (unqueued_property_final C w dn dt mn csv i p).
Qed.

Lemma unmatched_property_counted_skipped_witness :
  let p := {| key := "Spacing";
              pvalue := VCompound [("padding-left", VOption "Large")] |} in
  let cx := widgetCtx widgetSpacing "App.Home" "App" in
  let run := processWidgetRun sampleCatalog widgetSpacing
                              "App.Home" "Page" "App" [] in
  processed widgetSpacing = true
  /\ designProperties widgetSpacing !! 0 = Some p
  /\ MAPPINGS_LOOKUP sampleCatalog
       !! lookupKey (key p) (extractPropertyValue p)
                    (getWidgetTypeName widgetSpacing) = None
  /\ MAPPINGS_LOOKUP sampleCatalog
       !! lookupKey (key p) (extractPropertyValue p) "*" = None
  /\ reachesLookup sampleCatalog p = true
  /\ (forall s, analyseProp sampleCatalog cx s (0, p)
                = doSkip (countProp s) (key p) (extractPropertyValue p))
  /\ run_objs run !! 0 = Some p.
Proof.
  intros p cx run.
  assert (H1 : processed widgetSpacing = true) by by vm_compute.
  assert (H2 : designProperties widgetSpacing !! 0 = Some p) by reflexivity.
  assert (H3 : MAPPINGS_LOOKUP sampleCatalog
                 !! lookupKey (key p) (extractPropertyValue p)
                              (getWidgetTypeName widgetSpacing) = None)
    by by vm_compute.
  assert (H4 : MAPPINGS_LOOKUP sampleCatalog
                 !! lookupKey (key p) (extractPropertyValue p) "*" = None)
    by by vm_compute.
  assert (H5 : reachesLookup sampleCatalog p = true) by by vm_compute.
  split; [exact H1|]. split; [exact H2|]. split; [exact H3|].
  split; [exact H4|]. split; [exact H5|].
  destruct (unmatched_property_counted_skipped sampleCatalog widgetSpacing
              "App.Home" "Page" "App" [] 0 p H1 H2 H3 H4)
    as (R1 & _ & _ & _ & R5 & _).
  split; [exact (R1 H5)|exact R5].
Defined.

(** ** Destination conflicts *)






Lemma prefix_elem_of {A} (l1 l2 : list A) x :
  l1 `prefix_of` l2 -> x ∈ l1 -> x ∈ l2.
Proof. intros [k ->] H. apply elem_of_app. by left. Qed.






(** ** Confirmation and commit *)

(** C2, as stated, fails: in the sample model the rewrite of the first
    property and the removal of the colliding one are already in the
    working-copy model when the operator is asked, and they stay there
    when the operator declines; what declining prevents is the call of
    the backend. *)
Lemma mutations_applied_before_confirmation :
  let out := main (Some sampleRules) "token" "app-id" "main" false
                  sampleModel in
  out_asked out = true
  /\ out_backend out = []
  /\ pageWidgetProps sampleModel
     = [[ {| key := "Render children horizontal"; pvalue := VToggle |};
          {| key := "Justify content"; pvalue := VOption "Center" |} ]]
  /\ pageWidgetProps (rs_model (analyseModel sampleCatalog sampleModel))
     = [[ {| key := "Align content"; pvalue := VOption "Row" |} ]]
  /\ pageWidgetProps (out_model out)
     = [[ {| key := "Align content"; pvalue := VOption "Row" |} ]]
  /\ out_model out ≠ sampleModel
  /\ mapped (out_totals out) = 1 /\ removed (out_totals out) = 1.
Proof.
  intros out.
  split; [by vm_compute|]. split; [by vm_compute|]. split; [by vm_compute|].
  split; [by vm_compute|]. split; [by vm_compute|].
  split; [|split; by vm_compute].
  intros Heq. apply (f_equal pageWidgetProps) in Heq.
  vm_compute in Heq. discriminate Heq.
Qed.

Lemma visitWidget_widgetPropsMapped C dn tn mn acc w :
  widgetPropsMapped (snd (visitWidget C dn tn mn acc w))
  = widgetPropsMapped (snd acc).
Proof.
  destruct acc as [[ws csv] r]. unfold visitWidget.
  destruct (processWidget C w dn (typeNameOf tn) mn csv) as [[w' csv'] wr].
  simpl. by destruct (0 <? props wr).
Qed.

Lemma foldl_visitWidget_widgetPropsMapped C dn tn mn acc ws :
  widgetPropsMapped (snd (foldl (visitWidget C dn tn mn) acc ws))
  = widgetPropsMapped (snd acc).
Proof.
  revert acc. induction ws as [|w ws IH]; intros acc; simpl; [done|].
  by rewrite IH, visitWidget_widgetPropsMapped.
Qed.

Lemma processDocument_widgetPropsMapped C tn mn d csv r :
  widgetPropsMapped (snd (processDocument C tn mn d csv r))
  = widgetPropsMapped r.
Proof.
  unfold processDocument. destruct (negb (loadable d)); [done|].
  destruct (_ && includes _ _); [done|].
  match goal with
  | |- context [foldl ?f ?acc ?ws] =>
      pose proof (foldl_visitWidget_widgetPropsMapped C
                    (orElse (qualifiedName d) (orElse (docInfoName d) "Unknown"))
                    tn mn acc ws) as H;
      destruct (foldl f acc ws) as [[ws' csv'] r']
  end.
  simpl in *. by rewrite H.
Qed.

Lemma processDocumentCollection_widgetPropsMapped C sel store tn mn csv :
  widgetPropsMapped (snd (processDocumentCollection C sel store tn mn csv)) = 0.
Proof.
  unfold processDocumentCollection.
  assert (H : forall acc,
            widgetPropsMapped
              (snd (foldl (fun acc d =>
                      let '(done, csv, result) := acc in
                      if sel d
                      then let '(d', csv', result') :=
                             processDocument C tn mn d csv result in
                           (done ++ [d'], csv', result')
                      else (done ++ [d], csv, result)) acc store))
            = widgetPropsMapped (snd acc)).
  { induction store as [|d store IH]; intros acc; simpl; [done|].
    rewrite IH. destruct acc as [[ds c] r]. destruct (sel d); [|done].
    pose proof (processDocument_widgetPropsMapped C tn mn d c r) as Hd.
    by destruct (processDocument C tn mn d c r) as [[d' c'] r']. }
  by rewrite H.
Qed.

(** The widget-property count of the totals is never raised. *)
Lemma analyseModel_widgetPropsMapped C model :
  widgetPropsMapped (rs_totals (analyseModel C model)) = 0.
Proof.
  unfold analyseModel.
  assert (H : forall rs,
            widgetPropsMapped
              (rs_totals (foldl (processModule C) rs (allModules model)))
            = widgetPropsMapped (rs_totals rs)).
  { induction (allModules model) as [|m ms IH]; intros rs; simpl; [done|].
    rewrite IH. unfold processModule.
    destruct (bool_decide (m = "System")); [done|].
    pose proof (processDocumentCollection_widgetPropsMapped C (inModule m)
                  (allPages (rs_model rs)) TPage m (rs_csv rs)) as H1.
    destruct (processDocumentCollection C (inModule m)
                (allPages (rs_model rs)) TPage m (rs_csv rs))
      as [[pg c1] r1].
    pose proof (processDocumentCollection_widgetPropsMapped C (inModule m)
                  (allSnippets (rs_model rs)) TSnippet m c1) as H2.
    destruct (processDocumentCollection C (inModule m)
                (allSnippets (rs_model rs)) TSnippet m c1)
      as [[sn c2] r2].
    pose proof (processDocumentCollection_widgetPropsMapped C (inModule m)
                  (allLayouts (rs_model rs)) TLayout m c2) as H3.
    destruct (processDocumentCollection C (inModule m)
                (allLayouts (rs_model rs)) TLayout m c2)
      as [[ly c3] r3].
    simpl in *. lia. }
  by rewrite H.
Qed.

(** C2, amended. The mutations of a widget are applied to the in-memory
    working copy during the analysis pass, before any confirmation: the
    model, the totals and the report that [main] leaves behind do not
    depend on the operator's answer, and they are those of the analysis
    pass.  The operator is asked exactly when the rules loaded, the
    configuration is present and the total of the mapped, removed and
    widget-property counts is not zero (the last of the three is never
    raised by the document pass, so this is: mapped plus removed is not
    zero).  The persistence backend is called only after a positive
    answer: when the operator declines it receives nothing, the counts
    staying non-zero; when the operator accepts it receives the flush and
    one commit. *)
Theorem decline_leaves_backend_untouched
    (file : option (list PropertyMappingV2)) (token appId branch : string)
    (model : Model) :
  let declined := main file token appId branch false model in
  let accepted := main file token appId branch true model in
  out_backend declined = []
  /\ out_model declined = out_model accepted
  /\ out_totals declined = out_totals accepted
  /\ out_report declined = out_report accepted
  /\ out_asked declined = out_asked accepted
  /\ (out_asked declined = true ->
      0 < mapped (out_totals declined) + removed (out_totals declined)
      /\ exists C, loadMappings file = Some C
           /\ out_model declined = rs_model (analyseModel C model)
           /\ out_totals declined = rs_totals (analyseModel C model)
           /\ out_backend accepted
              = [FlushChanges;
                 CommitToRepository branch
                   (totalModified (out_totals declined))
                   (mapped (out_totals declined))
                   (widgetPropsMapped (out_totals declined))
                   (removed (out_totals declined))])
  /\ (out_asked declined = false -> out_backend accepted = []).
Proof.
  intros declined accepted. unfold declined, accepted, main.
  destruct (loadMappings file) as [C|]; [|by repeat split].
  destruct (negb (truthy token) || negb (truthy appId)); [by repeat split|].
  destruct (0 <? totalModified (rs_totals (analyseModel C model))) eqn:E;
    simpl.
  - repeat split; try done.
    + apply Nat.ltb_lt in E. unfold totalModified in E.
      rewrite analyseModel_widgetPropsMapped in E. lia.
    + exists C. by repeat split.
  - by repeat split.
Qed.

Lemma decline_leaves_backend_untouched_witness :
  let declined := main (Some sampleRules) "token" "app-id" "main" false
                       sampleModel in
  out_asked declined = true
  /\ out_backend declined = []
  /\ 0 < mapped (out_totals declined) + removed (out_totals declined).
Proof.
  intros declined.
  assert (H1 : out_asked declined = true) by by vm_compute.
  split; [exact H1|].
  destruct (decline_leaves_backend_untouched (Some sampleRules) "token"
              "app-id" "main" sampleModel)
    as (R1 & _ & _ & _ & _ & R6 & _).
  split; [exact R1|exact (proj1 (R6 H1))].
Defined.

(* ===================================================================== *)
(** * Further properties of the program *)
(* ===================================================================== *)

(** ** The rule catalog as a whole *)

Lemma elem_of_foldl_names data (acc : gset string) x :
  x ∈ foldl (fun acc m => {[property m]} ∪ acc) acc data
  <-> x ∈ acc \/ exists m, m ∈ data /\ property m = x.
Proof.
  revert acc. induction data as [|m data IH]; intros acc; cbn [foldl].
  - split; [by left|]. intros [H|(m & Hm & _)]; [done|].
    by apply elem_of_nil in Hm.
  - rewrite IH. rewrite elem_of_union, elem_of_singleton. split.
    + intros [[->|H]|(m' & Hm' & <-)].
      * right. exists m. split; [by left|done].
      * by left.
      * right. exists m'. split; [by right|done].
    + intros [H|(m' & [->|Hm']%elem_of_cons & <-)].
      * left. by right.
      * left. by left.
      * right. by exists m'.
Qed.

Lemma List_filter_stdpp {A} (f : A -> bool) (l : list A) :
  List.filter f l = filter (fun x => f x = true) l.
Proof.
  induction l as [|x l IH]; [done|]. cbn [List.filter].
  rewrite filter_cons. destruct (f x) eqn:E.
  - rewrite decide_True by done. by rewrite IH.
  - rewrite decide_False by done. done.
Qed.

Lemma elem_of_rule_entries mappings m :
  m ∈ List.filter isRuleEntry mappings
  <-> m ∈ mappings /\ isRuleEntry m = true.
Proof. rewrite List_filter_stdpp, list_elem_of_filter. tauto. Qed.

Lemma buildLookup_snoc data m :
  buildLookup (data ++ [m]) = indexMapping (buildLookup data) m.
Proof. unfold buildLookup. by rewrite foldl_app. Qed.

Lemma buildLookup_spec data k :
  buildLookup data !! k = last (filter (listsKey k) data).
Proof.
  induction data as [|m data IH] using rev_ind; [done|].
  rewrite buildLookup_snoc, indexMapping_lookup, filter_app, filter_cons.
  rewrite filter_nil. case_bool_decide as Hk.
  - rewrite decide_True by done. by rewrite last_snoc.
  - rewrite decide_False by done. by rewrite app_nil_r.
Qed.

Lemma elem_of_catalog_names mappings x :
  x ∈ MAPPED_PROPERTY_NAMES (buildCatalog mappings)
  <-> exists m, m ∈ mappings /\ isRuleEntry m = true /\ property m = x.
Proof.
  cbn. unfold buildNames. rewrite elem_of_foldl_names. split.
  - intros [H|(m & Hm & <-)]; [set_solver|].
    apply elem_of_rule_entries in Hm as [? ?]. by exists m.
  - intros (m & Hm & Hr & <-). right. exists m. split; [|done].
    by apply elem_of_rule_entries.
Qed.

(** X1. The set of rule-covered property names that [loadMappings] builds
    holds exactly the property names of the rule entries of the mappings
    file, that is, of the entries that carry both a property name and a
    match value; a comment entry contributes no name. *)
Theorem mapped_property_names_are_rule_names mappings x :
  x ∈ MAPPED_PROPERTY_NAMES (buildCatalog mappings)
  <-> exists m, m ∈ mappings /\ isRuleEntry m = true /\ property m = x.
Proof. apply elem_of_catalog_names. Qed.

Lemma mapped_property_names_are_rule_names_witness :
  "Margin top" ∈ MAPPED_PROPERTY_NAMES (buildCatalog sampleRules).
Proof.
  apply (proj2 (mapped_property_names_are_rule_names sampleRules "Margin top")).
  exists ruleMarginTop. split; [|done].
  apply (bool_decide_unpack _). by vm_compute.
Defined.

(** X2. For every key, the index that [loadMappings] builds returns the
    last entry of the mappings file, in file order, that is a rule entry
    and one of whose element types produces that key, and nothing when no
    entry does: an indexed rule always lists its key, and a comment entry
    is never indexed. *)
Theorem lookup_is_last_listing_rule mappings k :
  MAPPINGS_LOOKUP (buildCatalog mappings) !! k
  = last (filter (fun m => listsKey k m /\ isRuleEntry m = true) mappings).
Proof.
  cbn. rewrite buildLookup_spec, List_filter_stdpp.
  by rewrite list_filter_filter.
Qed.

Lemma last_elem_of {A} (l : list A) x : last l = Some x -> x ∈ l.
Proof.
  intros H. destruct l as [|y l] using rev_ind; [done|].
  rewrite last_snoc in H. injection H as ->. apply elem_of_app. right. by left.
Qed.

Lemma buildLookup_sound data k m :
  buildLookup data !! k = Some m -> m ∈ data /\ listsKey k m.
Proof.
  rewrite buildLookup_spec. intros H%last_elem_of.
  apply list_elem_of_filter in H. tauto.
Qed.

Lemma buildLookup_complete data k m :
  m ∈ data -> listsKey k m -> is_Some (buildLookup data !! k).
Proof.
  intros Hm Hk. rewrite buildLookup_spec.
  assert (Hin : m ∈ filter (listsKey k) data) by by apply list_elem_of_filter.
  destruct (filter (listsKey k) data) as [|y l] using rev_ind.
  - by apply elem_of_nil in Hin.
  - rewrite last_snoc. by eexists.
Qed.

(** X3. When the property names and match values of the rule entries and
    of the query hold no ["|"], a rule that [findMapping] returns is a rule
    entry of the mappings file for exactly that property name and value,
    and it lists the queried element type or the wildcard ["*"]; the
    property name is then in the set of rule-covered names, so the name
    filter of the analysis never hides a property that a rule resolves. *)
Theorem findMapping_sound mappings p v t m :
  (forall m', m' ∈ mappings -> isRuleEntry m' = true ->
     barFree (property m') = true /\ barFree (value m') = true) ->
  barFree p = true -> barFree v = true ->
  findMapping (buildCatalog mappings) p v t = Some m ->
  m ∈ mappings /\ isRuleEntry m = true
  /\ property m = p /\ value m = v
  /\ (t ∈ elementTypes m \/ "*" ∈ elementTypes m)
  /\ p ∈ MAPPED_PROPERTY_NAMES (buildCatalog mappings).
Proof.
  intros Hbar Hp Hv Hf.
  assert (exists t', t' ∈ [t; "*"]
            /\ buildLookup (List.filter isRuleEntry mappings)
               !! lookupKey p v t' = Some m) as (t' & Ht' & Hl).
  { unfold findMapping in Hf. cbn in Hf.
    destruct (buildLookup _ !! lookupKey p v t) as [m0|] eqn:E.
    - injection Hf as ->. exists t. split; [by left|done].
    - exists "*". split; [|done]. apply elem_of_cons; right. by left. }
  apply buildLookup_sound in Hl as [Hm Hk].
  apply elem_of_rule_entries in Hm as [Hm Hr].
  destruct (Hbar m Hm Hr) as [Bp Bv].
  unfold listsKey in Hk. apply list_elem_of_fmap in Hk as (et & Heq & Het).
  apply lookupKey_inj in Heq as (-> & -> & ->); [|done..].
  repeat split; try done.
  - apply elem_of_cons in Ht' as [->|Ht']; [by left|].
    apply list_elem_of_singleton in Ht' as ->. by right.
  - apply elem_of_catalog_names. by exists m.
Qed.

Lemma findMapping_sound_witness :
  findMapping (buildCatalog sampleRules) "Justify content" "Center"
              "DivContainer" = Some ruleJustify
  /\ "Justify content" ∈ MAPPED_PROPERTY_NAMES (buildCatalog sampleRules).
Proof.
  assert (H1 : forall m', m' ∈ sampleRules -> isRuleEntry m' = true ->
     barFree (property m') = true /\ barFree (value m') = true).
  { intros m' Hm' _. unfold sampleRules in Hm'.
    repeat (apply elem_of_cons in Hm' as [->|Hm']; [by vm_compute|]).
    by apply elem_of_nil in Hm'. }
  assert (H2 : findMapping (buildCatalog sampleRules) "Justify content"
                 "Center" "DivContainer" = Some ruleJustify) by by vm_compute.
  split; [done|].
  destruct (findMapping_sound sampleRules "Justify content" "Center"
              "DivContainer" ruleJustify H1 eq_refl eq_refl H2)
    as (_ & _ & _ & _ & _ & H). exact H.
Defined.

(** X4. [findMapping] finds a rule whenever some rule entry of the
    mappings file carries the queried property name and value and lists
    the queried element type or the wildcard ["*"]. *)
Theorem findMapping_complete mappings p v t m :
  m ∈ mappings -> isRuleEntry m = true ->
  property m = p -> value m = v ->
  t ∈ elementTypes m \/ "*" ∈ elementTypes m ->
  is_Some (findMapping (buildCatalog mappings) p v t).
Proof.
  intros Hm Hr <- <- Ht. unfold findMapping. cbn.
  destruct (buildLookup _ !! lookupKey (property m) (value m) t) eqn:E;
    [by eexists|].
  destruct Ht as [Ht|Ht].
  - assert (is_Some (buildLookup (List.filter isRuleEntry mappings)
                       !! lookupKey (property m) (value m) t)) as [? Hs].
    { apply (buildLookup_complete _ _ m); [by apply elem_of_rule_entries|].
      unfold listsKey. apply list_elem_of_fmap. by exists t. }
    congruence.
  - apply (buildLookup_complete _ _ m); [by apply elem_of_rule_entries|].
    unfold listsKey. apply list_elem_of_fmap. by exists "*".
Qed.

Lemma findMapping_complete_witness :
  is_Some (findMapping (buildCatalog sampleRules) "Shadow" "On" "ListView").
Proof.
  apply (findMapping_complete sampleRules "Shadow" "On" "ListView" ruleShadow).
  - apply (bool_decide_unpack _). by vm_compute.
  - reflexivity.
  - reflexivity.
  - reflexivity.
  - right. apply (bool_decide_unpack _). by vm_compute.
Defined.

(** ** Counters and audit rows of one widget *)

Lemma countAction_app a l1 l2 :
  countAction a (l1 ++ l2) = countAction a l1 + countAction a l2.
Proof. unfold countAction. by rewrite filter_app, length_app. Qed.

Lemma countAction_snoc a l row :
  countAction a (l ++ [row])
  = countAction a l + (if decide (csv_action row = a) then 1 else 0).
Proof.
  rewrite countAction_app. f_equal. unfold countAction.
  rewrite filter_cons, filter_nil. by destruct (decide _).
Qed.

Lemma countAction_spacingRows cx a items :
  countAction a (map (spacingRow cx) items)
  = if decide (Mapped = a) then length items else 0.
Proof.
  induction items as [|it items IH] using rev_ind; [by destruct (decide _)|].
  rewrite map_app, length_app. cbn [map]. rewrite countAction_snoc, IH.
  cbn [spacingRow mkRow csv_action length].
  destruct (decide (Mapped = a)); lia.
Qed.

Lemma countAction_pageRows dn mn a ps :
  countAction a (map (pagePropRow dn mn) ps)
  = if decide (Removed = a) then length ps else 0.
Proof.
  induction ps as [|p ps IH] using rev_ind; [by destruct (decide _)|].
  rewrite map_app, length_app. cbn [map]. rewrite countAction_snoc, IH.
  cbn [pagePropRow csv_action length].
  destruct (decide (Removed = a)); lia.
Qed.

(** The rows that the analysis pass appends, by action: one "mapped" row
    per queued rewrite, one "removed" row per queued removal, one
    "widgetPropertySet" row per queued attribute, and no "skipped" row. *)
Lemma analyse_action_counts C cx csv l :
  let st := analyse C cx csv l in
  countAction Mapped (csvData st)
    = countAction Mapped csv + length (toModify st)
  /\ countAction Removed (csvData st)
    = countAction Removed csv + length (toRemove st)
  /\ countAction WidgetPropertySet (csvData st)
    = countAction WidgetPropertySet csv + length (toSetWidgetProp st)
  /\ countAction Skipped (csvData st) = countAction Skipped csv
  /\ length (csvData st)
    = length csv + length (toModify st) + length (toRemove st)
      + length (toSetWidgetProp st).
Proof.
  induction l as [|x l IH] using rev_ind.
  - unfold analyse.
    cbn [foldl initAnalysis csvData toModify toRemove toSetWidgetProp length].
    lia.
  - cbn zeta in *. rewrite analyse_snoc.
    destruct IH as (I1 & I2 & I3 & I4 & I5).
    destruct (analyseProp_case C cx (analyse C cx csv l) x);
      cbn [csvData toModify toRemove toSetWidgetProp doSkip doRemove
           doCollectSpacing doCollision doMap doWidgetProp countProp];
      rewrite ?countAction_snoc, ?length_app;
      cbn [mkRow csv_action length];
      repeat (first [rewrite decide_True by done
                    |rewrite decide_False by done]); lia.
Qed.

Lemma queuedRefs_length st :
  length (queuedRefs st)
  = length (toModify st) + length (toRemove st)
    + length (spacingPropertiesToMap st) + length (toSetWidgetProp st).
Proof. unfold queuedRefs. rewrite !length_app, !length_map. lia. Qed.

(** Counters and appended rows of one call of [processWidget]. *)
Lemma processWidget_accounting C w dn dt mn csv :
  let rows := snd (fst (processWidget C w dn dt mn csv)) in
  let r := snd (processWidget C w dn dt mn csv) in
  (props r = mapped r + removed r + widgetPropsMapped r + skipped r
   /\ widgets r = 0 /\ skippedNativeLayouts r = 0)
  /\ csv `prefix_of` rows
  /\ countAction Mapped rows = countAction Mapped csv + mapped r
  /\ countAction Removed rows = countAction Removed csv + removed r
  /\ countAction WidgetPropertySet rows
     = countAction WidgetPropertySet csv + widgetPropsMapped r
  /\ countAction Skipped rows = countAction Skipped csv
  /\ length rows = length csv + mapped r + removed r + widgetPropsMapped r.
Proof.
  destruct (processed w) eqn:Hp.
  - unfold processWidget. cbn [snd fst].
    destruct (processWidgetRun_final C w dn dt mn csv Hp) as (-> & -> & _).
    destruct (analyse_counts C (widgetCtx w dn mn) csv
                (withRefs (designProperties w)))
      as (I1 & I2 & I3 & I4 & I5 & I6 & I7).
    destruct (analyse_action_counts C (widgetCtx w dn mn) csv
                (withRefs (designProperties w)))
      as (A1 & A2 & A3 & A4 & A5).
    destruct (analyse_rows C (widgetCtx w dn mn) csv
                (withRefs (designProperties w))) as (rows & Hrows & _).
    fold (analyseWidget C w dn mn csv) in *.
    rewrite queuedRefs_length in I5.
    rewrite !countAction_app, !countAction_spacingRows, length_app, length_map.
    cbn [props mapped removed widgetPropsMapped skipped widgets
         skippedNativeLayouts addMapped].
    rewrite A1, A2, A3, A4, A5.
    repeat (first [rewrite decide_True by done
                  |rewrite decide_False by done]).
    split; [repeat split; lia|].
    split; [|repeat split; lia].
    rewrite Hrows, <- app_assoc. by apply prefix_app_r.
  - rewrite processWidgetRun_skipped by done.
    cbn [fst snd props mapped removed widgetPropsMapped skipped widgets
         skippedNativeLayouts zeroResult].
    split; [repeat split; lia|]. split; [done|]. repeat split; lia.
Qed.

(** X5. The counters that [processWidget] returns always add up: the
    number of properties found is the sum of the mapped, removed,
    widget-property and skipped counts; the widget counter stays zero
    (widgets are counted by the caller). *)
Theorem widget_counters_partition C w dn dt mn csv :
  let r := snd (processWidget C w dn dt mn csv) in
  props r = mapped r + removed r + widgetPropsMapped r + skipped r
  /\ widgets r = 0.
Proof.
  destruct (processWidget_accounting C w dn dt mn csv) as ((H1 & H2 & _) & _).
  by split.
Qed.

(** X6. [processWidget] only appends to the audit rows, and the rows it
    appends match the counters it returns: as many "mapped" rows as the
    mapped count, as many "removed" rows as the removed count, as many
    "widgetPropertySet" rows as the widget-property count, and no
    "skipped" row, whatever the skipped count is. *)
Theorem widget_rows_match_counters C w dn dt mn csv :
  let rows := snd (fst (processWidget C w dn dt mn csv)) in
  let r := snd (processWidget C w dn dt mn csv) in
  csv `prefix_of` rows
  /\ countAction Mapped rows = countAction Mapped csv + mapped r
  /\ countAction Removed rows = countAction Removed csv + removed r
  /\ countAction WidgetPropertySet rows
     = countAction WidgetPropertySet csv + widgetPropsMapped r
  /\ countAction Skipped rows = countAction Skipped csv
  /\ length rows = length csv + mapped r + removed r + widgetPropsMapped r.
Proof. exact (proj2 (processWidget_accounting C w dn dt mn csv)). Qed.

Lemma analyse_rows_context C cx csv l :
  exists rows,
    csvData (analyse C cx csv l) = csv ++ rows
    /\ forall row, row ∈ rows ->
         csv_element row = widgetName cx /\ csv_elementType row = widgetType cx
         /\ csv_document row = docName cx /\ csv_module row = moduleName cx.
Proof.
  induction l as [|x l IH] using rev_ind.
  - exists []. split; [by rewrite app_nil_r|].
    intros row Hr. by apply elem_of_nil in Hr.
  - destruct IH as (rows & Hrows & Hall). rewrite analyse_snoc.
    destruct (analyseProp_case C cx (analyse C cx csv l) x);
      cbn [csvData doSkip doRemove doCollectSpacing doCollision doMap
           doWidgetProp countProp];
      try (exists rows; split; [done|done]);
      (eexists (rows ++ [_]); split; [by rewrite Hrows, app_assoc|];
       intros row [Hr|Hr]%elem_of_app; [by apply Hall|];
       apply list_elem_of_singleton in Hr as ->; done).
Qed.

(** X7. Every audit row that [processWidget] appends carries the
    widget's name (or "Unnamed"), the widget's element type, and the
    document and module names that were passed in. *)
Theorem widget_rows_carry_context C w dn dt mn csv :
  exists rows,
    snd (fst (processWidget C w dn dt mn csv)) = csv ++ rows
    /\ forall row, row ∈ rows ->
         csv_element row = orElse (attrs w !! "name") "Unnamed"
         /\ csv_elementType row = getWidgetTypeName w
         /\ csv_document row = dn /\ csv_module row = mn.
Proof.
  destruct (processed w) eqn:Hp.
  - unfold processWidget. cbn [fst snd].
    destruct (processWidgetRun_final C w dn dt mn csv Hp) as (-> & _).
    destruct (analyse_rows_context C (widgetCtx w dn mn) csv
                (withRefs (designProperties w))) as (rows & Hrows & Hall).
    fold (analyseWidget C w dn mn csv) in Hrows.
    exists (rows ++ map (spacingRow (widgetCtx w dn mn))
                    (spacingPropertiesToMap (analyseWidget C w dn mn csv))).
    split; [by rewrite Hrows, app_assoc|].
    intros row [Hr|Hr]%elem_of_app; [by apply Hall|].
    apply list_elem_of_fmap in Hr as (item & -> & _). done.
  - rewrite processWidgetRun_skipped by done. exists [].
    split; [by rewrite app_nil_r|]. intros row Hr. by apply elem_of_nil in Hr.
Qed.

Lemma widget_rows_carry_context_witness :
  Forall (fun row =>
            csv_element row = "container1"
            /\ csv_elementType row = "DivContainer"
            /\ csv_document row = "App.Home" /\ csv_module row = "App")
         (snd (fst (processWidget sampleCatalog widgetTwoAlign
                      "App.Home" "Page" "App" []))).
Proof.
  destruct (widget_rows_carry_context sampleCatalog widgetTwoAlign
              "App.Home" "Page" "App" []) as (rows & Heq & Hall).
  rewrite Heq. cbn [app]. apply Forall_forall. intros row Hrow.
  destruct (Hall row Hrow) as (H1 & H2 & H3 & H4).
  rewrite H1, H2, H3, H4. by vm_compute.
Defined.

(** ** Widgets that are not processed *)

(** X8. A widget without design properties, or whose element type is not
    one of the target element types, is returned as it is, with no audit
    row added and all counters zero. *)
Theorem unprocessed_widget_untouched C w dn dt mn csv :
  designProperties w = [] \/ getWidgetTypeName w ∉ TARGET_ELEMENT_TYPES ->
  processWidget C w dn dt mn csv = (w, csv, zeroResult).
Proof.
  intros H. apply processWidgetRun_skipped. unfold processed.
  destruct H as [H|H].
  - by rewrite bool_decide_eq_true_2.
  - rewrite (bool_decide_eq_false_2 _ H). by rewrite andb_false_r.
Qed.

Lemma unprocessed_widget_untouched_witness :
  processWidget sampleCatalog (divContainer []) "App.Home" "Page" "App" []
  = (divContainer [], [], zeroResult).
Proof.
  apply (unprocessed_widget_untouched sampleCatalog (divContainer [])).
  left. reflexivity.
Defined.

(** ** The decision taken for one property *)

Lemma analyseUpTo_S C w dn mn csv i p :
  designProperties w !! i = Some p ->
  analyseUpTo C w dn mn csv (S i)
  = analyseProp C (widgetCtx w dn mn) (analyseUpTo C w dn mn csv i) (i, p).
Proof.
  intros H. unfold analyseUpTo. rewrite (withRefs_take _ _ p H).
  apply analyse_snoc.
Qed.

Lemma analyseUpTo_grows_all C w dn mn csv i :
  let s := analyseUpTo C w dn mn csv i in
  let st := analyseWidget C w dn mn csv in
  toModify s `prefix_of` toModify st
  /\ toRemove s `prefix_of` toRemove st
  /\ toSetWidgetProp s `prefix_of` toSetWidgetProp st
  /\ spacingPropertiesToMap s `prefix_of` spacingPropertiesToMap st
  /\ csvData s `prefix_of` csvData st
  /\ mappedTargetProperties s ⊆ mappedTargetProperties st.
Proof.
  pose proof (analyse_grows C (widgetCtx w dn mn) csv
                (take i (withRefs (designProperties w)))
                (drop i (withRefs (designProperties w)))) as H.
  rewrite take_drop in H. exact H.
Qed.

(** A row that one iteration of the analysis appends is one of the rows
    that the run of the widget adds to the audit rows. *)
Lemma step_row_in_run C w dn dt mn csv i row :
  processed w = true ->
  csvData (analyseUpTo C w dn mn csv (S i))
  = csvData (analyseUpTo C w dn mn csv i) ++ [row] ->
  exists before after,
    run_csv (processWidgetRun C w dn dt mn csv) = csv ++ before ++ row :: after.
Proof.
  intros Hp Hstep.
  destruct (analyse_rows C (widgetCtx w dn mn) csv
              (take i (withRefs (designProperties w)))) as (before & Hb & _).
  fold (analyseUpTo C w dn mn csv i) in Hb.
  destruct (analyseUpTo_grows_all C w dn mn csv (S i))
    as (_ & _ & _ & _ & [k Hk] & _).
  destruct (processWidgetRun_final C w dn dt mn csv Hp) as (Hcsv & _).
  exists before, (k ++ map (spacingRow (widgetCtx w dn mn))
                    (spacingPropertiesToMap (analyseWidget C w dn mn csv))).
  rewrite Hcsv, Hk, Hstep, Hb. by rewrite <- !app_assoc.
Qed.

Lemma queued_toRemove_not_final C w dn dt mn csv i p :
  processed w = true ->
  (i, p) ∈ toRemove (analyseWidget C w dn mn csv) ->
  i ∉ run_refs (processWidgetRun C w dn dt mn csv).
Proof.
  intros Hp Hin Hi.
  destruct (processWidgetRun_final C w dn dt mn csv Hp)
    as (_ & _ & _ & H4 & _).
  destruct (H4 i Hi) as (_ & Hn & _). apply Hn.
  apply list_elem_of_fmap. by exists (i, p).
Qed.

(** X9. A property of a processed widget that resolves to a rule with
    action "remove" is taken out of the widget's property list; the
    property object itself is not rewritten, and one "removed" row is
    appended for it whose reason is the rule's [_reason], or "No Web
    equivalent" when the rule has none. *)
Theorem remove_rule_drops_property C w dn dt mn csv i p m :
  processed w = true ->
  designProperties w !! i = Some p ->
  reachesLookup C p = true ->
  resolved C (widgetCtx w dn mn) (i, p) = Some m ->
  action m = ActRemove ->
  let run := processWidgetRun C w dn dt mn csv in
  (i ∉ run_refs run)
  /\ run_objs run !! i = Some p
  /\ exists before after,
       run_csv run
       = csv ++ before
         ++ mkRow (widgetCtx w dn mn) (key p) (extractPropertyValue p)
              Removed None None
              (Some (orElse (_reason m) "No Web equivalent"))
            :: after.
Proof.
  intros Hp Hi Hr Hm Ha run.
  pose proof (analyseUpTo_S C w dn mn csv i p Hi) as Hstep.
  rewrite analyseProp_reaches in Hstep by done.
  unfold resolved in Hm. cbn [snd widgetType widgetCtx] in Hm, Hstep.
  cbn [widgetType widgetCtx] in Hm. rewrite Hm, Ha in Hstep.
  assert (Hq : (i, p) ∈ toRemove (analyseWidget C w dn mn csv)).
  { destruct (analyseUpTo_grows_all C w dn mn csv (S i))
      as (_ & Hpre & _).
    apply (prefix_elem_of _ _ _ Hpre). rewrite Hstep. cbn.
    apply elem_of_app. right. by left. }
  split; [by eapply queued_toRemove_not_final|]. split.
  - destruct (processWidgetRun_final C w dn dt mn csv Hp)
      as (_ & _ & Hobjs & _).
    unfold run. rewrite Hobjs.
    destruct (analyseWidget_queued C w dn mn csv) as [Hnd _].
    rewrite queued_indices in Hnd.
    apply NoDup_app in Hnd as (_ & Hdisj & _).
    rewrite foldl_applyMapping_other.
    + rewrite aggregate_objs_lookup by (by eapply lookup_lt_Some). done.
    + intros Hin. apply (Hdisj i Hin). apply elem_of_app. left.
      apply list_elem_of_fmap. by exists (i, p).
  - apply (step_row_in_run C w dn dt mn csv i); [done|].
    rewrite Hstep. reflexivity.
Qed.

Lemma remove_rule_drops_property_witness :
  (2 ∉ run_refs (processWidgetRun sampleCatalog widgetSpacing
                  "App.Home" "Page" "App" []))
  /\ exists before after,
       run_csv (processWidgetRun sampleCatalog widgetSpacing
                  "App.Home" "Page" "App" [])
       = [] ++ before
         ++ mkRow (widgetCtx widgetSpacing "App.Home" "App") "Shadow" "On"
              Removed None None (Some "No Web equivalent")
            :: after.
Proof.
  assert (H1 : processed widgetSpacing = true) by by vm_compute.
  assert (H2 : designProperties widgetSpacing !! 2
               = Some {| key := "Shadow"; pvalue := VOption "On" |})
    by reflexivity.
  assert (H3 : reachesLookup sampleCatalog
                 {| key := "Shadow"; pvalue := VOption "On" |} = true)
    by by vm_compute.
  assert (H4 : resolved sampleCatalog (widgetCtx widgetSpacing "App.Home" "App")
                 (2, {| key := "Shadow"; pvalue := VOption "On" |})
               = Some ruleShadow) by by vm_compute.
  assert (H5 : action ruleShadow = ActRemove) by reflexivity.
  destruct (remove_rule_drops_property sampleCatalog widgetSpacing "App.Home"
              "Page" "App" [] 2 _ ruleShadow H1 H2 H3 H4 H5)
    as (R1 & _ & R3).
  split; [exact R1|exact R3].
Defined.

(** ** Rules that set a widget attribute *)

Lemma applyWidgetPropertyMapping_keeps w m w' :
  applyWidgetPropertyMapping w m = Some w' ->
  isActionButton w' = isActionButton w
  /\ accepts w' = accepts w
  /\ constructorName w' = constructorName w
  /\ designProperties w' = designProperties w.
Proof.
  unfold applyWidgetPropertyMapping.
  destruct (negb _ || negb _); [done|].
  destruct (bool_decide _ && isActionButton w).
  - destruct (buttonStyleMap _); [by intros [= <-]|].
    destruct (bool_decide _ && accepts w _ _); [|done]. by intros [= <-].
  - destruct (accepts w _ _); [|done]. by intros [= <-].
Qed.

Lemma applyWidgetPropertyMapping_fails w w' m :
  isActionButton w = isActionButton w' ->
  accepts w = accepts w' ->
  applyWidgetPropertyMapping w m = None ->
  applyWidgetPropertyMapping w' m = None.
Proof.
  unfold applyWidgetPropertyMapping. intros <- <-.
  destruct (negb _ || negb _); [done|].
  destruct (bool_decide _ && isActionButton w).
  - destruct (buttonStyleMap _); [done|].
    by destruct (bool_decide _ && accepts w _ _).
  - by destruct (accepts w _ _).
Qed.

Lemma foldl_execSetWidgetProp_refs r l i :
  (isActionButton (run_widget (foldl execSetWidgetProp r l))
   = isActionButton (run_widget r)
   /\ accepts (run_widget (foldl execSetWidgetProp r l))
      = accepts (run_widget r))
  /\ (i ∈ run_refs (foldl execSetWidgetProp r l)
      <-> i ∈ run_refs r
          /\ forall it : PropRef * PropertyMappingV2,
               it ∈ l -> fst (fst it) = i ->
               applyWidgetPropertyMapping (run_widget r) (snd it) = None).
Proof.
  revert r. induction l as [|it l IH]; intros r; cbn [foldl].
  - split; [done|]. split; [|tauto]. intros H. split; [done|].
    intros it Hit. by apply elem_of_nil in Hit.
  - destruct (IH (execSetWidgetProp r it)) as [[IHa IHc] IHb].
    unfold execSetWidgetProp in IHa, IHb, IHc |- *.
    destruct (applyWidgetPropertyMapping (run_widget r) (snd it))
      as [w1|] eqn:E; cbn [run_widget run_refs] in IHa, IHb, IHc.
    + apply applyWidgetPropertyMapping_keeps in E as E'.
      destruct E' as (Eab & Eac & _).
      split; [by rewrite IHa, IHc|]. rewrite IHb, elem_of_listRemove. split.
      * intros ([Hi Hne] & Hall). split; [done|].
        intros it' [->|Hit']%elem_of_cons Hidx; [done|].
        apply (applyWidgetPropertyMapping_fails w1); [done|done|].
        by apply Hall.
      * intros (Hi & Hall). split; [split; [done|]|].
        -- intros Heq. specialize (Hall it). rewrite E in Hall.
           discriminate Hall; [by left|done].
        -- intros it' Hit' Hidx.
           apply (applyWidgetPropertyMapping_fails (run_widget r));
             [done|done|]. apply Hall; [by right|done].
    + split; [done|]. rewrite IHb. split.
      * intros (Hi & Hall). split; [done|].
        intros it' [->|Hit']%elem_of_cons Hidx; [done|]. by apply Hall.
      * intros (Hi & Hall). split; [done|].
        intros it' Hit' Hidx. apply Hall; [by right|done].
Qed.

(** The property list after the removals, before the attribute loop. *)
Lemma final_refs_spec C w dn dt mn csv i :
  processed w = true ->
  let cx := widgetCtx w dn mn in
  let st := analyseWidget C w dn mn csv in
  let run := processWidgetRun C w dn dt mn csv in
  i ∈ run_refs run
  <-> i ∈ run_refs (aggregateSpacing cx w st)
      /\ (i ∉ map fst (toRemove st))
      /\ (i ∉ map (fun item => fst (si_prop item)) (spacingPropertiesToMap st))
      /\ forall it : PropRef * PropertyMappingV2,
           it ∈ toSetWidgetProp st -> fst (fst it) = i ->
           applyWidgetPropertyMapping w (snd it) = None.
Proof.
  intros Hp cx st run. unfold run.
  rewrite processWidgetRun_processed by done. fold cx. fold st.
  destruct (foldl_execSetWidgetProp_refs
              (execRemove st (execModify st (aggregateSpacing cx w st)))
              (toSetWidgetProp st) i) as [_ ->].
  cbn [execRemove execModify run_refs run_widget].
  rewrite elem_of_foldl_listRemove, elem_of_allPropsToRemove.
  assert (run_widget (aggregateSpacing cx w st) = w) as ->.
  { unfold aggregateSpacing. by destruct (spacingPropertiesToMap st). }
  tauto.
Qed.

Lemma findExistingSpacing_key ps e :
  findExistingSpacing ps = Some e ->
  ps !! fst e = Some (snd e) /\ key (snd e) = "Spacing".
Proof.
  destruct e as [j q]. unfold findExistingSpacing.
  intros (H1 & H2 & _)%list_find_Some. done.
Qed.

(** X10. A property of a processed widget that resolves to a rule with
    action "mapToWidgetProperty" always gets a "widgetPropertySet" row.
    When [applyWidgetPropertyMapping] succeeds on the widget, the
    property is taken out of the property list.  When
    it throws (the rule lacks the attribute name or value, or names an
    unknown button style for an action button, or the widget object
    refuses the assignment, as a typed attribute refuses a string), the
    property, if it is not named "Spacing", stays in the list unchanged,
    although the row says it was set. *)
Theorem widget_property_rule_outcome C w dn dt mn csv i p m :
  processed w = true ->
  designProperties w !! i = Some p ->
  reachesLookup C p = true ->
  resolved C (widgetCtx w dn mn) (i, p) = Some m ->
  action m = ActMapToWidgetProperty ->
  let run := processWidgetRun C w dn dt mn csv in
  (exists before after,
     run_csv run
     = csv ++ before
       ++ mkRow (widgetCtx w dn mn) (key p) (extractPropertyValue p)
            WidgetPropertySet
            (Some (orElse (widgetProperty m) ""))
            (Some (orElse (widgetValue m) ""))
            (Some (orElse (_reason m) "Mapped to widget property"))
          :: after)
  /\ (is_Some (applyWidgetPropertyMapping w m) -> i ∉ run_refs run)
  /\ (applyWidgetPropertyMapping w m = None -> key p ≠ "Spacing" ->
      i ∈ run_refs run /\ run_objs run !! i = Some p).
Proof.
  intros Hp Hi Hr Hm Ha run.
  pose proof (analyseUpTo_S C w dn mn csv i p Hi) as Hstep.
  rewrite analyseProp_reaches in Hstep by done.
  pose proof Hm as Hm'.
  unfold resolved in Hm'. cbn [snd] in Hm', Hstep.
  rewrite Hm', Ha in Hstep.
  set (st := analyseWidget C w dn mn csv).
  assert (Hq : ((i, p), m) ∈ toSetWidgetProp st).
  { destruct (analyseUpTo_grows_all C w dn mn csv (S i))
      as (_ & _ & Hpre & _).
    apply (prefix_elem_of _ _ _ Hpre). rewrite Hstep. cbn.
    apply elem_of_app. right. by left. }
  destruct (analyseWidget_queued C w dn mn csv) as [Hnd Hq2].
  fold st in Hnd, Hq2. rewrite queued_indices in Hnd.
  assert (Hidx : i ∈ map (fun it : PropRef * PropertyMappingV2 =>
                            fst (fst it)) (toSetWidgetProp st)).
  { apply list_elem_of_fmap. by exists ((i, p), m). }
  apply NoDup_app in Hnd as (_ & Hd1 & Hnd).
  apply NoDup_app in Hnd as (_ & Hd2 & Hnd).
  apply NoDup_app in Hnd as (_ & Hd3 & _).
  split; [|split].
  - apply (step_row_in_run C w dn dt mn csv i); [done|].
    rewrite Hstep. reflexivity.
  - intros [w' Hw'] Hin. unfold run in Hin.
    apply final_refs_spec in Hin as (_ & _ & _ & Hall); [|done].
    specialize (Hall ((i, p), m) Hq eq_refl). cbn in Hall. congruence.
  - intros Hfail Hkey. split.
    + apply final_refs_spec; [done|]. fold st. split; [|split; [|split]].
      * apply aggregate_refs. fold st.
        apply lookup_lt_Some in Hi as Hlt.
        destruct (spacingPropertiesToMap st); [done|]. split; [lia|].
        intros e He ->. apply findExistingSpacing_key in He as [He1 He2].
        congruence.
      * intros Hin. apply (Hd2 i Hin). apply elem_of_app. by right.
      * intros Hin. by apply (Hd3 i Hin).
      * intros [[j q] m'] Hit Hj. cbn in Hj. subst j. cbn [snd].
        destruct (analyse_queues C (widgetCtx w dn mn) csv
                    (withRefs (designProperties w))) as (_ & _ & _ & Q4).
        destruct (Q4 (i, q) m' Hit) as (Hl & _ & Hres & _).
        apply elem_of_withRefs in Hl.
        assert (q = p) as -> by congruence.
        assert (m' = m) as -> by congruence. done.
    + destruct (processWidgetRun_final C w dn dt mn csv Hp)
        as (_ & _ & Hobjs & _).
      unfold run. rewrite Hobjs. fold st.
      rewrite foldl_applyMapping_other.
      * rewrite aggregate_objs_lookup by (by eapply lookup_lt_Some). done.
      * intros Hin. apply (Hd1 i Hin). apply elem_of_app. right.
        apply elem_of_app. by right.
Qed.

Lemma widget_property_rule_outcome_witness :
  (0 ∉ run_refs (processWidgetRun buttonCatalog widgetPrimaryButton
                   "App.Home" "Page" "App" []))
  /\ (0 ∈ run_refs (processWidgetRun buttonCatalog widgetFancyButton
                     "App.Home" "Page" "App" []))
  /\ (0 ∈ run_refs (processWidgetRun headingCatalog widgetHeading
                     "App.Home" "Page" "App" [])
      /\ run_objs (processWidgetRun headingCatalog widgetHeading
                     "App.Home" "Page" "App" []) !! 0
         = Some {| key := "Text style"; pvalue := VOption "Heading 1" |}
      /\ map csv_action (run_csv (processWidgetRun headingCatalog
                                    widgetHeading "App.Home" "Page" "App" []))
         = [WidgetPropertySet]).
Proof.
  split; [|split].
  - assert (H1 : processed widgetPrimaryButton = true) by by vm_compute.
    assert (H2 : designProperties widgetPrimaryButton !! 0
                 = Some {| key := "Button style"; pvalue := VOption "Primary" |})
      by reflexivity.
    assert (H3 : reachesLookup buttonCatalog
                   {| key := "Button style"; pvalue := VOption "Primary" |}
                 = true) by by vm_compute.
    assert (H4 : resolved buttonCatalog
                   (widgetCtx widgetPrimaryButton "App.Home" "App")
                   (0, {| key := "Button style"; pvalue := VOption "Primary" |})
                 = Some ruleButtonPrimary) by by vm_compute.
    assert (H5 : action ruleButtonPrimary = ActMapToWidgetProperty)
      by reflexivity.
    destruct (widget_property_rule_outcome buttonCatalog widgetPrimaryButton
                "App.Home" "Page" "App" [] 0 _ ruleButtonPrimary
                H1 H2 H3 H4 H5) as (_ & R & _).
    apply R. by eexists.
  - assert (H1 : processed widgetFancyButton = true) by by vm_compute.
    assert (H2 : designProperties widgetFancyButton !! 0
                 = Some {| key := "Button style"; pvalue := VOption "Fancy" |})
      by reflexivity.
    assert (H3 : reachesLookup buttonCatalog
                   {| key := "Button style"; pvalue := VOption "Fancy" |}
                 = true) by by vm_compute.
    assert (H4 : resolved buttonCatalog
                   (widgetCtx widgetFancyButton "App.Home" "App")
                   (0, {| key := "Button style"; pvalue := VOption "Fancy" |})
                 = Some ruleButtonFancy) by by vm_compute.
    assert (H5 : action ruleButtonFancy = ActMapToWidgetProperty)
      by reflexivity.
    destruct (widget_property_rule_outcome buttonCatalog widgetFancyButton
                "App.Home" "Page" "App" [] 0 _ ruleButtonFancy
                H1 H2 H3 H4 H5) as (_ & _ & R).
    apply R; [by vm_compute|by vm_compute].
  - assert (H1 : processed widgetHeading = true) by by vm_compute.
    assert (H2 : designProperties widgetHeading !! 0
                 = Some {| key := "Text style";
                           pvalue := VOption "Heading 1" |}) by reflexivity.
    assert (H3 : reachesLookup headingCatalog
                   {| key := "Text style"; pvalue := VOption "Heading 1" |}
                 = true) by by vm_compute.
    assert (H4 : resolved headingCatalog
                   (widgetCtx widgetHeading "App.Home" "App")
                   (0, {| key := "Text style";
                          pvalue := VOption "Heading 1" |})
                 = Some ruleHeading) by by vm_compute.
    assert (H5 : action ruleHeading = ActMapToWidgetProperty) by reflexivity.
    destruct (widget_property_rule_outcome headingCatalog widgetHeading
                "App.Home" "Page" "App" [] 0 _ ruleHeading
                H1 H2 H3 H4 H5) as (_ & _ & R).
    destruct R as [R1 R2]; [by vm_compute|by vm_compute|].
    split; [exact R1|]. split; [exact R2|]. by vm_compute.
Defined.

Lemma foldl_execSetWidgetProp_snoc r l it :
  foldl execSetWidgetProp r (l ++ [it])
  = execSetWidgetProp (foldl execSetWidgetProp r l) it.
Proof. by rewrite foldl_app. Qed.

Lemma buttonStyleMap_truthy v s :
  buttonStyleMap v = Some s -> truthy v = true.
Proof. destruct v; [by vm_compute|done]. Qed.

(** The last loop on an action button: when every queued rule for the
    attribute "buttonStyle" carries the value [v], a name of the style
    table, the button ends with the style of that name. *)
Lemma foldl_execSetWidgetProp_style r
    (l : list (PropRef * PropertyMappingV2)) v s :
  isActionButton (run_widget r) = true ->
  buttonStyleMap v = Some s ->
  (exists it, it ∈ l /\ widgetProperty (snd it) = Some "buttonStyle"
              /\ widgetValue (snd it) = Some v) ->
  (forall it, it ∈ l -> widgetProperty (snd it) = Some "buttonStyle" ->
              widgetValue (snd it) = Some v) ->
  buttonStyle (run_widget (foldl execSetWidgetProp r l)) = s.
Proof.
  intros Hb Hs. induction l as [|it l IH] using rev_ind.
  - intros (it & Hit & _). by apply elem_of_nil in Hit.
  - intros Hex Hall. rewrite foldl_execSetWidgetProp_snoc.
    set (rl := foldl execSetWidgetProp r l) in *.
    destruct (foldl_execSetWidgetProp_refs r l 0) as [[Hab _] _].
    fold rl in Hab. rewrite Hb in Hab.
    assert (Hall' : forall it0, it0 ∈ l ->
              widgetProperty (snd it0) = Some "buttonStyle" ->
              widgetValue (snd it0) = Some v).
    { intros it0 H0. apply Hall. apply elem_of_app. by left. }
    destruct (decide (widgetProperty (snd it) = Some "buttonStyle"))
      as [Hwk|Hwk].
    + assert (Hwv : widgetValue (snd it) = Some v).
      { apply Hall; [|done]. apply elem_of_app. right. by left. }
      unfold execSetWidgetProp, applyWidgetPropertyMapping.
      rewrite Hwk, Hwv. cbn [truthyO jsShow].
      rewrite (buttonStyleMap_truthy v s Hs), Hab.
      rewrite (bool_decide_eq_true_2 (Some "buttonStyle" = Some "buttonStyle"))
        by done.
      replace (truthy "buttonStyle") with true by reflexivity.
      cbn [negb orb andb]. rewrite Hs. reflexivity.
    + assert (Hex' : exists it0, it0 ∈ l
                /\ widgetProperty (snd it0) = Some "buttonStyle"
                /\ widgetValue (snd it0) = Some v).
      { destruct Hex as (it0 & [H0|H0]%elem_of_app & H1 & H2).
        - by exists it0.
        - apply list_elem_of_singleton in H0 as ->. done. }
      specialize (IH Hex' Hall').
      unfold execSetWidgetProp, applyWidgetPropertyMapping.
      destruct (negb (truthyO (widgetProperty (snd it)))
                || negb (truthyO (widgetValue (snd it)))); [exact IH|].
      rewrite (bool_decide_eq_false_2
                 (widgetProperty (snd it) = Some "buttonStyle")) by done.
      cbn [andb].
      destruct (accepts (run_widget rl) _ _); exact IH.
Qed.

Lemma run_widget_start cx w st :
  run_widget (execRemove st (execModify st (aggregateSpacing cx w st))) = w.
Proof.
  cbn. unfold aggregateSpacing. by destruct (spacingPropertiesToMap _).
Qed.

(** X11. On a processed action button, when a property resolves to a
    "mapToWidgetProperty" rule for the attribute "buttonStyle" whose
    value [v] is one of the seven names of the button style table, and
    every property of the widget that resolves to such a rule for
    "buttonStyle" carries the value [v], the button ends with the style
    that the table gives for [v]. *)
Theorem button_style_rule_sets_style C w dn dt mn csv i p m v s :
  processed w = true ->
  isActionButton w = true ->
  designProperties w !! i = Some p ->
  reachesLookup C p = true ->
  resolved C (widgetCtx w dn mn) (i, p) = Some m ->
  action m = ActMapToWidgetProperty ->
  widgetProperty m = Some "buttonStyle" -> widgetValue m = Some v ->
  buttonStyleMap v = Some s ->
  (forall j q m',
     designProperties w !! j = Some q -> reachesLookup C q = true ->
     resolved C (widgetCtx w dn mn) (j, q) = Some m' ->
     action m' = ActMapToWidgetProperty ->
     widgetProperty m' = Some "buttonStyle" -> widgetValue m' = Some v) ->
  buttonStyle (run_widget (processWidgetRun C w dn dt mn csv)) = s.
Proof.
  intros Hp Hb Hi Hr Hm Ha Hwk Hwv Hs Huniq.
  pose proof (analyseUpTo_S C w dn mn csv i p Hi) as Hstep.
  rewrite analyseProp_reaches in Hstep by done.
  pose proof Hm as Hm'. unfold resolved in Hm'. cbn [snd] in Hm', Hstep.
  rewrite Hm', Ha in Hstep.
  set (st := analyseWidget C w dn mn csv).
  assert (Hq : ((i, p), m) ∈ toSetWidgetProp st).
  { destruct (analyseUpTo_grows_all C w dn mn csv (S i))
      as (_ & _ & Hpre & _).
    apply (prefix_elem_of _ _ _ Hpre). rewrite Hstep. cbn.
    apply elem_of_app. right. by left. }
  rewrite processWidgetRun_processed by done. fold st.
  apply (foldl_execSetWidgetProp_style _ _ v s).
  - by rewrite run_widget_start.
  - done.
  - by exists ((i, p), m).
  - intros [[j q] m'] Hit Hwk'. cbn [snd] in *.
    destruct (analyse_queues C (widgetCtx w dn mn) csv
                (withRefs (designProperties w))) as (_ & _ & _ & Q4).
    destruct (Q4 (j, q) m' Hit) as (Hl & Hrq & Hres & Hact).
    apply elem_of_withRefs in Hl. by apply (Huniq j q m').
Qed.

Lemma button_style_rule_sets_style_witness :
  isActionButton widgetPrimaryButton = true
  /\ buttonStyle widgetPrimaryButton = BSDefault
  /\ buttonStyleMap "Primary" = Some BSPrimary
  /\ buttonStyle (run_widget (processWidgetRun buttonCatalog
                     widgetPrimaryButton "App.Home" "Page" "App" []))
     = BSPrimary.
Proof.
  assert (H0 : isActionButton widgetPrimaryButton = true) by reflexivity.
  assert (H1 : processed widgetPrimaryButton = true) by by vm_compute.
  assert (H2 : designProperties widgetPrimaryButton !! 0
               = Some {| key := "Button style";
                         pvalue := VOption "Primary" |}) by reflexivity.
  assert (H3 : reachesLookup buttonCatalog
                 {| key := "Button style"; pvalue := VOption "Primary" |}
               = true) by by vm_compute.
  assert (H4 : resolved buttonCatalog
                 (widgetCtx widgetPrimaryButton "App.Home" "App")
                 (0, {| key := "Button style";
                        pvalue := VOption "Primary" |})
               = Some ruleButtonPrimary) by by vm_compute.
  assert (H5 : buttonStyleMap "Primary" = Some BSPrimary) by reflexivity.
  assert (H6 : forall j q m',
     designProperties widgetPrimaryButton !! j = Some q ->
     reachesLookup buttonCatalog q = true ->
     resolved buttonCatalog
              (widgetCtx widgetPrimaryButton "App.Home" "App")
              (j, q) = Some m' ->
     action m' = ActMapToWidgetProperty ->
     widgetProperty m' = Some "buttonStyle" ->
     widgetValue m' = Some "Primary").
  { intros [|[|j]] q m' Hq; [|done..]. injection Hq as <-.
    intros _ Hres _ _. vm_compute in Hres. by injection Hres as <-. }
  split; [exact H0|]. split; [reflexivity|]. split; [exact H5|].
  exact (button_style_rule_sets_style buttonCatalog widgetPrimaryButton
           "App.Home" "Page" "App" [] 0 _ ruleButtonPrimary "Primary"
           BSPrimary H1 H0 H2 H3 H4 eq_refl eq_refl eq_refl H5 H6).
Defined.

(** ** Order of the surviving properties *)

Lemma aggregate_refs_sublist cx w st :
  run_refs (aggregateSpacing cx w st)
  `sublist_of` seq 0 (S (length (designProperties w))).
Proof.
  rewrite seq_S. cbn [Nat.add]. unfold aggregateSpacing.
  destruct (spacingPropertiesToMap st); cbn [run_refs].
  - by apply sublist_inserts_r.
  - destruct (findExistingSpacing _); [|done]. apply sublist_filter.
Qed.

Lemma foldl_listRemove_sublist refs l :
  foldl (fun refs i => listRemove i refs) refs l `sublist_of` refs.
Proof.
  revert refs. induction l as [|i l IH]; intros refs; cbn [foldl]; [done|].
  etrans; [apply IH|]. apply sublist_filter.
Qed.

Lemma foldl_execSetWidgetProp_sublist r l :
  run_refs (foldl execSetWidgetProp r l) `sublist_of` run_refs r.
Proof.
  revert r. induction l as [|it l IH]; intros r; cbn [foldl]; [done|].
  etrans; [apply IH|]. unfold execSetWidgetProp.
  destruct (applyWidgetPropertyMapping _ _); [|done]. apply sublist_filter.
Qed.

(** X12. The final property list of a widget refers to the property
    objects in increasing order of their index, each at most once: the
    original properties that survive keep their relative order, and the
    new "Spacing" property (the index after the last original one), when
    it was created and survives, comes last. *)
Theorem surviving_properties_keep_order C w dn dt mn csv :
  let run := processWidgetRun C w dn dt mn csv in
  run_refs run `sublist_of` seq 0 (S (length (designProperties w)))
  /\ NoDup (run_refs run)
  /\ designProperties (finalWidget run) = derefs (run_objs run) (run_refs run).
Proof.
  cbn zeta.
  assert (H : run_refs (processWidgetRun C w dn dt mn csv)
              `sublist_of` seq 0 (S (length (designProperties w)))).
  { destruct (processed w) eqn:Hp.
    - rewrite processWidgetRun_processed by done.
      etrans; [apply foldl_execSetWidgetProp_sublist|].
      cbn [execRemove execModify run_refs].
      etrans; [apply foldl_listRemove_sublist|].
      apply aggregate_refs_sublist.
    - unfold processWidgetRun. rewrite Hp. cbn [negb run_refs].
      rewrite seq_S. by apply sublist_inserts_r. }
  split; [done|]. split; [|done].
  eapply sublist_NoDup; [|exact H]. apply NoDup_seq.
Qed.

(** ** Where the final properties come from *)

Lemma elem_of_derefs objs refs q :
  q ∈ derefs objs refs <-> exists i, i ∈ refs /\ objs !! i = Some q.
Proof. unfold derefs. rewrite list_elem_of_omap. naive_solver. Qed.

Lemma foldl_applyMapping_origin objs (l : list (PropRef * PropertyMappingV2))
    i q :
  foldl (fun objs it => applyMapping objs (fst it) (snd it)) objs l !! i
  = Some q ->
  objs !! i = Some q
  \/ exists it, it ∈ l /\ truthyO (mappedProperty (snd it)) = true
                /\ truthyO (mappedValue (snd it)) = true
                /\ q = rewritten (snd it).
Proof.
  induction l as [|it l IH] using rev_ind; [by left|].
  rewrite foldl_app. cbn [foldl]. unfold applyMapping at 1.
  destruct (negb (truthyO (mappedProperty (snd it)))
            || negb (truthyO (mappedValue (snd it)))) eqn:Eg.
  - intros H. destruct (IH H) as [?|(it' & Hin & ?)]; [by left|].
    right. exists it'. split; [|done]. apply elem_of_app. by left.
  - apply orb_false_iff in Eg as [E1 E2].
    apply negb_false_iff in E1, E2.
    destruct (decide (i = fst (fst it))) as [->|Hne].
    + intros H. apply list_lookup_insert_Some in H as [(_ & <- & _)|[? _]];
        [|done].
      right. exists it. split; [|done]. apply elem_of_app. right. by left.
    + rewrite list_lookup_insert_ne by done.
      intros H. destruct (IH H) as [?|(it' & Hin & ?)]; [by left|].
      right. exists it'. split; [|done]. apply elem_of_app. by left.
Qed.

Lemma aggregate_objs_origin cx w st i q :
  run_objs (aggregateSpacing cx w st) !! i = Some q ->
  designProperties w !! i = Some q
  \/ (spacingPropertiesToMap st ≠ []
      /\ q = newSpacingProp
               (fst (mergeSpacing
                       (snd <$> findExistingSpacing (designProperties w))
                       (spacingPropertiesToMap st)))).
Proof.
  unfold aggregateSpacing.
  destruct (spacingPropertiesToMap st) as [|it items] eqn:E;
    cbn [run_objs]; [by left|].
  intros [H|[_ H]]%lookup_app_Some; [by left|]. right. split; [done|].
  destruct (i - length (designProperties w)) as [|n]; [|done].
  cbn in H. by injection H as <-.
Qed.

(** X13. [processWidget] adds no property of its own making: every
    property in the final list of a widget is an original property of the
    widget, or the object that [applyMapping] writes for a "map" rule
    (not a spacing rule) to which one of the widget's properties
    resolves, or the new aggregated "Spacing" property. *)
Theorem final_properties_origin C w dn dt mn csv q :
  q ∈ designProperties
        (fst (fst (processWidget C w dn dt mn csv))) ->
  q ∈ designProperties w
  \/ (exists i p m,
        designProperties w !! i = Some p /\ reachesLookup C p = true
        /\ resolved C (widgetCtx w dn mn) (i, p) = Some m
        /\ action m = ActMap /\ isSpacingMapping m = false
        /\ q = rewritten m)
  \/ (exists items,
        items = spacingPropertiesToMap (analyseWidget C w dn mn csv)
        /\ items ≠ []
        /\ q = newSpacingProp
                 (fst (mergeSpacing
                         (snd <$> findExistingSpacing (designProperties w))
                         items))).
Proof.
  destruct (processed w) eqn:Hp.
  2: { rewrite processWidgetRun_skipped by done. cbn [fst]. by left. }
  unfold processWidget. cbn [fst finalWidget setDesignProperties
                             designProperties].
  intros (i & _ & Hq)%elem_of_derefs.
  destruct (processWidgetRun_final C w dn dt mn csv Hp)
    as (_ & _ & Hobjs & _).
  rewrite Hobjs in Hq.
  apply foldl_applyMapping_origin in Hq as [Hq|(it & Hin & _ & _ & ->)].
  - apply aggregate_objs_origin in Hq as [Hq|[Hne ->]].
    + left. by eapply list_elem_of_lookup_2.
    + right. right. by eexists.
  - right. left. destruct it as [[j p] m].
    destruct (analyse_queues C (widgetCtx w dn mn) csv
                (withRefs (designProperties w))) as (Q1 & _).
    destruct (Q1 (j, p) m Hin) as (Hl & Hr & Hres & Ha & Hs).
    apply elem_of_withRefs in Hl. by exists j, p, m.
Qed.

Lemma final_properties_origin_witness :
  {| key := "Align content"; pvalue := VOption "Row" |}
  ∈ designProperties widgetTwoAlign
  \/ (exists i p m,
        designProperties widgetTwoAlign !! i = Some p
        /\ reachesLookup sampleCatalog p = true
        /\ resolved sampleCatalog (widgetCtx widgetTwoAlign "App.Home" "App")
                    (i, p) = Some m
        /\ action m = ActMap /\ isSpacingMapping m = false
        /\ {| key := "Align content"; pvalue := VOption "Row" |}
           = rewritten m)
  \/ (exists items,
        items = spacingPropertiesToMap
                  (analyseWidget sampleCatalog widgetTwoAlign "App.Home"
                                 "App" [])
        /\ items ≠ []
        /\ {| key := "Align content"; pvalue := VOption "Row" |}
           = newSpacingProp
               (fst (mergeSpacing
                       (snd <$> findExistingSpacing
                                  (designProperties widgetTwoAlign))
                       items))).
Proof.
  apply (final_properties_origin sampleCatalog widgetTwoAlign "App.Home"
           "Page" "App" []).
  replace (designProperties
             (fst (fst (processWidget sampleCatalog widgetTwoAlign "App.Home"
                          "Page" "App" []))))
    with [ {| key := "Align content"; pvalue := VOption "Row" |} ]
    by by vm_compute.
  apply list_elem_of_here.
Defined.

(** ** Reading and writing the compound spacing value *)

Lemma entryValue_Some e v :
  entryValue e = Some v <-> snd e = VOption v /\ truthy v = true.
Proof.
  unfold entryValue. destruct (snd e) as [|o|ps| |s];
    try (split; [done|by intros [? _]]).
  destruct (truthy o) eqn:E.
  - split; [by intros [= ->]|]. by intros [[= ->] _].
  - split; [done|]. intros [[= ->] ?]. congruence.
Qed.

Lemma readsSlot_entry k d e :
  readsSlot k d e
  <-> exists v, e = (slotKey k d, VOption v) /\ truthy v = true.
Proof.
  unfold readsSlot. destruct e as [key0 pv]. cbn [fst]. split.
  - intros [-> [v Hv]]. apply entryValue_Some in Hv as [Hv1 Hv2].
    cbn in Hv1. subst pv. by exists v.
  - intros (v & [= -> ->] & Hv). split; [done|]. exists v.
    apply entryValue_Some. done.
Qed.

Lemma slot_parseEntry_other st e k d :
  ~ readsSlot k d e -> slot k d (parseEntry st e) = slot k d st.
Proof.
  intros Hn.
  destruct (parseEntry_cases st e) as [->|(k' & d' & v' & Hd' & Hv' & -> & ->)];
    [done|].
  rewrite slot_setSlot. rewrite decide_False; [done|].
  intros [-> ->]. apply Hn. apply readsSlot_entry. by exists v'.
Qed.

(** The parser, slot by slot: the last entry that is read into the slot
    decides. *)
Lemma slot_parse st l k d :
  d ∈ sides ->
  slot k d (foldl parseEntry st l)
  = match last (filter (readsSlot k d) l) ≫= entryValue with
    | Some v => Some v
    | None => slot k d st
    end.
Proof.
  intros Hd. induction l as [|e l IH] using rev_ind; [done|].
  rewrite foldl_app, filter_app, filter_cons, filter_nil. cbn [foldl].
  destruct (decide (readsSlot k d e)) as [Hr|Hr].
  - rewrite last_snoc. cbn [mbind option_bind].
    apply readsSlot_entry in Hr as (v & -> & Hv).
    rewrite parseEntry_hit by done. rewrite slot_setSlot.
    rewrite decide_True by done.
    unfold entryValue. cbn [snd]. by rewrite Hv.
  - rewrite app_nil_r, slot_parseEntry_other by done. exact IH.
Qed.

Lemma slot_emptyState k d : d ∈ sides -> slot k d emptyState = Some "None".
Proof.
  intros Hd. unfold sides in Hd.
  repeat (apply elem_of_cons in Hd as [->|Hd]); [..|by apply elem_of_nil in Hd];
    by destruct k.
Qed.

(** X14. [parseSpacingState] on a compound value reads every side of
    both layers: the slot holds the option of the last entry of the
    compound that is keyed ["margin-<side>"] or ["padding-<side>"] for that
    slot and carries a non-empty option, and ["None"] when there is no such
    entry; entries with other keys, with an empty option or with a value
    that is not an option are ignored. *)
Theorem parseSpacingState_last_entry_wins p l k d :
  pvalue p = VCompound l -> d ∈ sides ->
  exists st,
    parseSpacingState (Some p) = Some st
    /\ slot k d st
       = Some (default "None"
                 (last (filter (readsSlot k d) l) ≫= entryValue)).
Proof.
  intros Hp Hd. unfold parseSpacingState. rewrite Hp.
  eexists. split; [done|]. rewrite slot_parse by done.
  rewrite slot_emptyState by done.
  by destruct (last (filter (readsSlot k d) l) ≫= entryValue).
Qed.

Lemma parseSpacingState_last_entry_wins_witness :
  exists st,
    parseSpacingState
      (Some {| key := "Spacing";
               pvalue := VCompound [("margin-top", VOption "S");
                                    ("margin-top", VOption "L");
                                    ("margin-top", VOption "");
                                    ("margin-all", VOption "M")] |})
    = Some st
    /\ slot KMargin "top" st = Some "L".
Proof.
  destruct (parseSpacingState_last_entry_wins
              {| key := "Spacing";
                 pvalue := VCompound [("margin-top", VOption "S");
                                      ("margin-top", VOption "L");
                                      ("margin-top", VOption "");
                                      ("margin-all", VOption "M")] |}
              _ KMargin "top" eq_refl) as (st & H1 & H2).
  - apply (bool_decide_unpack _). by vm_compute.
  - exists st. split; [exact H1|]. rewrite H2. by vm_compute.
Defined.

Lemma itemVal_truthy item : truthy (itemVal item) = true.
Proof.
  unfold itemVal, orElse. destruct (mappedValue (si_mapping item)) as [s|];
    [|done]. by destruct (truthy s) eqn:E.
Qed.

Lemma last_filter_elem {A} (P : A -> Prop) `{!forall x, Decision (P x)}
    (l : list A) x :
  last (filter P l) = Some x -> x ∈ l /\ P x.
Proof.
  intros Hl. apply last_elem_of in Hl.
  by apply list_elem_of_filter in Hl as [? ?].
Qed.

Lemma slot_seed_truthy e k d v :
  d ∈ sides -> slot k d (seedState e) = Some v -> truthy v = true.
Proof.
  intros Hd. destruct e as [p|]; [|rewrite slot_emptyState by done;
                                    by intros [= <-]].
  destruct (pvalue p) as [| |l| |] eqn:Ep.
  3: { rewrite (seedState_compound p l) by done. rewrite slot_parse by done.
       destruct (last (filter (readsSlot k d) l)) as [x|] eqn:El;
         cbn [mbind option_bind].
       - destruct (entryValue x) as [v'|] eqn:Ev.
         + intros [= <-]. by apply entryValue_Some in Ev as [_ ?].
         + rewrite slot_emptyState by done. by intros [= <-].
       - rewrite slot_emptyState by done. by intros [= <-]. }
  all: rewrite seedState_not_compound by (intros ? ? [= <-]; congruence);
    rewrite slot_emptyState by done; by intros [= <-].
Qed.

Lemma slot_merge_truthy e items k d v :
  d ∈ sides -> slot k d (fst (mergeSpacing e items)) = Some v ->
  truthy v = true.
Proof.
  intros Hd. rewrite slot_merge by done.
  destruct (last (filter (targets k d) items)) as [item|].
  - intros [= <-]. apply itemVal_truthy.
  - by apply slot_seed_truthy.
Qed.

Lemma materialize_ext st st' :
  (forall k d, d ∈ sides -> slot k d st = slot k d st') ->
  materialize st = materialize st'.
Proof.
  intros H. rewrite !materialize_slots.
  rewrite !(H _ _) by (apply (bool_decide_unpack _); by vm_compute). done.
Qed.

(** Reading back a compound that was written from a state whose sides
    are all set to non-empty values. *)
Lemma slot_parse_materialize st k d :
  sidesPresent st ->
  (forall k d v, d ∈ sides -> slot k d st = Some v -> truthy v = true) ->
  d ∈ sides ->
  slot k d (foldl parseEntry emptyState (materialize st)) = slot k d st.
Proof.
  intros Hp Ht Hd. rewrite slot_parse by done.
  destruct (Hp k d Hd) as [v Hv]. rewrite Hv.
  destruct (last (filter (readsSlot k d) (materialize st))) as [x|] eqn:El;
    cbn [mbind option_bind].
  - apply last_filter_elem in El as [Hin Hr].
    apply readsSlot_entry in Hr as (v' & -> & Hv').
    unfold entryValue. cbn [snd]. rewrite Hv'.
    apply elem_of_materialize in Hin as (k2 & d2 & v2 & _ & Hs & _ & Heq);
      [|done].
    injection Heq as Hk <-. apply slotKey_inj in Hk as [<- <-]. congruence.
  - rewrite slot_emptyState by done.
    destruct (decide (v = "None")) as [->|Hne]; [done|]. exfalso.
    assert (Hin : (slotKey k d, VOption v)
                  ∈ filter (readsSlot k d) (materialize st)).
    { apply list_elem_of_filter. split.
      - apply readsSlot_entry. exists v. split; [done|]. by eapply Ht.
      - apply elem_of_materialize; [done|]. by exists k, d, v. }
    destruct (filter (readsSlot k d) (materialize st)) as [|y t]
      using rev_ind; [by apply elem_of_nil in Hin|].
    by rewrite last_snoc in El.
Qed.

(** X15. Round trip: the "Spacing" property that the aggregation writes
    is read back by [parseSpacingState] as a state that yields the same
    compound again, and so does the base state seeded from it. *)
Theorem written_spacing_reads_back e items :
  let st := fst (mergeSpacing e items) in
  exists st',
    parseSpacingState (Some (newSpacingProp st)) = Some st'
    /\ materialize st' = materialize st
    /\ materialize (seedState (Some (newSpacingProp st))) = materialize st.
Proof.
  cbn zeta. eexists. split; [reflexivity|].
  assert (H : forall k d, d ∈ sides ->
            slot k d (foldl parseEntry emptyState
                        (materialize (fst (mergeSpacing e items))))
            = slot k d (fst (mergeSpacing e items))).
  { intros k d Hd. apply slot_parse_materialize; [|..|done].
    - apply sidesPresent_merge.
    - intros k' d' v' Hd'. by apply slot_merge_truthy. }
  split.
  - by apply materialize_ext.
  - apply materialize_ext. intros k d Hd.
    rewrite (seedState_compound _ (materialize (fst (mergeSpacing e items))))
      by done.
    by apply H.
Qed.

(** ** Contributions that leave no trace in the compound *)

Lemma targets_side k d item : d ∈ sides -> targets k d item -> itemDir item ∈ sides.
Proof. intros Hd [_ ->]. done. Qed.

(** X16. Only the contributions whose direction is one of "top",
    "right", "bottom" and "left" influence the compound that is written:
    leaving out every contribution with another direction gives the same
    entries of the new "Spacing" property. *)
Theorem only_side_contributions_are_written e items :
  materialize (fst (mergeSpacing e items))
  = materialize
      (fst (mergeSpacing e (filter (fun it => itemDir it ∈ sides) items))).
Proof.
  apply materialize_ext. intros k d Hd. rewrite !slot_merge by done.
  rewrite list_filter_filter.
  rewrite (list_filter_iff (fun x => targets k d x /\ itemDir x ∈ sides)
             (targets k d)); [done|].
  intros x. split; [tauto|]. intros Ht. split; [done|].
  by eapply targets_side.
Qed.

Lemma orElse_falsy o d : truthyO o = false -> orElse o d = d.
Proof. destruct o as [s|]; [|done]. cbn. by intros ->. Qed.

(** X17. When the last contribution to a side comes from a rule without
    mapped value, the slot is reset to ["None"]: the written compound has
    no entry for that side, also when the existing "Spacing" property or
    an earlier contribution had set one. *)
Theorem valueless_contribution_clears_side e items item k d :
  d ∈ sides ->
  last (filter (targets k d) items) = Some item ->
  truthyO (mappedValue (si_mapping item)) = false ->
  forall v, (slotKey k d, VOption v) ∉ materialize (fst (mergeSpacing e items)).
Proof.
  intros Hd Hl Hv v Hin.
  apply elem_of_materialize in Hin as (k2 & d2 & v2 & _ & Hs & Hne & Heq);
    [|apply sidesPresent_merge].
  injection Heq as Hk <-. apply slotKey_inj in Hk as [<- <-].
  rewrite slot_merge in Hs by done. rewrite Hl in Hs. injection Hs as <-.
  apply Hne. unfold itemVal. by apply orElse_falsy.
Qed.

Lemma valueless_contribution_clears_side_witness :
  ("margin-top", VOption "Small")
  ∉ materialize (fst (mergeSpacing (Some existingMarginTop)
                        [contribMarginReset])).
Proof.
  apply (valueless_contribution_clears_side (Some existingMarginTop)
           [contribMarginReset] contribMarginReset KMargin "top").
  - apply (bool_decide_unpack _). by vm_compute.
  - by vm_compute.
  - reflexivity.
Defined.

(** ** The element type of a widget *)

Lemma splitOn_dollarFree s : dollarFree s = true -> splitOn "$" s = [s].
Proof.
  induction s as [|c s IH]; [done|]. cbn [dollarFree splitOn].
  intros [Hc Hs]%andb_true_iff. apply negb_true_iff in Hc. rewrite Hc.
  by rewrite IH.
Qed.

Lemma splitOn_dollar_app a rest :
  dollarFree a = true ->
  splitOn "$" (a +:+ String "$" rest) = a :: splitOn "$" rest.
Proof.
  induction a as [|c a IH]; [done|]. cbn [dollarFree].
  intros [Hc Ha]%andb_true_iff. apply negb_true_iff in Hc.
  change (String c a +:+ String "$" rest)
    with (String c (a +:+ String "$" rest)).
  cbn [splitOn]. rewrite Hc. by rewrite IH.
Qed.

Lemma append_empty_r (b : string) : b +:+ "" = b.
Proof.
  induction b as [|c b IH]; [done|].
  change (String c b +:+ "") with (String c (b +:+ "")). by rewrite IH.
Qed.

Lemma truthy_app_dollar a rest : truthy (a +:+ String "$" rest) = true.
Proof. by destruct a. Qed.

(** X18. For a widget with a structure type name, [getWidgetTypeName]
    returns the name itself when it has no ["$"], and otherwise the
    segment between the first ["$"] and the second one (or the end):
    ["Pages$ActionButton"] gives ["ActionButton"]. *)
Theorem getWidgetTypeName_second_segment w s :
  attrs w !! "structureTypeName" = Some s ->
  (truthy s = true -> dollarFree s = true -> getWidgetTypeName w = s)
  /\ (forall a b rest,
        dollarFree a = true -> dollarFree b = true ->
        s = a +:+ String "$" (b +:+ rest) ->
        rest = "" \/ (exists r, rest = String "$" r) ->
        getWidgetTypeName w = b).
Proof.
  intros Hs. unfold getWidgetTypeName. rewrite Hs. cbn [truthyO jsShow].
  split.
  - intros Ht Hd. rewrite Ht. by rewrite splitOn_dollarFree.
  - intros a b rest Ha Hb -> Hrest. rewrite truthy_app_dollar.
    rewrite splitOn_dollar_app by done.
    destruct Hrest as [->|[r ->]].
    + rewrite append_empty_r. by rewrite splitOn_dollarFree.
    + by rewrite splitOn_dollar_app.
Qed.

Lemma getWidgetTypeName_second_segment_witness :
  getWidgetTypeName (divContainer []) = "DivContainer"
  /\ getWidgetTypeName widgetBadge = "com.mendix.widget.native.badge.Badge".
Proof.
  split.
  - destruct (getWidgetTypeName_second_segment (divContainer [])
                "Pages$DivContainer" eq_refl) as [_ H].
    apply (H "Pages" "DivContainer" ""); [reflexivity..|by left].
  - destruct (getWidgetTypeName_second_segment widgetBadge
                "com.mendix.widget.native.badge.Badge" eq_refl) as [H _].
    apply H; reflexivity.
Defined.

(** ** Counters and audit rows of a whole run *)

Lemma accounted_refl csv r : accounted csv csv r r.
Proof. unfold accounted. split; [done|]. repeat split; lia. Qed.

Lemma accounted_trans csv0 csv1 csv2 r0 r1 r2 :
  accounted csv0 csv1 r0 r1 -> accounted csv1 csv2 r1 r2 ->
  accounted csv0 csv2 r0 r2.
Proof.
  unfold accounted.
  intros (P1 & A1 & B1 & C1 & D1 & E1) (P2 & A2 & B2 & C2 & D2 & E2).
  split; [by etrans|]. repeat split; lia.
Qed.

Lemma visitWidget_accounted C dn tn mn acc w :
  let out := visitWidget C dn tn mn acc w in
  accounted (snd (fst acc)) (snd (fst out)) (snd acc) (snd out)
  /\ length (fst (fst out)) = S (length (fst (fst acc))).
Proof.
  destruct acc as [[ws csv] r]. cbn zeta. unfold visitWidget.
  pose proof (processWidget_accounting C w dn (typeNameOf tn) mn csv) as H.
  destruct (processWidget C w dn (typeNameOf tn) mn csv) as [[w' csv'] wr].
  cbn [fst snd] in *.
  destruct H as ((H1 & H2 & H3) & Hpre & HM & HR & HW & HS & HL).
  split; [|rewrite length_app; cbn; lia].
  unfold accounted. split; [done|].
  destruct (0 <? props wr) eqn:E.
  - cbn. repeat split; lia.
  - apply Nat.ltb_ge in E. repeat split; lia.
Qed.

Lemma foldl_visitWidget_accounted C dn tn mn acc ws :
  let out := foldl (visitWidget C dn tn mn) acc ws in
  accounted (snd (fst acc)) (snd (fst out)) (snd acc) (snd out)
  /\ length (fst (fst out)) = length (fst (fst acc)) + length ws.
Proof.
  cbn zeta. induction ws as [|w ws IH] using rev_ind.
  - cbn. split; [apply accounted_refl|lia].
  - rewrite foldl_app. cbn [foldl]. destruct IH as [IH1 IH2].
    destruct (visitWidget_accounted C dn tn mn
                (foldl (visitWidget C dn tn mn) acc ws) w) as [V1 V2].
    split; [by eapply accounted_trans|].
    rewrite V2, IH2, length_app. cbn. lia.
Qed.

Lemma accounted_pageRows csv r dn mn ps :
  accounted csv (csv ++ map (pagePropRow dn mn) ps) r
    (addRemoved (length ps) (addProps (length ps) r)).
Proof.
  unfold accounted. rewrite !countAction_app, !countAction_pageRows.
  repeat (first [rewrite decide_True by done
                |rewrite decide_False by done]).
  split; [by apply prefix_app_r|]. cbn. repeat split; lia.
Qed.

Lemma processDocument_unfold C tn mn d csv r :
  processDocument C tn mn d csv r =
    if negb (loadable d) then (d, csv, r)
    else if nativePage tn d then (d, csv, addSkippedNativeLayouts 1 r)
    else
      let propsToRemove :=
        if isPageDoc tn d then pageDesignProperties d else [] in
      let out :=
        foldl (visitWidget C (docNameOf d) tn mn)
              ([], csv ++ map (pagePropRow (docNameOf d) mn) propsToRemove,
               addRemoved (length propsToRemove)
                 (addProps (length propsToRemove) r))
              (docWidgets d) in
      (setDocContent
         (if isPageDoc tn d then [] else pageDesignProperties d)
         (fst (fst out)) d,
       snd (fst out), snd out).
Proof.
  unfold processDocument, nativePage, isPageDoc, docNameOf.
  destruct (negb (loadable d)); [done|].
  destruct (_ && includes _ _); [done|]. cbn zeta.
  by destruct (foldl _ _ _) as [[ws c] r'].
Qed.

Lemma processDocument_accounted C tn mn d csv r :
  accounted csv (snd (fst (processDocument C tn mn d csv r)))
            r (snd (processDocument C tn mn d csv r)).
Proof.
  rewrite processDocument_unfold.
  destruct (negb (loadable d)); [apply accounted_refl|].
  destruct (nativePage tn d).
  - cbn. unfold accounted. split; [done|]. repeat split; cbn; lia.
  - cbn zeta. cbn [fst snd].
    eapply accounted_trans; [apply accounted_pageRows|].
    match goal with
    | |- context [foldl ?f ?acc ?ws] =>
        exact (proj1 (foldl_visitWidget_accounted C (docNameOf d) tn mn acc ws))
    end.
Qed.

(** What [processDocument] does to the document itself. *)
Lemma processDocument_doc C tn mn d csv r :
  let d' := fst (fst (processDocument C tn mn d csv r)) in
  qualifiedName d' = qualifiedName d /\ docInfoName d' = docInfoName d
  /\ loadable d' = loadable d /\ isPage d' = isPage d
  /\ layoutName d' = layoutName d
  /\ length (docWidgets d') = length (docWidgets d)
  /\ (loadable d = false \/ nativePage tn d = true -> d' = d)
  /\ (loadable d = true -> nativePage tn d = false ->
      pageDesignProperties d'
      = if isPageDoc tn d then [] else pageDesignProperties d).
Proof.
  cbn zeta. rewrite processDocument_unfold.
  destruct (loadable d) eqn:El; cbn [negb].
  2: { repeat split; try done. }
  destruct (nativePage tn d) eqn:En.
  - repeat split; try done.
  - cbn zeta. cbn [fst snd setDocContent qualifiedName docInfoName loadable
                   isPage layoutName docWidgets pageDesignProperties].
    repeat split; try done.
    + match goal with
      | |- context [foldl ?f ?acc ?ws] =>
          rewrite (proj2 (foldl_visitWidget_accounted C (docNameOf d) tn mn
                            acc ws))
      end. done.
    + intros [?|?]; done.
Qed.

Lemma processDocumentCollection_snoc C sel store d tn mn csv :
  processDocumentCollection C sel (store ++ [d]) tn mn csv =
    let '(done, csv1, result) :=
      processDocumentCollection C sel store tn mn csv in
    if sel d
    then let '(d', csv', result') :=
           processDocument C tn mn d csv1 result in
         (done ++ [d'], csv', result')
    else (done ++ [d], csv1, result).
Proof. unfold processDocumentCollection. by rewrite foldl_app. Qed.

Lemma processDocumentCollection_accounted C sel store tn mn csv :
  let out := processDocumentCollection C sel store tn mn csv in
  accounted csv (snd (fst out)) zeroResult (snd out).
Proof.
  cbn zeta. induction store as [|d store IH] using rev_ind.
  - apply accounted_refl.
  - rewrite processDocumentCollection_snoc.
    destruct (processDocumentCollection C sel store tn mn csv)
      as [[ds c] r]. cbn [fst snd] in IH.
    destruct (sel d); [|exact IH].
    pose proof (processDocument_accounted C tn mn d c r) as Hd.
    destruct (processDocument C tn mn d c r) as [[d' c'] r'].
    cbn [fst snd] in *. by eapply accounted_trans.
Qed.

(** The documents that [processDocumentCollection] leaves behind, one by
    one: a selected document is the result of [processDocument] at the
    audit rows and counters reached before it, another one is itself. *)
Lemma processDocumentCollection_docs C sel store tn mn csv :
  Forall2 (fun d d' =>
             (sel d = true ->
              exists csv0 r0,
                d' = fst (fst (processDocument C tn mn d csv0 r0)))
             /\ (sel d = false -> d' = d))
          store (fst (fst (processDocumentCollection C sel store tn mn csv))).
Proof.
  induction store as [|d store IH] using rev_ind; [constructor|].
  rewrite processDocumentCollection_snoc.
  destruct (processDocumentCollection C sel store tn mn csv) as [[ds c] r].
  cbn [fst snd] in IH.
  destruct (sel d) eqn:Es.
  - destruct (processDocument C tn mn d c r) as [[d' c'] r'] eqn:Ed.
    cbn [fst]. apply Forall2_app; [done|]. constructor; [|constructor].
    split; [|intros ?; congruence]. intros _. exists c, r. by rewrite Ed.
  - cbn [fst]. apply Forall2_app; [done|]. constructor; [|constructor].
    split; [intros ?; congruence|done].
Qed.

Lemma processModule_accounted C rs mn :
  accounted (rs_csv rs) (rs_csv (processModule C rs mn))
            (rs_totals rs) (rs_totals (processModule C rs mn)).
Proof.
  unfold processModule.
  destruct (bool_decide (mn = "System")); [apply accounted_refl|].
  pose proof (processDocumentCollection_accounted C (inModule mn)
                (allPages (rs_model rs)) TPage mn (rs_csv rs)) as H1.
  destruct (processDocumentCollection C (inModule mn)
              (allPages (rs_model rs)) TPage mn (rs_csv rs))
    as [[pg c1] r1].
  pose proof (processDocumentCollection_accounted C (inModule mn)
                (allSnippets (rs_model rs)) TSnippet mn c1) as H2.
  destruct (processDocumentCollection C (inModule mn)
              (allSnippets (rs_model rs)) TSnippet mn c1)
    as [[sn c2] r2].
  pose proof (processDocumentCollection_accounted C (inModule mn)
                (allLayouts (rs_model rs)) TLayout mn c2) as H3.
  destruct (processDocumentCollection C (inModule mn)
              (allLayouts (rs_model rs)) TLayout mn c2)
    as [[ly c3] r3].
  cbn [fst snd rs_csv rs_totals] in *.
  destruct H1 as (P1 & A1 & B1 & C1 & D1 & E1).
  destruct H2 as (P2 & A2 & B2 & C2 & D2 & E2).
  destruct H3 as (P3 & A3 & B3 & C3 & D3 & E3).
  cbn in A1, B1, D1, E1, A2, B2, D2, E2, A3, B3, D3, E3.
  unfold accounted. split; [by etrans; [|etrans]|].
  cbn. repeat split; lia.
Qed.

Lemma analyseModel_accounted C model :
  accounted [] (rs_csv (analyseModel C model)) zeroResult
            (rs_totals (analyseModel C model)).
Proof.
  unfold analyseModel.
  assert (H : forall rs,
            accounted (rs_csv rs)
              (rs_csv (foldl (processModule C) rs (allModules model)))
              (rs_totals rs)
              (rs_totals (foldl (processModule C) rs (allModules model)))).
  { induction (allModules model) as [|m ms IH]; intros rs; cbn [foldl].
    - apply accounted_refl.
    - eapply accounted_trans; [apply processModule_accounted|apply IH]. }
  apply (H {| rs_model := model; rs_csv := []; rs_totals := zeroResult |}).
Qed.

Lemma countAction_total csv :
  length csv = countAction Mapped csv + countAction Removed csv
               + countAction Skipped csv + countAction WidgetPropertySet csv.
Proof.
  induction csv as [|row csv IH] using rev_ind; [done|].
  rewrite !countAction_snoc, length_app, IH. cbn [length].
  destruct (csv_action row);
    repeat (first [rewrite decide_True by done
                  |rewrite decide_False by done]); cbn [length]; lia.
Qed.

(** The totals and the rows of the analysis of a model. *)
Lemma analyseModel_totals C model :
  let rs := analyseModel C model in
  countAction Mapped (rs_csv rs) = mapped (rs_totals rs)
  /\ countAction Removed (rs_csv rs) = removed (rs_totals rs)
  /\ countAction Skipped (rs_csv rs) = 0
  /\ props (rs_totals rs)
     = mapped (rs_totals rs) + removed (rs_totals rs)
       + skipped (rs_totals rs)
       + countAction WidgetPropertySet (rs_csv rs)
  /\ length (rs_csv rs)
     = mapped (rs_totals rs) + removed (rs_totals rs)
       + countAction WidgetPropertySet (rs_csv rs).
Proof.
  cbn zeta. destruct (analyseModel_accounted C model)
    as (_ & A & B & C0 & D & _).
  pose proof (countAction_total (rs_csv (analyseModel C model))) as T.
  cbn in A, B, C0, D. repeat split; lia.
Qed.

(** ** Documents *)

(** X19. [processDocumentCollection] keeps the documents in number and
    order; each document keeps its names, its kind, its layout and its
    number of widgets; and a document that is not selected, cannot be
    loaded or is a page on a layout whose lower-cased name contains
    "native" is left exactly as it was. *)
Theorem collection_keeps_documents C sel store tn mn csv :
  Forall2 (fun d d' =>
             qualifiedName d' = qualifiedName d
             /\ docInfoName d' = docInfoName d
             /\ loadable d' = loadable d /\ isPage d' = isPage d
             /\ layoutName d' = layoutName d
             /\ length (docWidgets d') = length (docWidgets d)
             /\ (sel d = false \/ loadable d = false
                 \/ nativePage tn d = true -> d' = d))
          store (fst (fst (processDocumentCollection C sel store tn mn csv))).
Proof.
  eapply Forall2_impl; [apply processDocumentCollection_docs|].
  intros d d' [Hs Hu]. destruct (sel d) eqn:Es.
  - destruct (Hs eq_refl) as (csv0 & r0 & ->).
    destruct (processDocument_doc C tn mn d csv0 r0)
      as (H1 & H2 & H3 & H4 & H5 & H6 & H7 & _).
    repeat split; try done. intros [?|H]; [done|]. by apply H7.
  - rewrite (Hu eq_refl). repeat split; done.
Qed.

Lemma collection_keeps_documents_witness :
  fst (fst (processDocumentCollection sampleCatalog (inModule "App")
              [nativeHome] TPage "App" [])) = [nativeHome].
Proof.
  pose proof (collection_keeps_documents sampleCatalog (inModule "App")
                [nativeHome] TPage "App" []) as H.
  destruct (fst (fst (processDocumentCollection sampleCatalog (inModule "App")
                        [nativeHome] TPage "App" []))) as [|d' ds].
  - by apply Forall2_nil_inv_r in H.
  - apply Forall2_cons_1 in H as [(_ & _ & _ & _ & _ & _ & Hd) Hrest].
    apply Forall2_nil_inv_l in Hrest as ->.
    rewrite Hd; [done|]. right. right. by vm_compute.
Defined.

Lemma includes_prefix_rows C tn mn d csv r :
  loadable d = true -> nativePage tn d = false ->
  (csv ++ map (pagePropRow (docNameOf d) mn)
              (if isPageDoc tn d then pageDesignProperties d else []))
  `prefix_of` snd (fst (processDocument C tn mn d csv r)).
Proof.
  intros Hl Hn. rewrite processDocument_unfold, Hl, Hn. cbn [negb].
  cbn zeta. cbn [fst snd].
  match goal with
  | |- context [foldl ?f ?acc ?ws] =>
      destruct (proj1 (foldl_visitWidget_accounted C (docNameOf d) tn mn
                         acc ws)) as (Hpre & _)
  end.
  exact Hpre.
Qed.

(** X20. For a loadable page that is not on a native layout, processed
    as a page, all design properties of the page itself are removed,
    whether a rule covers them or not, and one "removed" row per property
    is appended, in order, before any row of its widgets; processed as a
    snippet or a layout, the document keeps them. *)
Theorem page_design_properties_all_removed C mn d csv r :
  loadable d = true -> isPage d = true -> nativePage TPage d = false ->
  let out := processDocument C TPage mn d csv r in
  pageDesignProperties (fst (fst out)) = []
  /\ (csv ++ map (pagePropRow (docNameOf d) mn) (pageDesignProperties d))
     `prefix_of` snd (fst out)
  /\ forall tn, tn ≠ TPage ->
       pageDesignProperties (fst (fst (processDocument C tn mn d csv r)))
       = pageDesignProperties d.
Proof.
  intros Hl Hp Hn. cbn zeta. split; [|split].
  - destruct (processDocument_doc C TPage mn d csv r)
      as (_ & _ & _ & _ & _ & _ & _ & H8).
    rewrite (H8 Hl Hn). cbn [isPageDoc]. by rewrite Hp.
  - pose proof (includes_prefix_rows C TPage mn d csv r Hl Hn) as H.
    cbn [isPageDoc] in H. by rewrite Hp in H.
  - intros tn Htn.
    destruct (processDocument_doc C tn mn d csv r)
      as (_ & _ & _ & _ & _ & _ & _ & H8).
    assert (Hi : isPageDoc tn d = false) by by destruct tn.
    assert (Hn' : nativePage tn d = false).
    { unfold nativePage. by rewrite Hi. }
    rewrite (H8 Hl Hn'). by rewrite Hi.
Qed.

Lemma page_design_properties_all_removed_witness :
  pageDesignProperties
    (fst (fst (processDocument sampleCatalog TPage "AppStore" storePage
                 [] zeroResult))) = [].
Proof.
  destruct (page_design_properties_all_removed sampleCatalog "AppStore"
              storePage [] zeroResult eq_refl eq_refl)
    as (H & _).
  - by vm_compute.
  - exact H.
Defined.

Lemma prefix_append (a rest : string) : String.prefix a (a +:+ rest) = true.
Proof.
  induction a as [|c a IH]; [by destruct rest|].
  change (String c a +:+ rest) with (String c (a +:+ rest)).
  cbn [String.prefix]. by destruct (ascii_dec c c).
Qed.

(** X21. [main] chooses the pages of a module by a prefix test on the
    qualified name: under every module other than "System", a loadable
    page, not on a native layout, whose qualified name starts with the
    module's name is processed (its own design properties are removed),
    so a page of module "AppStore" is also processed under module
    "App". *)
Theorem module_pages_chosen_by_name_prefix C rs mn rest i d :
  mn ≠ "System" ->
  allPages (rs_model rs) !! i = Some d ->
  qualifiedName d = Some (mn +:+ rest) ->
  loadable d = true -> isPage d = true -> nativePage TPage d = false ->
  exists d',
    allPages (rs_model (processModule C rs mn)) !! i = Some d'
    /\ qualifiedName d' = qualifiedName d
    /\ pageDesignProperties d' = [].
Proof.
  intros Hsys Hi Hq Hl Hp Hn. unfold processModule.
  rewrite bool_decide_eq_false_2 by done.
  pose proof (processDocumentCollection_docs C (inModule mn)
                (allPages (rs_model rs)) TPage mn (rs_csv rs)) as H1.
  destruct (processDocumentCollection C (inModule mn)
              (allPages (rs_model rs)) TPage mn (rs_csv rs))
    as [[pg c1] r1].
  destruct (processDocumentCollection C (inModule mn)
              (allSnippets (rs_model rs)) TSnippet mn c1)
    as [[sn c2] r2].
  destruct (processDocumentCollection C (inModule mn)
              (allLayouts (rs_model rs)) TLayout mn c2)
    as [[ly c3] r3].
  cbn [fst snd rs_model allPages] in *.
  destruct (Forall2_lookup_l _ _ _ _ _ H1 Hi) as (d' & Hd' & Hrel).
  exists d'. split; [done|].
  assert (Hsel : inModule mn d = true).
  { unfold inModule, startsWith. rewrite Hq. apply prefix_append. }
  destruct (proj1 Hrel Hsel) as (csv0 & r0 & ->).
  destruct (processDocument_doc C TPage mn d csv0 r0)
    as (H2 & _ & _ & _ & _ & _ & _ & H8).
  split; [done|]. rewrite (H8 Hl Hn). cbn [isPageDoc]. by rewrite Hp.
Qed.

Lemma module_pages_chosen_by_name_prefix_witness :
  exists d',
    allPages (rs_model (processModule sampleCatalog
                          {| rs_model := storeModel; rs_csv := [];
                             rs_totals := zeroResult |} "App")) !! 0
    = Some d'
    /\ qualifiedName d' = Some "AppStore.Home"
    /\ pageDesignProperties d' = [].
Proof.
  apply (module_pages_chosen_by_name_prefix sampleCatalog
           {| rs_model := storeModel; rs_csv := [];
              rs_totals := zeroResult |} "App" "Store.Home" 0 storePage).
  - done.
  - reflexivity.
  - reflexivity.
  - reflexivity.
  - reflexivity.
  - by vm_compute.
Defined.

(** ** Native pages *)

Lemma visitWidget_skippedNativeLayouts C dn tn mn acc w :
  skippedNativeLayouts (snd (visitWidget C dn tn mn acc w))
  = skippedNativeLayouts (snd acc).
Proof.
  destruct acc as [[ws csv] r]. unfold visitWidget.
  destruct (processWidget C w dn (typeNameOf tn) mn csv) as [[w' csv'] wr].
  cbn [snd]. by destruct (0 <? props wr).
Qed.

Lemma foldl_visitWidget_skippedNativeLayouts C dn tn mn acc ws :
  skippedNativeLayouts (snd (foldl (visitWidget C dn tn mn) acc ws))
  = skippedNativeLayouts (snd acc).
Proof.
  revert acc. induction ws as [|w ws IH]; intros acc; cbn [foldl]; [done|].
  by rewrite IH, visitWidget_skippedNativeLayouts.
Qed.

Lemma processDocument_skippedNativeLayouts C tn mn d csv r :
  skippedNativeLayouts (snd (processDocument C tn mn d csv r))
  = skippedNativeLayouts r
    + (if loadable d && nativePage tn d then 1 else 0).
Proof.
  rewrite processDocument_unfold.
  destruct (loadable d); cbn [negb andb]; [|cbn; lia].
  destruct (nativePage tn d); [done|]. cbn zeta. cbn [snd].
  rewrite foldl_visitWidget_skippedNativeLayouts. cbn. lia.
Qed.

(** X22. The native-layout counter that [processDocumentCollection]
    returns is the number of selected, loadable pages on a layout whose
    lower-cased name contains "native". *)
Theorem native_layout_pages_counted C sel store tn mn csv :
  skippedNativeLayouts (snd (processDocumentCollection C sel store tn mn csv))
  = length (filter (fun d => sel d = true /\ loadable d = true
                             /\ nativePage tn d = true) store).
Proof.
  induction store as [|d store IH] using rev_ind; [done|].
  rewrite processDocumentCollection_snoc, filter_app, length_app.
  rewrite filter_cons, filter_nil.
  destruct (processDocumentCollection C sel store tn mn csv) as [[ds c] r].
  cbn [snd] in IH.
  destruct (sel d) eqn:Es.
  - pose proof (processDocument_skippedNativeLayouts C tn mn d c r) as Hd.
    destruct (processDocument C tn mn d c r) as [[d' c'] r'].
    cbn [snd] in *. rewrite Hd, IH.
    destruct (loadable d), (nativePage tn d); cbn [andb].
    + rewrite decide_True by done. done.
    + rewrite decide_False by (intros (_ & _ & ?); done). cbn. lia.
    + rewrite decide_False by (intros (_ & ? & _); done). cbn. lia.
    + rewrite decide_False by (intros (_ & ? & _); done). cbn. lia.
  - cbn [snd]. rewrite decide_False by (intros (? & _); done).
    rewrite IH. cbn. lia.
Qed.

(** ** The widget counter *)

Lemma processWidget_props C w dn dt mn csv :
  0 < props (snd (processWidget C w dn dt mn csv))
  <-> hasCoveredProperty C w.
Proof.
  unfold hasCoveredProperty. destruct (processed w) eqn:Hp.
  - unfold processWidget. cbn [snd].
    destruct (processWidgetRun_final C w dn dt mn csv Hp) as (_ & -> & _).
    cbn [props addMapped]. unfold analyseWidget.
    rewrite (proj1 (analyse_props_skipped C (widgetCtx w dn mn) csv
                      (withRefs (designProperties w)))).
    rewrite Exists_exists. split.
    + intros Hlen. split; [done|].
      destruct (filter _ _) as [|[i p] rest] eqn:E; [cbn in Hlen; lia|].
      assert (Hin : (i, p) ∈ filter
                (fun r : PropRef => reachesLookup C (snd r) = true)
                (withRefs (designProperties w))).
      { rewrite E. by left. }
      apply list_elem_of_filter in Hin as [Hr Hin].
      apply elem_of_withRefs in Hin. exists p. split; [|done].
      by eapply list_elem_of_lookup_2.
    + intros [_ (p & Hin & Hr)].
      apply list_elem_of_lookup in Hin as [i Hi].
      assert (Hin : (i, p) ∈ filter
                (fun r : PropRef => reachesLookup C (snd r) = true)
                (withRefs (designProperties w))).
      { apply list_elem_of_filter. split; [done|]. by apply elem_of_withRefs. }
      destruct (filter _ _); [by apply elem_of_nil in Hin|cbn; lia].
  - rewrite processWidgetRun_skipped by done. cbn. split; [lia|].
    by intros [? _].
Qed.

Lemma visitWidget_widgets C dn tn mn acc w :
  widgets (snd (visitWidget C dn tn mn acc w))
  = widgets (snd acc) + (if decide (hasCoveredProperty C w) then 1 else 0).
Proof.
  destruct acc as [[ws csv] r]. unfold visitWidget.
  pose proof (processWidget_props C w dn (typeNameOf tn) mn csv) as H.
  destruct (processWidget C w dn (typeNameOf tn) mn csv) as [[w' csv'] wr].
  cbn [snd] in *. destruct (0 <? props wr) eqn:E.
  - apply Nat.ltb_lt in E. rewrite decide_True by by apply H. done.
  - apply Nat.ltb_ge in E. rewrite decide_False; [lia|].
    intros Hc. apply H in Hc. lia.
Qed.

Lemma foldl_visitWidget_widgets C dn tn mn acc ws :
  widgets (snd (foldl (visitWidget C dn tn mn) acc ws))
  = widgets (snd acc) + length (filter (hasCoveredProperty C) ws).
Proof.
  induction ws as [|w ws IH] using rev_ind; [cbn; lia|].
  rewrite foldl_app, filter_app, length_app. cbn [foldl].
  rewrite visitWidget_widgets, IH, filter_cons, filter_nil.
  destruct (decide (hasCoveredProperty C w)); cbn; lia.
Qed.

(** X23. For a loadable document that is not a page on a native layout,
    the widget counter grows by the number of its widgets that are
    processed and have at least one property that reaches the rule lookup
    (named, the name covered by a rule, the value not empty), whether or
    not a rule resolves for that property. *)
Theorem widgets_counted_with_covered_property C tn mn d csv r :
  loadable d = true -> nativePage tn d = false ->
  widgets (snd (processDocument C tn mn d csv r))
  = widgets r + length (filter (hasCoveredProperty C) (docWidgets d)).
Proof.
  intros Hl Hn. rewrite processDocument_unfold, Hl, Hn. cbn [negb].
  cbn zeta. cbn [snd]. by rewrite foldl_visitWidget_widgets.
Qed.

Lemma widgets_counted_with_covered_property_witness :
  widgets (snd (processDocument sampleCatalog TPage "App" samplePage []
                  zeroResult)) = 1.
Proof.
  rewrite (widgets_counted_with_covered_property sampleCatalog TPage "App"
             samplePage [] zeroResult eq_refl); [|by vm_compute].
  by vm_compute.
Defined.

(** ** The report and the confirmation *)

Lemma main_analysed file token appId branch answer model rows :
  out_report (main file token appId branch answer model) = Some rows ->
  exists C, loadMappings file = Some C
    /\ rows = rs_csv (analyseModel C model)
    /\ out_totals (main file token appId branch answer model)
       = rs_totals (analyseModel C model).
Proof.
  unfold main. destruct (loadMappings file) as [C|]; [|done].
  destruct (negb (truthy token) || negb (truthy appId)); [done|].
  cbn zeta. intros H. exists C. split; [done|].
  destruct (0 <? totalModified _); cbn [out_report out_totals] in *;
    (destruct (0 <? length (rs_csv (analyseModel C model))); [|done]);
    by injection H as <-.
Qed.

(** X24. When [main] writes the report, its summary agrees with the
    totals that [main] prints: the "Mapped" line is the mapped total, the
    "Removed" line is the removed total, the "Skipped" line is always 0,
    and the total number of entries is the mapped total plus the removed
    total plus the number of "widgetPropertySet" rows; the total of the
    properties found is the mapped, removed and skipped totals plus the
    number of "widgetPropertySet" rows. *)
Theorem report_summary_matches_totals file token appId branch answer model
    rows :
  out_report (main file token appId branch answer model) = Some rows ->
  let t := out_totals (main file token appId branch answer model) in
  sum_mapped (summaryData rows) = mapped t
  /\ sum_removed (summaryData rows) = removed t
  /\ sum_skipped (summaryData rows) = 0
  /\ sum_total (summaryData rows)
     = mapped t + removed t + countAction WidgetPropertySet rows
  /\ props t
     = mapped t + removed t + skipped t
       + countAction WidgetPropertySet rows.
Proof.
  intros H. apply main_analysed in H as (C & _ & -> & ->). cbn zeta.
  cbn [summaryData sum_mapped sum_removed sum_skipped sum_total].
  destruct (analyseModel_totals C model) as (A & B & C0 & D & E).
  repeat split; done.
Qed.

Lemma report_summary_matches_totals_witness :
  sum_skipped (summaryData
                 (rs_csv (analyseModel sampleCatalog sampleModel))) = 0
  /\ sum_mapped (summaryData
                   (rs_csv (analyseModel sampleCatalog sampleModel))) = 1.
Proof.
  assert (H : out_report (main (Some sampleRules) "token" "app-id" "main"
                            false sampleModel)
              = Some (rs_csv (analyseModel sampleCatalog sampleModel)))
    by by vm_compute.
  destruct (report_summary_matches_totals _ _ _ _ _ _ _ H)
    as (R1 & _ & R3 & _).
  split; [exact R3|]. rewrite R1. by vm_compute.
Defined.

(** X25. The operator is asked for confirmation exactly when a report is
    written that holds at least one "mapped" or "removed" row;
    "widgetPropertySet" rows alone never lead to the question. *)
Theorem asked_iff_report_has_design_changes file token appId branch answer
    model :
  out_asked (main file token appId branch answer model) = true
  <-> exists rows,
        out_report (main file token appId branch answer model) = Some rows
        /\ 0 < countAction Mapped rows + countAction Removed rows.
Proof.
  split.
  - unfold main. destruct (loadMappings file) as [C|]; [|done].
    destruct (negb (truthy token) || negb (truthy appId)); [done|].
    cbn zeta.
    destruct (analyseModel_totals C model) as (A & B & C0 & D & E).
    destruct (0 <? totalModified (rs_totals (analyseModel C model))) eqn:Et;
      cbn [out_asked out_report]; [|done].
    intros _. apply Nat.ltb_lt in Et. unfold totalModified in Et.
    rewrite analyseModel_widgetPropsMapped in Et.
    exists (rs_csv (analyseModel C model)). split; [|lia].
    destruct (0 <? length (rs_csv (analyseModel C model))) eqn:El; [done|].
    apply Nat.ltb_ge in El. lia.
  - intros (rows & Hrep & Hpos).
    pose proof Hrep as Hrep'.
    apply main_analysed in Hrep' as (C & HC & -> & _).
    destruct (analyseModel_totals C model) as (A & B & _).
    unfold main in *. rewrite HC in *.
    destruct (negb (truthy token) || negb (truthy appId)); [done|].
    cbn zeta in *.
    destruct (0 <? totalModified (rs_totals (analyseModel C model))) eqn:Et;
      [done|].
    apply Nat.ltb_ge in Et. unfold totalModified in Et. lia.
Qed.

Lemma asked_iff_report_has_design_changes_witness :
  out_asked (main (Some buttonRules) "token" "app-id" "main" true buttonModel)
  = false
  /\ out_backend (main (Some buttonRules) "token" "app-id" "main" true
                    buttonModel) = []
  /\ out_model (main (Some buttonRules) "token" "app-id" "main" true
                  buttonModel) ≠ buttonModel.
Proof.
  split; [|split].
  - destruct (out_asked (main (Some buttonRules) "token" "app-id" "main" true
                           buttonModel)) eqn:E; [|reflexivity].
    apply asked_iff_report_has_design_changes in E as (rows & Hrep & Hpos).
    vm_compute in Hrep. injection Hrep as <-. vm_compute in Hpos. lia.
  - by vm_compute.
  - intros H.
    apply (f_equal (fun m => map (fun d => map buttonStyle (docWidgets d))
                                 (allPages m))) in H.
    vm_compute in H. discriminate H.
Defined.
